(** * Dispa-SET pre-processing: the unit clustering algorithm

    A shallow embedding of [clustering] and its helpers from
    [DispaSET/preprocessing/utils.py], and the properties its
    specification states about it; then [incidence_matrix] and the part
    of [interconnections] that reads the names of the connections.

    Numbers.  The data frame holds floating-point numbers; they are
    embedded as exact rationals ([Qc], canonical fractions, so that [=]
    is numeric equality).  The embedding follows the source on frames
    whose numeric cells are numbers and whose divisors are not zero.  A
    division whose divisor is zero has no quotient among the rationals,
    and the embedding ends there with [DivisionByZero]; the source goes
    on with numpy's inf or nan and a RuntimeWarning.  A missing number
    (pandas holds it as nan, and computes with it) is no number of the
    embedding either: reading it ends in [TypeError].

    Data frames.  A row is a finite map from column names to cells, a
    table is the list of its column names with the list of its rows in
    index order ([plants.index = range(Nunits)], so the index of a row is
    its position).

    Effects.  [sys.exit] and the Python exceptions are the constructors
    of [error]; the records passed to [logging] are returned next to the
    result. *)

From Stdlib Require Import ZArith QArith Qcanon Qcabs Qround String Ascii List Lia Sorted.
From stdpp Require Import base option list gmap strings numbers pretty.

Local Open Scope Z_scope.
Local Open Scope string_scope.
Local Open Scope list_scope.

(** ** Errors and the result monad *)

Inductive error : Type :=
| SysExit (code : Z)            (* sys.exit(code) *)
| KeyError (key : string)       (* a column that the frame does not have *)
| TypeError                     (* arithmetic on a cell that is no number *)
| DivisionByZero                (* a / 0 is reached: no rational is its quotient *)
| ValueError                    (* argmin of an empty array *)
| NameError (name : string).    (* a local variable read before assignment *)

Inductive result (A : Type) : Type :=
| Ok (a : A)
| Err (e : error).
Arguments Ok {A} a.
Arguments Err {A} e.

Definition bind {A B} (m : result A) (k : A -> result B) : result B :=
  match m with
  | Ok a => k a
  | Err e => Err e
  end.

Notation "'let*' x ':=' m 'in' k" := (bind m (fun x => k))
  (at level 10, x pattern, m at level 100, k at level 200).

Definition is_ok {A} (m : result A) : bool :=
  match m with Ok _ => true | Err _ => false end.

(** [mapM f l]: run [f] on the elements of [l] from left to right, stop
    at the first error. *)
Fixpoint mapM {A B} (f : A -> result B) (l : list A) : result (list B) :=
  match l with
  | [] => Ok []
  | x :: l' =>
      let* y := f x in
      let* ys := mapM f l' in
      Ok (y :: ys)
  end.

(** [foldM f l a]: a loop [for x in l: a = f(x, a)]. *)
Fixpoint foldM {A S} (f : A -> S -> result S) (l : list A) (s : S) : result S :=
  match l with
  | [] => Ok s
  | x :: l' => let* s' := f x s in foldM f l' s'
  end.

(** Python's short-circuit [and]. *)
Definition andM (a b : result bool) : result bool :=
  let* x := a in if x then b else Ok false.

(** ** Log records *)

Inductive severity := ERROR | WARNING | INFO.

Inductive message : Type :=
| MissingColumn (column : string)
| NunitsNotAllOne
| LPAggregatesSameType
| MethodNotRecognized (method : string)
| Clustered (n_orig n_new : nat)
| DidNotCluster.

Definition level (m : message) : severity :=
  match m with
  | MissingColumn _ => ERROR
  | NunitsNotAllOne => WARNING
  | LPAggregatesSameType => WARNING
  | MethodNotRecognized _ => ERROR
  | Clustered _ _ => INFO
  | DidNotCluster => WARNING
  end.

(** ** Cells, rows and tables *)

Inductive cell : Type :=
| Num (q : Qc)
| Str (s : string)
| NaN.                 (* a missing value *)

Global Instance cell_eq_dec : EqDecision cell.
Proof. solve_decision. Defined.

Record table : Type := Table {
  columns : list string;
  rows : list (gmap string cell)
}.

Definition qc (n : Z) (d : positive) : Qc := Q2Qc (n # d).
Definition Qc_of_nat (n : nat) : Qc := Q2Qc (inject_Z (Z.of_nat n)).

(** [frame[key][i]] on the row [r] of index [i], for a number.  A
    string or a missing value is no number of the embedding (pandas holds
    a missing number as nan and computes with it): the properties are
    stated for rows whose numeric cells are numbers. *)
Definition getn (r : gmap string cell) (key : string) : result Qc :=
  match r !! key with
  | None => Err (KeyError key)
  | Some (Num q) => Ok q
  | Some _ => Err TypeError
  end.

(** [a / b].  For a divisor other than zero this is the quotient.  At
    zero the rationals have none: the embedding ends with
    [DivisionByZero], where numpy writes inf or nan, warns, and lets the
    run go on. *)
Definition div (a b : Qc) : result Qc :=
  if decide (b = Q2Qc 0) then Err DivisionByZero else Ok (a / b)%Qc.

(** [np.minimum(a, b)]. *)
Definition minimum (a b : Qc) : Qc :=
  if decide (a ≤ b)%Qc then a else b.

(** [Series.fillna('')] on one cell. *)
Definition fillna (c : cell) : cell :=
  match c with NaN => Str "" | _ => c end.

(** [c1 == c2] on two cells. *)
Definition cell_eqb (c1 c2 : cell) : bool := bool_decide (c1 = c2).

(** ** Helpers: [_find_nearest], [np.linspace] *)

(** [argmin]: the first position of the least element. *)
Fixpoint argmin_go (l : list Qc) (i : nat) (best : Qc) (ibest : nat) : nat :=
  match l with
  | [] => ibest
  | x :: l' =>
      if decide (x < best)%Qc then argmin_go l' (S i) x i
      else argmin_go l' (S i) best ibest
  end.

Definition argmin (l : list Qc) : result nat :=
  match l with
  | [] => Err ValueError
  | x :: l' => Ok (argmin_go l' 1 x 0)
  end.

Definition _find_nearest (array : list Qc) (value : Qc) : result nat :=
  argmin (map (fun a => Qcabs (a - value)%Qc) array).

(** [np.linspace(start, stop, N)], with exact fractions where numpy
    holds doubles: a value that lies exactly between two bounds can fall
    in the next slice in the source. *)
Definition linspace (start stop : Qc) (N : nat) : list Qc :=
  match N with
  | 0%nat => []
  | 1%nat => [start]
  | _ => let step := ((stop - start) / Qc_of_nat (N - 1))%Qc in
         map (fun i => (start + Qc_of_nat i * step)%Qc) (seq 0 N)
  end.

(** ** Column names used by the algorithm *)

Definition required_inputs : list string :=
  ["Unit"; "PowerCapacity"; "PartLoadMin"; "RampUpRate"; "RampDownRate"; "StartUpTime";
   "MinUpTime"; "MinDownTime"; "NoLoadCost"; "StartUpCost"; "Efficiency"].

Definition string_keys : list string := ["Zone"; "Technology"; "Fuel"; "CHPType"].

Definition capacity_keys : list string :=
  ["PowerCapacity"; "STOCapacity"; "STOMaxChargingPower"; "InitialPower"].

Definition average_keys_LP : list string :=
  ["RampUpRate"; "RampDownRate"; "MinUpTime"; "MinDownTime"; "NoLoadCost"; "Efficiency";
   "MinEfficiency"; "STOChargingEfficiency"; "CO2Intensity"; "STOSelfDischarge"].

Definition average_keys_Standard : list string :=
  average_keys_LP ++ ["CHPPowerToHeat"; "CHPPowerLossFactor"].

Definition minimum_keys : list string := ["PartLoadMin"; "StartUpTime"].

Definition average_keys_Integer : list string :=
  ["PowerCapacity"; "RampUpRate"; "RampDownRate"; "MinUpTime"; "MinDownTime"; "NoLoadCost";
   "Efficiency"; "MinEfficiency"; "STOChargingEfficiency"; "CO2Intensity"; "STOSelfDischarge";
   "STOCapacity"; "STOMaxChargingPower"; "InitialPower"; "PartLoadMin"; "StartUpTime";
   "RampingCost"].

Definition rescaled_keys : list string :=
  ["PowerCapacity"; "STOCapacity"; "STOMaxChargingPower"; "InitialPower"; "NoLoadCost"].

Definition has_column (t : table) (key : string) : bool := bool_decide (key ∈ columns t).

(** ** Checking the inputs and the method (lines 155-187) *)

(** The first required column that the frame does not have. *)
Definition missing_input (t : table) : option string :=
  List.find (fun input => negb (has_column t input)) required_inputs.

(** [plants[key] = v]: the column is overwritten, or added as the last one. *)
Definition assign_column (key : string) (v : cell) (t : table) : table :=
  Table (if has_column t key then columns t else columns t ++ [key])
        (map (fun r => <[key := v]> r) (rows t)).

(** [if not "Nunits" in plants: plants['Nunits'] = 1]. *)
Definition default_Nunits (t : table) : table :=
  if has_column t "Nunits" then t else assign_column "Nunits" (Num (Q2Qc 1)) t.

(** [(plants['Nunits'] == 1).all()]. *)
Definition all_ones (t : table) : bool :=
  forallb (fun r => bool_decide (r !! "Nunits" = Some (Num (Q2Qc 1)))) (rows t).

(** [plants.loc[:,key] = plants.loc[:,'Nunits'] * plants.loc[:,key]], when
    the frame has the column. *)
Definition expand_row (key : string) (r : gmap string cell) : result (gmap string cell) :=
  let* n := getn r "Nunits" in
  let* v := getn r key in
  Ok (<[key := Num (n * v)%Qc]> r).

Definition expand_column (key : string) (t : table) : result table :=
  if has_column t key then
    let* rs := mapM (expand_row key) (rows t) in
    Ok (Table (columns t) rs)
  else Ok t.

(** The pre-expansion of 'LP clustered' (lines 173-177). *)
Definition pre_expand (t : table) : result table :=
  let* t' := foldM expand_column capacity_keys t in
  Ok (assign_column "Nunits" (Num (Q2Qc 1)) t').

(** The method check: the log, and the frame with the flag [OnlyOnes]
    that the merging loop reads. *)
Definition check_method (method : string) (t : table)
  : list message * result (table * bool) :=
  let OnlyOnes := all_ones t in
  if bool_decide (method ∈ ["Standard"; "MILP"]) then
    (if OnlyOnes then [] else [NunitsNotAllOne], Ok (t, OnlyOnes))
  else if String.eqb method "LP clustered" then
    if OnlyOnes then ([], Ok (t, OnlyOnes))
    else ([LPAggregatesSameType],
          let* t' := pre_expand t in Ok (t', true))
  else if String.eqb method "LP" then ([], Ok (t, OnlyOnes))
  else if String.eqb method "Integer clustering" then ([], Ok (t, OnlyOnes))
  else if String.eqb method "No clustering" then ([], Ok (t, OnlyOnes))
  else ([MethodNotRecognized method], Err (SysExit 1)).

(** Lines 155-187 together. *)
Definition prepare (method : string) (plants : table)
  : list message * result (table * bool) :=
  match missing_input plants with
  | Some input => ([MissingColumn input], Err (SysExit 1))
  | None => check_method method (default_Nunits plants)
  end.

(** ** Fingerprints (lines 197-217) *)

Section Clustering.

(** [_mylogspace(low, high, N)] is [np.logspace(0, log10(high+low+1), N) - (low+1)]:
    its values are irrational, so the array is a parameter of the
    development.  Nothing is assumed about it. *)
Variable _mylogspace : Qc -> Qc -> nat -> list Qc.

(** [clean_strings] and [shrink_to_64] live in [DispaSET/misc/str_handler.py];
    the clustering only applies them to the new unit names. *)
Variable clean_strings : string -> string.
Variable shrink_to_64 : string -> string.

(** The dictionary [bounds], in the order in which the fingerprint reads it. *)
Definition bounds (Nslices : nat) : list (string * list Qc) :=
  [("PartLoadMin", linspace (qc 0 1) (qc 1 1) Nslices);
   ("RampUpRate", linspace (qc 0 1) (qc 1 1) Nslices);
   ("RampDownRate", linspace (qc 0 1) (qc 1 1) Nslices);
   ("StartUpTime", _mylogspace (qc 0 1) (qc 36 1) Nslices);
   ("MinUpTime", _mylogspace (qc 0 1) (qc 168 1) Nslices);
   ("MinDownTime", _mylogspace (qc 0 1) (qc 168 1) Nslices);
   ("NoLoadCost", linspace (qc 0 1) (qc 50 1) Nslices);
   ("StartUpCost", linspace (qc 0 1) (qc 500 1) Nslices);
   ("Efficiency", linspace (qc 0 1) (qc 1 1) Nslices)].

(** The fingerprint of one plant: the slice of each of the nine
    characteristics. *)
Definition fingerprint (Nslices : nat) (r : gmap string cell) : result (list nat) :=
  mapM (fun '(key, array) => let* v := getn r key in _find_nearest array v)
       (bounds Nslices).

(** ** The merging rules (lines 243-308) *)

(** One cluster: the row [plants_merged.loc[j]], the list
    [map_plant_orig[j]] and the fingerprint [fingerprints_merged[j]].  The
    three Python lists grow and are indexed together, so position [j] of
    the list of clusters stands for position [j] of each of them. *)
Record cluster : Type := Cluster {
  merged_row : gmap string cell;
  former : list nat;
  merged_fingerprint : list nat
}.

Definition in_keys (key : string) (keys : list string) : bool := bool_decide (key ∈ keys).

(** [Cost_to_fullload] of the plant [ri] that is added. *)
Definition Cost_to_fullload (P_add : Qc) (ri : gmap string cell) : result Qc :=
  let* plm := getn ri "PartLoadMin" in
  let* rc := getn ri "RampingCost" in
  let* suc := getn ri "StartUpCost" in
  Ok (P_add * (1 - plm) * rc + suc)%Qc.

(** The body of [for key in plants_merged] under 'LP clustered' when
    [zero_minimum] is set, under 'Standard' and 'MILP' otherwise; [rj] is
    the row of the cluster as the loop has updated it so far. *)
Definition merge_key (zero_minimum : bool) (average_keys : list string)
    (P_old P_add : Qc) (ri : gmap string cell)
    (key : string) (rj : gmap string cell) : result (gmap string cell) :=
  if in_keys key average_keys then
    let* a := getn rj key in
    let* b := getn ri key in
    let* v := div (a * P_old + b * P_add)%Qc (P_add + P_old)%Qc in
    Ok (<[key := Num v]> rj)
  else if in_keys key capacity_keys then
    let* a := getn rj key in
    let* b := getn ri key in
    Ok (<[key := Num (a + b)%Qc]> rj)
  else if in_keys key minimum_keys then
    if zero_minimum then Ok (<[key := Num (Q2Qc 0)]> rj)
    else
      let* a := getn rj key in
      let* b := getn ri key in
      let* v := div (minimum (a * P_old) (b * P_add))%Qc (P_add + P_old)%Qc in
      Ok (<[key := Num v]> rj)
  else if String.eqb key "RampingCost" then
    let* c := Cost_to_fullload P_add ri in
    let* a := getn rj key in
    let* v := div (P_old * a + c)%Qc (P_old + P_add)%Qc in
    Ok (<[key := Num v]> rj)
  else if String.eqb key "Nunits" then Ok (<[key := Num (Q2Qc 1)]> rj)
  else Ok rj.

(** Lines 244-265 ('Standard', 'MILP') and 271-291 ('LP clustered'). *)
Definition merge_capacity_weighted (zero_minimum : bool) (average_keys : list string)
    (cols : list string) (rj ri : gmap string cell) : result (gmap string cell) :=
  let* P_old := getn rj "PowerCapacity" in
  let* P_add := getn ri "PowerCapacity" in
  foldM (merge_key zero_minimum average_keys P_old P_add ri) cols rj.

Definition merge_Standard := merge_capacity_weighted false average_keys_Standard.
Definition merge_LP_clustered := merge_capacity_weighted true average_keys_LP.

(** Lines 297-303 ('Integer clustering'). *)
Definition merge_key_Integer (ri : gmap string cell)
    (key : string) (rj : gmap string cell) : result (gmap string cell) :=
  if in_keys key average_keys_Integer then
    let* a := getn rj key in
    let* nj := getn rj "Nunits" in
    let* b := getn ri key in
    let* ni := getn ri "Nunits" in
    let* v := div (a * nj + b * ni)%Qc (nj + ni)%Qc in
    Ok (<[key := Num v]> rj)
  else Ok rj.

Definition merge_Integer (cols : list string) (rj ri : gmap string cell)
  : result (gmap string cell) :=
  let* rj' := foldM (merge_key_Integer ri) cols rj in
  let* nj := getn rj' "Nunits" in
  let* ni := getn ri "Nunits" in
  Ok (<["Nunits" := Num (nj + ni)%Qc]> rj').

(** ** The merge test (lines 235-242) *)

(** [frame[key].fillna('')[i]]. *)
Definition get_filled (r : gmap string cell) (key : string) : result cell :=
  match r !! key with
  | None => Err (KeyError key)
  | Some c => Ok (fillna c)
  end.

Definition same_type (ri rj : gmap string cell) : result bool :=
  let* eqs := mapM (fun key => let* ci := get_filled ri key in
                               let* cj := get_filled rj key in
                               Ok (cell_eqb ci cj)) string_keys in
  Ok (forallb id eqs).

Definition gtb (a b : Qc) : bool := bool_decide (b < a)%Qc.
Definition ltb (a b : Qc) : bool := bool_decide (a < b)%Qc.
Definition leb (a b : Qc) : bool := bool_decide (a ≤ b)%Qc.

Definition highly_flexible (ri : gmap string cell) : result bool :=
  andM (let* v := getn ri "RampUpRate" in Ok (gtb v (qc 1 60)))
 (andM (let* v := getn ri "RampDownRate" in Ok (gtb v (qc 1 60)))
 (andM (let* v := getn ri "StartUpTime" in Ok (ltb v (qc 1 1)))
 (andM (let* v := getn ri "MinDownTime" in Ok (leb v (qc 1 1)))
       (let* v := getn ri "MinUpTime" in Ok (leb v (qc 1 1)))))).

(** The five tests of one pass of the inner loop, in the order of the
    source, and the flag [cluster]. *)
Record tests : Type := Tests {
  t_same_type : bool;
  t_same_fingerprint : bool;
  t_low_pmin : bool;
  t_low_pmax : bool;
  t_highly_flexible : bool
}.

Definition eligible (OnlyOnes : bool) (ts : tests) : bool :=
  OnlyOnes && t_same_type ts &&
  ((t_same_fingerprint ts && t_low_pmin ts) || t_highly_flexible ts || t_low_pmax ts).

Definition merge_tests (PartLoadMax Pmax : Qc)
    (ri : gmap string cell) (fi : list nat) (c : cluster) : result tests :=
  let* st := same_type ri (merged_row c) in
  let sf := bool_decide (fi = merged_fingerprint c) in
  let* plm := getn ri "PartLoadMin" in
  let* pc := getn ri "PowerCapacity" in
  let* hf := highly_flexible ri in
  Ok (Tests st sf (leb plm PartLoadMax) (leb pc Pmax) hf).

(** ** The scan over the clusters (lines 232-315) *)

(** One pass of [for j in plants_merged.index]: the row of cluster [j]
    after the merge of plant [ri], or [None] when no branch is taken. *)
Definition try_merge (method : string) (OnlyOnes : bool) (PartLoadMax Pmax : Qc)
    (cols : list string) (ri : gmap string cell) (fi : list nat) (c : cluster)
  : result (option (gmap string cell)) :=
  let* ts := merge_tests PartLoadMax Pmax ri fi c in
  if bool_decide (method ∈ ["Standard"; "MILP"]) && eligible OnlyOnes ts then
    let* r := merge_Standard cols (merged_row c) ri in Ok (Some r)
  else if String.eqb method "LP clustered" && t_same_type ts && OnlyOnes then
    let* r := merge_LP_clustered cols (merged_row c) ri in Ok (Some r)
  else if String.eqb method "Integer clustering" && t_same_type ts then
    let* r := merge_Integer cols (merged_row c) ri in Ok (Some r)
  else Ok None.

(** The inner loop with its [break]: the clusters after plant [i] has
    been merged into the first one that takes it, [None] when the loop
    ends with [merged = False]. *)
Fixpoint scan (method : string) (OnlyOnes : bool) (PartLoadMax Pmax : Qc)
    (cols : list string) (i : nat) (ri : gmap string cell) (fi : list nat)
    (cs : list cluster) : result (option (list cluster)) :=
  match cs with
  | [] => Ok None
  | c :: cs' =>
      let* m := try_merge method OnlyOnes PartLoadMax Pmax cols ri fi c in
      match m with
      | Some r => Ok (Some (Cluster r (former c ++ [i]) (merged_fingerprint c) :: cs'))
      | None =>
          let* m' := scan method OnlyOnes PartLoadMax Pmax cols i ri fi cs' in
          Ok (option_map (cons c) m')
      end
  end.

(** One pass of the outer loop. *)
Definition add_plant (method : string) (OnlyOnes : bool) (PartLoadMax Pmax : Qc)
    (cols : list string) (u : nat * (gmap string cell * list nat))
    (cs : list cluster) : result (list cluster) :=
  let '(i, (ri, fi)) := u in
  let* m := scan method OnlyOnes PartLoadMax Pmax cols i ri fi cs in
  match m with
  | Some cs' => Ok cs'
  | None => Ok (cs ++ [Cluster ri [i] fi])
  end.

Definition merge_loop (method : string) (OnlyOnes : bool) (PartLoadMax Pmax : Qc)
    (cols : list string) (units : list (nat * (gmap string cell * list nat)))
  : result (list cluster) :=
  foldM (add_plant method OnlyOnes PartLoadMax Pmax cols) units [].

(** [for key in string_keys: plants[key].fillna('', inplace=True)]. *)
Definition fill_strings (t : table) : result table :=
  foldM (fun key t =>
           if has_column t key
           then Ok (Table (columns t) (map (alter fillna key) (rows t)))
           else Err (KeyError key))
        string_keys t.

(** ** The new names and the mapping (lines 317-341) *)

Record mapping : Type := Mapping {
  NewIndex : gmap nat string;
  FormerIndexes : gmap string (list nat)
}.

(** [str(l)] for a list of integers. *)
Definition str_list (l : list nat) : string :=
  "[" +:+ String.concat ", " (map pretty l) +:+ "]".

Definition is_space (a : ascii) : bool :=
  let n := nat_of_ascii a in
  ((9 <=? n)%nat && (n <=? 13)%nat) || (n =? 32)%nat.

(** [s.rstrip()]. *)
Fixpoint rstrip (s : string) : string :=
  match s with
  | EmptyString => EmptyString
  | String a s' =>
      match rstrip s' with
      | EmptyString => if is_space a then EmptyString else String a EmptyString
      | t => String a t
      end
  end.

(** A cell read as a string operand of [+]. *)
Definition gets (r : gmap string cell) (key : string) : result string :=
  match r !! key with
  | None => Err (KeyError key)
  | Some (Str s) => Ok s
  | Some _ => Err TypeError
  end.

Definition sanitize (s : string) : string := rstrip (shrink_to_64 (clean_strings s)).

Definition NewName (c : cluster) : result string :=
  match former c with
  | [_] =>
      let* u := gets (merged_row c) "Unit" in
      Ok (sanitize (str_list (former c) +:+ " - " +:+ u))
  | _ =>
      let* all_stringkeys :=
        foldM (fun key acc => let* v := gets (merged_row c) key in Ok (acc +:+ " - " +:+ v))
              string_keys "" in
      Ok (sanitize (str_list (former c) +:+ all_stringkeys))
  end.

(** One pass of [for j in range(Nunits_merged)]. *)
Definition rename (c : cluster) (acc : list (gmap string cell) * mapping)
  : result (list (gmap string cell) * mapping) :=
  let '(out, m) := acc in
  let* name := NewName c in
  let r := <["Unit" := Str name]> (merged_row c) in
  match former c with
  | [i0] =>
      Ok (out ++ [r],
          Mapping (<[i0 := name]> (NewIndex m)) (<[name := [i0]]> (FormerIndexes m)))
  | list_oldplants =>
      Ok (out ++ [r],
          Mapping (foldl (fun ni oldplant => <[oldplant := name]> ni) (NewIndex m) list_oldplants)
                  (<[name := list_oldplants]> (FormerIndexes m)))
  end.

Definition rename_all (cs : list cluster)
  : result (list (gmap string cell) * mapping) :=
  foldM rename cs ([], Mapping ∅ ∅).

(** ** The corrections after the merge (lines 343-358) *)

(** 'LP clustered': the start-up cost becomes a ramping cost. *)
Definition ramping_from_startup (r : gmap string cell) : result (gmap string cell) :=
  match r !! "RampingCost" with
  | None => Err (KeyError "RampingCost")
  | Some c =>
      if bool_decide (c = Num (Q2Qc 0)) then
        let* Power := getn r "PowerCapacity" in
        let* Start_up := getn r "StartUpCost" in
        let* v := div Start_up Power in
        Ok (<["RampingCost" := Num v]> r)
      else Ok r
  end.

(** [np.round]: to the nearest integer, a half to the even one. *)
Definition np_round (q : Qc) : Qc :=
  let f := Qfloor q in
  let d := (q - Q2Qc (inject_Z f))%Qc in
  if decide (d < qc 1 2)%Qc then Q2Qc (inject_Z f)
  else if decide (qc 1 2 < d)%Qc then Q2Qc (inject_Z (f + 1))
  else if Z.even f then Q2Qc (inject_Z f) else Q2Qc (inject_Z (f + 1)).

(** The body of [for key in [...]] at line 355, on the row [idx]. *)
Definition rescale_key (cols : list string) (N : Qc)
    (key : string) (r : gmap string cell) : result (gmap string cell) :=
  if in_keys key cols then
    let* a := getn r key in
    let* nu := getn r "Nunits" in
    let* v := div (a * N)%Qc nu in
    Ok (<[key := Num v]> r)
  else Ok r.

(** 'Integer clustering': the loop of line 353 only leaves [idx] and [N]
    of its last pass; lines 355-358 use them once, after it. *)
Definition round_Nunits (cols : list string) (rs : list (gmap string cell))
  : result (list (gmap string cell)) :=
  let* Ns := mapM (fun r => let* n := getn r "Nunits" in Ok (np_round n)) rs in
  match last Ns, last rs with
  | Some N, Some r =>
      let* r' := foldM (rescale_key cols N) rescaled_keys r in
      Ok (removelast rs ++ [<["Nunits" := Num N]> r'])
  | _, _ => Err (NameError "idx")
  end.

Definition post_process (method : string) (cols : list string)
    (rs : list (gmap string cell)) : result (list (gmap string cell)) :=
  if String.eqb method "LP clustered" then mapM ramping_from_startup rs
  else if String.eqb method "Integer clustering" then round_Nunits cols rs
  else Ok rs.

(** ** [clustering] *)

(** Lines 189-358 on the frame that passed the checks. *)
Definition cluster_units (method : string) (Nslices : nat) (PartLoadMax Pmax : Qc)
    (OnlyOnes : bool) (plants : table) : result (table * mapping) :=
  let* fingerprints := mapM (fingerprint Nslices) (rows plants) in
  let* plants := fill_strings plants in
  let units := zip (seq 0 (length (rows plants))) (zip (rows plants) fingerprints) in
  let* cs := merge_loop method OnlyOnes PartLoadMax Pmax (columns plants) units in
  let* nm := rename_all cs in
  let '(named, m) := nm in
  let* final := post_process method (columns plants) named in
  Ok (Table (columns plants) final, m).

Definition clustering (plants : table) (method : string) (Nslices : nat)
    (PartLoadMax Pmax : Qc) : list message * result (table * mapping) :=
  match prepare method plants with
  | (log, Err e) => (log, Err e)
  | (log, Ok (plants', OnlyOnes)) =>
      match cluster_units method Nslices PartLoadMax Pmax OnlyOnes plants' with
      | Err e => (log, Err e)
      | Ok (plants_merged, m) =>
          let Nunits := length (rows plants') in
          (log ++ [if (Nunits =? length (rows plants_merged))%nat
                   then DidNotCluster
                   else Clustered Nunits (length (rows plants_merged))],
           Ok (plants_merged, m))
      end
  end.

End Clustering.

(** The default arguments of [clustering]. *)
Definition default_method : string := "Standard".
Definition default_Nslices : nat := 20.
Definition default_PartLoadMax : Qc := qc 1 10.
Definition default_Pmax : Qc := qc 30 1.

(** ** Well-formed frames

    The predicates below are boolean, so that they can be evaluated on a
    concrete frame. *)

(** The required columns as the specification lists them (section 4.2). *)
Definition spec_required_inputs : list string :=
  ["PowerCapacity"; "PartLoadMin"; "RampUpRate"; "RampDownRate"; "StartUpTime";
   "MinUpTime"; "MinDownTime"; "NoLoadCost"; "StartUpCost"; "Efficiency"].

Definition is_num (r : gmap string cell) (key : string) : bool :=
  match r !! key with Some (Num _) => true | _ => false end.

Definition num_is (r : gmap string cell) (key : string) (q : Qc) : bool :=
  bool_decide (r !! key = Some (Num q)).


(** What [ramping_from_startup] leaves in a row whose three cells are
    numbers and whose division is defined. *)
Definition ramping_row (r : gmap string cell) : gmap string cell :=
  match r !! "RampingCost", r !! "PowerCapacity", r !! "StartUpCost" with
  | Some (Num rc), Some (Num p), Some (Num s) =>
      if decide (rc = Q2Qc 0) then <["RampingCost" := Num (s / p)%Qc]> r else r
  | _, _, _ => r
  end.

Definition ramping_typed (r : gmap string cell) : bool :=
  is_num r "RampingCost" && is_num r "PowerCapacity" && is_num r "StartUpCost".

(** The precondition of the division: not both [RampingCost == 0] and
    [PowerCapacity == 0]. *)
Definition ramping_defined (r : gmap string cell) : bool :=
  negb (num_is r "RampingCost" (Q2Qc 0) && num_is r "PowerCapacity" (Q2Qc 0)).

(** ** Concrete frames, to run the algorithm on *)

(** The arrays of [_mylogspace(0, 36, 20)] and [_mylogspace(0, 168, 20)],
    rounded to six decimals. *)
Definition logspace_20 (low high : Qc) (N : nat) : list Qc :=
  if negb (N =? 20)%nat then []
  else if bool_decide (high = qc 36 1) then
    map (fun z => qc z 1000000)
      [0; 209308; 462426; 768523; 1138689; 1586334; 2127675; 2782322; 3573993; 4531366;
       5689125; 7089213; 8782350; 10829874; 13305962; 16300314; 19921409; 24300427;
       29596010; 36000000]
  else if bool_decide (high = qc 168 1) then
    map (fun z => qc z 1000000)
      [0; 309957; 715989; 1247872; 1944617; 2857323; 4052929; 5619122; 7670768; 10358337;
       13878939; 18490777; 24532088; 32445950; 42812772; 56392868; 74182216; 97485505;
       128011822; 168000000]
  else [].

(** Stand-ins for the two string helpers: no character is removed, and a
    name keeps its first 64 characters. *)
Definition keep_string (s : string) : string := s.
Definition first_64 (s : string) : string := substring 0 64 s.

Definition sample_columns : list string :=
  ["Unit"; "PowerCapacity"; "PartLoadMin"; "RampUpRate"; "RampDownRate"; "StartUpTime";
   "MinUpTime"; "MinDownTime"; "NoLoadCost"; "StartUpCost"; "Efficiency"; "RampingCost";
   "Nunits"; "Zone"; "Technology"; "Fuel"; "CHPType"].

(** A gas unit; only its name, capacity, minimum part load, count and
    zone vary. *)
Definition sample_row (unit : string) (power partload nunits : Qc) (zone : string)
  : gmap string cell :=
  list_to_map
    [("Unit", Str unit); ("PowerCapacity", Num power); ("PartLoadMin", Num partload);
     ("RampUpRate", Num (qc 1 100)); ("RampDownRate", Num (qc 1 100));
     ("StartUpTime", Num (qc 5 1)); ("MinUpTime", Num (qc 5 1)); ("MinDownTime", Num (qc 5 1));
     ("NoLoadCost", Num (qc 5 1)); ("StartUpCost", Num (qc 100 1)); ("Efficiency", Num (qc 1 2));
     ("RampingCost", Num (qc 0 1)); ("Nunits", Num nunits); ("Zone", Str zone);
     ("Technology", Str "COMC"); ("Fuel", Str "GAS"); ("CHPType", NaN)].

(** A frame with the ten columns of the specification and no 'Unit'. *)
Definition frame_without_Unit : table :=
  Table spec_required_inputs
        [list_to_map (map (fun key => (key, Num (qc 1 1))) spec_required_inputs)].


(** What the correction of 'Integer clustering' needs of the row it
    touches: a count that is a number other than 0, and numbers in the
    columns that it rescales. *)
Definition rescale_ready (cols : list string) (r : gmap string cell) : bool :=
  is_num r "Nunits" && negb (num_is r "Nunits" (Q2Qc 0)) &&
  forallb (fun key => implb (in_keys key cols) (is_num r key)) rescaled_keys.

(** Three clusters of an 'Integer clustering' run before the correction. *)
Definition integer_rows : list (gmap string cell) :=
  [sample_row "A" (qc 100 1) (qc 0 1) (qc 5 2) "BE";
   sample_row "B" (qc 200 1) (qc 0 1) (qc 7 2) "NL";
   sample_row "C" (qc 50 1) (qc 0 1) (qc 9 4) "FR"].

Definition integer_front : list (gmap string cell) := take 2 integer_rows.
Definition integer_last : gmap string cell := sample_row "C" (qc 50 1) (qc 0 1) (qc 9 4) "FR".

(** The pre-expansion of 'LP clustered' seen from one row: the passes of
    [for key in capacity_keys] on that row. *)
Definition expand_step (cols : list string) (key : string) (r : gmap string cell)
  : result (gmap string cell) :=
  if in_keys key cols then expand_row key r else Ok r.

(** What the pre-expansion needs of a row: a count and capacities that
    are numbers. *)
Definition expandable (cols : list string) (r : gmap string cell) : bool :=
  is_num r "Nunits" &&
  forallb (fun key => implb (in_keys key cols) (is_num r key)) capacity_keys.

(** The example of the specification: three units of 10 MW in one row. *)
Definition three_units : table :=
  Table sample_columns [sample_row "A" (qc 10 1) (qc 0 1) (qc 3 1) "BE"].

(** Two units of one type with different capacities and minimum part
    loads, and the cluster that the first one founds. *)
Definition unit_A : gmap string cell := sample_row "A" (qc 10 1) (qc 1 20) (qc 1 1) "BE".
Definition unit_B : gmap string cell := sample_row "B" (qc 20 1) (qc 1 10) (qc 1 1) "BE".
Definition cluster_A : cluster := Cluster unit_A [0%nat] [1%nat; 0%nat; 0%nat; 9%nat; 7%nat; 7%nat; 2%nat; 4%nat; 9%nat].
Definition fingerprint_B : list nat :=
  [2%nat; 0%nat; 0%nat; 9%nat; 7%nat; 7%nat; 2%nat; 4%nat; 9%nat].

(** The row of a merge that took place, for a concrete run. *)
Definition merged_or_empty (m : result (option (gmap string cell))) : gmap string cell :=
  match m with Ok (Some r) => r | _ => ∅ end.

(** ** Frames that the algorithm is meant for *)

(** Every column that the algorithm computes with. *)
Definition numeric_keys : list string :=
  ["PowerCapacity"; "PartLoadMin"; "RampUpRate"; "RampDownRate"; "StartUpTime"; "MinUpTime";
   "MinDownTime"; "NoLoadCost"; "StartUpCost"; "Efficiency"; "MinEfficiency";
   "STOChargingEfficiency"; "CO2Intensity"; "STOSelfDischarge"; "CHPPowerToHeat";
   "CHPPowerLossFactor"; "STOCapacity"; "STOMaxChargingPower"; "InitialPower"; "RampingCost";
   "Nunits"].

Definition is_str (r : gmap string cell) (key : string) : bool :=
  match r !! key with Some (Str _) => true | _ => false end.

(** A string or a missing value. *)
Definition is_text (r : gmap string cell) (key : string) : bool :=
  match r !! key with Some (Str _) | Some NaN => true | _ => false end.

Definition is_pos (r : gmap string cell) (key : string) : bool :=
  match r !! key with Some (Num q) => bool_decide (Q2Qc 0 < q)%Qc | _ => false end.

(** An integer, as a count is. *)
Definition is_whole (r : gmap string cell) (key : string) : bool :=
  match r !! key with
  | Some (Num q) => bool_decide (q = Q2Qc (inject_Z (Qfloor q)))
  | _ => false
  end.

(** Numbers in the numeric columns that the frame has. *)
Definition numbers_in (cols : list string) (r : gmap string cell) : bool :=
  forallb (fun key => implb (in_keys key cols) (is_num r key)) numeric_keys.

(** The columns of a frame that [clustering] accepts: no name occurs
    twice, and the required and the categorical columns are there. *)
Definition usable_columns (cols : list string) : bool :=
  bool_decide (NoDup cols) &&
  forallb (fun key => in_keys key cols) (required_inputs ++ string_keys).

(** A row of such a frame: a cell in exactly the columns of the frame,
    numbers in the numeric ones, a name, and strings or missing values in
    the categorical ones. *)
Definition typed_row (cols : list string) (r : gmap string cell) : bool :=
  bool_decide (dom r = list_to_set cols) &&
  numbers_in cols r && is_str r "Unit" && forallb (is_text r) string_keys.

Definition typed_table (t : table) : bool :=
  usable_columns (columns t) && forallb (typed_row (columns t)) (rows t).

(** Capacities and counts are positive (a count, when the frame has the
    column). *)
Definition positive_row (cols : list string) (r : gmap string cell) : bool :=
  is_pos r "PowerCapacity" && implb (in_keys "Nunits" cols) (is_pos r "Nunits").

Definition positive_table (t : table) : bool :=
  forallb (positive_row (columns t)) (rows t).

(** Counts are integers. *)
Definition whole_counts (t : table) : bool :=
  forallb (fun r => implb (has_column t "Nunits") (is_whole r "Nunits")) (rows t).

(** Every array of [bounds] has an element. *)
Definition bounds_nonempty (logspace : Qc -> Qc -> nat -> list Qc) (Nslices : nat) : bool :=
  forallb (fun '(_, array) => negb (bool_decide (array = []))) (bounds logspace Nslices).

(** A row as the merging loop sees it, after the default of Nunits and
    [fillna]: numbers, strings, and the count is there. *)
Definition ready (cols : list string) (r : gmap string cell) : bool :=
  numbers_in cols r && is_str r "Unit" && forallb (is_str r) string_keys &&
  is_num r "Nunits".

Definition positive (r : gmap string cell) : bool :=
  is_pos r "PowerCapacity" && is_pos r "Nunits".

(** The methods and the flag under which no branch of the inner loop
    merges. *)
Definition never_merges (method : string) (OnlyOnes : bool) : bool :=
  negb (bool_decide (method ∈ ["Standard"; "MILP"]) && OnlyOnes) &&
  negb (String.eqb method "LP clustered") &&
  negb (String.eqb method "Integer clustering").

(** A row after the checks of lines 155-187, before [fillna]. *)
Definition pre_ready (cols : list string) (r : gmap string cell) : bool :=
  numbers_in cols r && is_str r "Unit" && forallb (is_text r) string_keys &&
  is_num r "Nunits".

(** Lines 229-230 on one row. *)
Definition fill_row (r : gmap string cell) : gmap string cell :=
  alter fillna "CHPType" (alter fillna "Fuel" (alter fillna "Technology" (alter fillna "Zone" r))).

(** The methods that [clustering] knows. *)
Definition methods : list string :=
  ["Standard"; "MILP"; "LP clustered"; "LP"; "Integer clustering"; "No clustering"].

Section Names.

Variable clean_strings : string -> string.
Variable shrink_to_64 : string -> string.

(** The name that [NewName] gives, when it gives one. *)
Definition name_of (c : cluster) : string :=
  match NewName clean_strings shrink_to_64 c with Ok name => name | Err _ => "" end.

(** The row of a cluster under its new name. *)
Definition renamed (c : cluster) : gmap string cell :=
  <["Unit" := Str (name_of c)]> (merged_row c).

(** The two entries that a cluster adds to the mapping. *)
Definition add_mapping (m : mapping) (c : cluster) : mapping :=
  Mapping (foldl (fun ni oldplant => <[oldplant := name_of c]> ni) (NewIndex m) (former c))
          (<[name_of c := former c]> (FormerIndexes m)).

End Names.

(** The names in the column 'Unit' of a frame. *)
Definition unit_names (t : table) : list (option cell) := map (fun r => r !! "Unit") (rows t).

(** The frame [plants] as lines 162-163 and 229-230 leave it.  Both write
    into the frame of the caller: the count 1 in a frame without counts,
    and the empty string for a missing category. *)
Definition plants_after (t : table) : table :=
  Table (columns (default_Nunits t)) (map fill_row (rows (default_Nunits t))).

(** The plants with their index and fingerprint, as the outer loop reads
    them. *)
Definition units_of (rs : list (gmap string cell)) (fingerprints : list (list nat))
  : list (nat * (gmap string cell * list nat)) :=
  zip (seq 0 (length rs)) (zip rs fingerprints).

(** The cluster that a plant founds. *)
Definition founded (u : nat * (gmap string cell * list nat)) : cluster :=
  Cluster u.2.1 [u.1] u.2.2.

(** A frame of three plants, two of them in one zone, with counts 1, 3
    and 1. *)
Definition mixed_counts : table :=
  Table sample_columns
        [sample_row "A" (qc 100 1) (qc 0 1) (qc 1 1) "BE";
         sample_row "B" (qc 200 1) (qc 1 1) (qc 3 1) "BE";
         sample_row "C" (qc 50 1) (qc 1 1) (qc 1 1) "NL"].

(** ** Capacities *)

(** The number in a cell, 0 for any other cell. *)
Definition cell_num (r : gmap string cell) (key : string) : Qc :=
  match r !! key with Some (Num q) => q | _ => Q2Qc 0 end.

(** The capacity of one unit of a row, and the capacity of all its
    units. *)
Definition capacity (r : gmap string cell) : Qc := cell_num r "PowerCapacity".
Definition installed (r : gmap string cell) : Qc :=
  (cell_num r "Nunits" * cell_num r "PowerCapacity")%Qc.

(** The sum of [f] over the rows. *)
Definition total (f : gmap string cell -> Qc) (rs : list (gmap string cell)) : Qc :=
  foldr (fun r acc => (f r + acc)%Qc) (Q2Qc 0) rs.

(** What lines 155-187 leave to the rest of the function, on a typed
    frame with positive capacities and counts. *)
Definition prepared (method : string) (t t' : table) (OnlyOnes : bool) : Prop :=
  usable_columns (columns t') = true /\
  "Nunits" ∈ columns t' /\
  columns t' = columns (default_Nunits t) /\
  length (rows t') = length (rows t) /\
  Forall (fun r => pre_ready (columns t') r = true /\ positive r = true) (rows t') /\
  (method = "LP clustered" -> OnlyOnes = true) /\
  (OnlyOnes = true -> Forall (fun r => r !! "Nunits" = Some (Num (Q2Qc 1))) (rows t')) /\
  Forall2 (fun r r' => installed r' = installed r /\
                       (is_whole r "Nunits" = true -> is_whole r' "Nunits" = true))
          (rows (default_Nunits t)) (rows t') /\
  (method <> "LP clustered" \/ all_ones (default_Nunits t) = true -> t' = default_Nunits t).

(** Two plants of one type that the threshold test keeps apart: their
    minimum part loads fall in different slices, neither is flexible, and
    both are larger than [Pmax]. *)
Definition two_heavy : table :=
  Table sample_columns
        [sample_row "A" (qc 100 1) (qc 0 1) (qc 1 1) "BE";
         sample_row "B" (qc 200 1) (qc 1 1) (qc 1 1) "BE"].
(** Their rows as the merging loop reads them. *)
Definition heavy_A : gmap string cell :=
  fill_row (sample_row "A" (qc 100 1) (qc 0 1) (qc 1 1) "BE").
Definition heavy_B : gmap string cell :=
  fill_row (sample_row "B" (qc 200 1) (qc 1 1) (qc 1 1) "BE").
Definition fingerprint_heavy_A : list nat :=
  [0%nat; 0%nat; 0%nat; 9%nat; 7%nat; 7%nat; 2%nat; 4%nat; 9%nat].
Definition fingerprint_heavy_B : list nat :=
  [19%nat; 0%nat; 0%nat; 9%nat; 7%nat; 7%nat; 2%nat; 4%nat; 9%nat].

(** Three plants with one unit each; the second is small. *)
Definition single_units : table :=
  Table sample_columns
        [sample_row "A" (qc 100 1) (qc 0 1) (qc 1 1) "BE";
         sample_row "B" (qc 20 1) (qc 1 1) (qc 1 1) "BE";
         sample_row "C" (qc 50 1) (qc 1 1) (qc 1 1) "NL"].

(** Whether a pass of the inner loop merged. *)
Definition merges (m : result (option (gmap string cell))) : bool :=
  match m with Ok (Some _) => true | _ => false end.

(** The clusters [cs] account for the plants [rs] that the outer loop has
    read: they are ready and positive, they carry the installed capacity
    of the plants, and, unless the method is 'Integer clustering', their
    capacity; their counts are 1 when [OnlyOnes] is set, and integers under
    'Integer clustering'. *)
Definition accounted (method : string) (OnlyOnes : bool) (cols : list string)
    (rs : list (gmap string cell)) (cs : list cluster) : Prop :=
  Forall (fun c => ready cols (merged_row c) = true /\ positive (merged_row c) = true) cs /\
  total installed (map merged_row cs) = total installed rs /\
  (method <> "Integer clustering" ->
     total capacity (map merged_row cs) = total capacity rs) /\
  (method <> "Integer clustering" -> OnlyOnes = true ->
     Forall (fun c => merged_row c !! "Nunits" = Some (Num (Q2Qc 1))) cs) /\
  (method = "Integer clustering" ->
     Forall (fun c => is_whole (merged_row c) "Nunits" = true) cs).

(** A plant that the outer loop can read. *)
Definition readable (method : string) (OnlyOnes : bool) (cols : list string)
    (r : gmap string cell) : Prop :=
  ready cols r = true /\ positive r = true /\
  (OnlyOnes = true -> r !! "Nunits" = Some (Num (Q2Qc 1))) /\
  (method = "Integer clustering" -> is_whole r "Nunits" = true).

(** Two plants of one type, of 10 MW and 20 MW, one unit each. *)
Definition two_sizes : table :=
  Table sample_columns
        [sample_row "A" (qc 10 1) (qc 0 1) (qc 1 1) "BE";
         sample_row "B" (qc 20 1) (qc 0 1) (qc 1 1) "BE"].

(** ** The new names, and the frame as the call leaves it *)

(** Modelled from the spec: [clean_strings] and [shrink_to_64] are in
    [DispaSET/misc/str_handler.py], which is not among the sources.  The
    specification says of them that they give "a sanitized, length-bounded
    unique name per resulting cluster".  The clusters of a frame of [n]
    plants have disjoint lists of members, so the names of two clusters
    are written from two lists that begin with different indices below
    [n]: such names stay apart. *)
Definition names_stay_apart (clean_strings shrink_to_64 : string -> string) (n : nat) : Prop :=
  forall i1 i2 l1 l2 t1 t2, (i1 < n)%nat -> (i2 < n)%nat -> i1 <> i2 ->
    sanitize clean_strings shrink_to_64 (str_list (i1 :: l1) +:+ t1)
    <> sanitize clean_strings shrink_to_64 (str_list (i2 :: l2) +:+ t2).

(** A row of the frame [t] as lines 162-163 and 229-230 leave it: with
    the count 1 when the frame has no counts, and with the empty string
    for a missing category. *)
Definition row_after (t : table) (r : gmap string cell) : gmap string cell :=
  fill_row (if has_column t "Nunits" then r else <["Nunits" := Num (Q2Qc 1)]> r).

(** The frame that a run returned, the empty frame when it returned
    none. *)
Definition returned (run : list message * result (table * mapping)) : table :=
  match run.2 with Ok (out, _) => out | Err _ => Table [] [] end.

(** The cell [key] of the row [i] of a frame. *)
Definition cell_at (t : table) (i : nat) (key : string) : option cell :=
  rows t !! i ≫= (fun r => r !! key).

(** * Further predicates and examples for [clustering] *)

(** A frame with every required column and one plant. *)
Definition one_plant : table :=
  Table sample_columns [sample_row "A" (qc 100 1) (qc 0 1) (qc 1 1) "BE"].

(** A frame without the columns 'RampUpRate' and 'Efficiency'. *)
Definition frame_without_two : table :=
  Table ["Unit"; "PowerCapacity"; "PartLoadMin"; "RampDownRate"; "StartUpTime";
         "MinUpTime"; "MinDownTime"; "NoLoadCost"; "StartUpCost"] [].

(** Whether every array of [bounds] has [Nslices] elements. *)
Definition bounds_sized (logspace : Qc -> Qc -> nat -> list Qc) (Nslices : nat) : bool :=
  forallb (fun '(_, array) => (length array =? Nslices)%nat) (bounds logspace Nslices).

(** The columns that a merge writes, by method. *)
Definition written_keys (method : string) : list string :=
  if bool_decide (method ∈ ["Standard"; "MILP"]) then
    average_keys_Standard ++ capacity_keys ++ minimum_keys ++ ["RampingCost"; "Nunits"]
  else if String.eqb method "LP clustered" then
    average_keys_LP ++ capacity_keys ++ minimum_keys ++ ["RampingCost"; "Nunits"]
  else average_keys_Integer ++ ["Nunits"].

(** The example of the specification: 10 MW with a no-load cost of 5 and
    20 MW with a no-load cost of 7. *)
Definition plant_10 : gmap string cell :=
  <["NoLoadCost" := Num (qc 5 1)]> (fill_row (sample_row "A" (qc 10 1) (qc 0 1) (qc 1 1) "BE")).
Definition plant_20 : gmap string cell :=
  <["NoLoadCost" := Num (qc 7 1)]> (fill_row (sample_row "B" (qc 20 1) (qc 0 1) (qc 1 1) "BE")).
Definition fingerprint_10 : list nat :=
  [0%nat; 0%nat; 0%nat; 9%nat; 7%nat; 7%nat; 2%nat; 4%nat; 9%nat].
Definition fingerprint_20 : list nat :=
  [0%nat; 0%nat; 0%nat; 9%nat; 7%nat; 7%nat; 3%nat; 4%nat; 9%nat].
Definition cluster_10 : cluster := Cluster plant_10 [0%nat] fingerprint_10.

(** The clusters of a pass of the outer loop that had a result. *)
Definition clusters_or_nil (m : result (list cluster)) : list cluster :=
  match m with Ok cs => cs | Err _ => [] end.

(** A cluster in another zone, then the cluster of [plant_10]. *)
Definition plant_NL : gmap string cell :=
  fill_row (sample_row "C" (qc 50 1) (qc 1 1) (qc 1 1) "NL").
Definition two_clusters : list cluster :=
  [Cluster plant_NL [0%nat] fingerprint_heavy_B; Cluster plant_10 [1%nat] fingerprint_10].

(** The last character of a string. *)
Fixpoint last_char (s : string) : option ascii :=
  match s with
  | EmptyString => None
  | String a EmptyString => Some a
  | String _ s' => last_char s'
  end.

(** Whether a name ends with white space. *)
Definition ends_with_space (s : string) : bool :=
  match last_char s with Some a => is_space a | None => false end.

(** The lists ascend, every index in them is below [bound], and no list
    is empty. *)
Definition ascending_below (bound : nat) (cs : list cluster) : Prop :=
  Forall (fun c => StronglySorted lt (former c) /\
                   Forall (fun x => (x < bound)%nat) (former c) /\
                   former c <> []) cs.

(** Every member of a cluster has the categories of the cluster, a
    missing category counting as the empty string. *)
Definition of_one_type (rs : list (gmap string cell)) (cs : list cluster) : Prop :=
  Forall (fun c => forall i, i ∈ former c ->
            exists r, rs !! i = Some r /\
              forall key, key ∈ string_keys ->
                fillna <$> merged_row c !! key = fillna <$> r !! key) cs.

(** The number of units of a row. *)
Definition count (r : gmap string cell) : Qc := cell_num r "Nunits".

(** Two rows of one type with two and three units. *)
Definition two_fleets : table :=
  Table sample_columns
        [sample_row "A" (qc 10 1) (qc 0 1) (qc 2 1) "BE";
         sample_row "B" (qc 20 1) (qc 0 1) (qc 3 1) "BE"].

(** * [incidence_matrix] (lines 18-44) *)

(** [s[a:b]] on a string, for [a <= b]. *)
Definition slice (a b : nat) (s : string) : string := substring a (b - a) s.

(** [sub in s] on strings. *)
Fixpoint contains (sub s : string) : bool :=
  String.prefix sub s ||
  match s with
  | EmptyString => false
  | String _ s' => contains sub s'
  end.

(** The array [parameters[param_used]['val']]: rows of entries.  Writing
    outside of it raises IndexError, which [error] does not have. *)
Abbreviation matrix := (list (list Z)).

Inductive stop : Type :=
| Raised (e : error)
| IndexError.

Inductive notice : Type :=
| InvalidInterconnection.   (* 'The format of the interconnection is not valid.' *)

(** A run: what it logged, and how it ended. *)
Definition run (A : Type) : Type := list notice * (stop + A).

Definition ret {A} (a : A) : run A := ([], inr a).
Definition raise {A} (e : stop) : run A := ([], inl e).

Definition and_then {A B} (m : run A) (k : A -> run B) : run B :=
  match m with
  | (log, inl e) => (log, inl e)
  | (log, inr a) => let '(log', r) := k a in (log ++ log', r)
  end.

(** [for x in l: s = body(x, s)]. *)
Fixpoint for_each {A S} (body : A -> S -> run S) (l : list A) (s : S) : run S :=
  match l with
  | [] => ret s
  | x :: l' => and_then (body x s) (for_each body l')
  end.

(** [for i in range(len(l))], with [l[i]]. *)
Definition enumerate {A} (l : list A) : list (nat * A) := zip (seq 0 (length l)) l.

(** Lines 25-36: the two ends of a line, or nothing when the name has
    'RoW' in another place than the two that are read. *)
Definition countries (line : string) : option (string * string) :=
  if negb (contains "RoW" line) then Some (slice 0 2 line, slice 6 8 line)
  else if String.eqb "RoW" (slice 0 3 line) then Some (slice 0 3 line, slice 7 9 line)
  else if String.eqb "RoW" (slice 6 9 line) then Some (slice 0 2 line, slice 6 9 line)
  else None.

(** [parameters[param_used]['val'][i, j] = v]. *)
Definition assign (param_used : string) (i j : nat) (v : Z)
    (parameters : gmap string matrix) : run (gmap string matrix) :=
  match parameters !! param_used with
  | None => raise (Raised (KeyError param_used))
  | Some M =>
      match M !! i with
      | Some row =>
          if decide (j < length row)%nat
          then ret (<[param_used := <[i := <[j := v]> row]> M]> parameters)
          else raise IndexError
      | None => raise IndexError
      end
  end.

(** The body of [for j in range(len(sets['n']))] (lines 39-42). *)
Definition node_step (first_country second_country param_used : string) (i : nat)
    (jn : nat * string) (parameters : gmap string matrix) : run (gmap string matrix) :=
  let '(j, node) := jn in
  if String.eqb first_country node then assign param_used i j (-1) parameters
  else if String.eqb second_country node then assign param_used i j 1 parameters
  else ret parameters.

(** The body of [for i in range(len(sets[set_used]))] (lines 25-42). *)
Definition line_step (sets : gmap string (list string)) (param_used : string)
    (il : nat * string) (parameters : gmap string matrix) : run (gmap string matrix) :=
  let '(i, line) := il in
  match countries line with
  | None => ([InvalidInterconnection], inl (Raised (SysExit 1)))
  | Some (first_country, second_country) =>
      match sets !! "n" with
      | None => raise (Raised (KeyError "n"))
      | Some nodes =>
          for_each (node_step first_country second_country param_used i)
                   (enumerate nodes) parameters
      end
  end.

Definition incidence_matrix (sets : gmap string (list string)) (set_used : string)
    (parameters : gmap string matrix) (param_used : string) : run matrix :=
  match sets !! set_used with
  | None => raise (Raised (KeyError set_used))
  | Some lines =>
      and_then (for_each (line_step sets param_used) (enumerate lines) parameters)
        (fun parameters =>
           match parameters !! param_used with
           | None => raise (Raised (KeyError param_used))
           | Some M => ret M
           end)
  end.

(** What lines 39-42 leave in an entry of the row of a line, for the
    node of its column. *)
Definition entry (line node : string) (old : Z) : Z :=
  match countries line with
  | Some (first_country, second_country) =>
      if String.eqb first_country node then -1
      else if String.eqb second_country node then 1
      else old
  | None => old
  end.

(** The array has a row for every line, with a column for every node. *)
Definition fits (lines nodes : list string) (M : matrix) : bool :=
  bool_decide (length lines <= length M)%nat &&
  forallb (fun row => bool_decide (length nodes <= length row)%nat) (take (length lines) M).

Definition well_named (line : string) : bool :=
  match countries line with Some _ => true | None => false end.

(** Three lines between Belgium, France and the rest of the world, with
    an array of zeros. *)
Definition sample_sets : gmap string (list string) :=
  <["l" := ["BE -> FR"; "FR -> RoW"; "RoW -> BE"]]> (<["n" := ["BE"; "FR"]]> ∅).
Definition sample_parameters : gmap string matrix :=
  <["LineNode" := [[0; 0]; [0; 0]; [0; 0]]]> ∅.
Definition misnamed_sets : gmap string (list string) :=
  <["l" := ["BE -> FR"; "BE->RoW"]]> (<["n" := ["BE"; "FR"]]> ∅).

(** * [interconnections]: the connections it reads (lines 76-90)

    The rest of the function works on the values of two pandas frames;
    this part only reads the names of their columns. *)

(** [s.split(sep)] for a separator that is not empty: the pieces between
    the occurrences of [sep], found from the left.  [skip] counts the
    characters of an occurrence that are still to pass. *)
Fixpoint split_go (sep : string) (skip : nat) (piece : string) (s : string) : list string :=
  match s with
  | EmptyString => [piece]
  | String c s' =>
      match skip with
      | S k => split_go sep k piece s'
      | O =>
          if String.prefix sep s
          then piece :: split_go sep (String.length sep - 1) "" s'
          else split_go sep 0 (piece +:+ String c "") s'
      end
  end.

Definition split (sep s : string) : list string := split_go sep 0 "" s.

(** Line 79: the columns of the historical flows, then the columns of
    the NTCs that are not among them. *)
Definition ConList (Historical_flows NTC_inter : list string) : list string :=
  Historical_flows ++
  List.filter (fun x => negb (bool_decide (x ∈ Historical_flows))) NTC_inter.

Inductive naming_warning : Type :=
| NotProperlyNamed (connection : string).

(** What the loop of line 80 holds: the warnings, [all_connections] and
    [simulation_connections]. *)
Record connections : Type := Connections {
  warnings : list naming_warning;
  all_connections : list string;
  simulation_connections : list string
}.

(** The body of [for connection in ConList] (lines 81-90). *)
Definition read_connection (Simulation_list : list string) (st : connections)
    (connection : string) : connections :=
  match split " -> " connection with
  | [c0; c1] =>
      if bool_decide (c0 ∈ Simulation_list) then
        Connections (warnings st) (all_connections st ++ [connection])
                    (if bool_decide (c1 ∈ Simulation_list)
                     then simulation_connections st ++ [connection]
                     else simulation_connections st)
      else if bool_decide (c1 ∈ Simulation_list) then
        Connections (warnings st) (all_connections st ++ [connection])
                    (simulation_connections st)
      else st
  | _ => Connections (warnings st ++ [NotProperlyNamed connection])
                     (all_connections st) (simulation_connections st)
  end.

Definition read_connections (Simulation_list Historical_flows NTC_inter : list string)
  : connections :=
  foldl (read_connection Simulation_list) (Connections [] [] [])
        (ConList Historical_flows NTC_inter).

(** A connection between two zones, as its name gives them. *)
Definition joins (connection c0 c1 : string) : Prop := split " -> " connection = [c0; c1].
(** * Properties *)

(** ** The result monad *)

Lemma bind_Ok {A B} (m : result A) (k : A -> result B) a : m = Ok a -> bind m k = k a.
Proof. by intros ->. Qed.

Lemma bind_Ok_inv {A B} (m : result A) (k : A -> result B) b :
  bind m k = Ok b -> exists a, m = Ok a /\ k a = Ok b.
Proof. destruct m as [a|e]; [|discriminate]. intros H. by exists a. Qed.

Lemma is_num_getn r key :
  is_num r key = true -> exists q, r !! key = Some (Num q) /\ getn r key = Ok q.
Proof.
  unfold is_num, getn. destruct (r !! key) as [[q| |]|]; try discriminate.
  intros _. by exists q.
Qed.

Lemma getn_Ok r key q : getn r key = Ok q <-> r !! key = Some (Num q).
Proof.
  unfold getn. destruct (r !! key) as [[q'| |]|]; split; intros H; try discriminate.
  - by injection H as ->.
  - by injection H as ->.
Qed.

Lemma div_Ok a b : b <> Q2Qc 0 -> div a b = Ok (a / b)%Qc.
Proof. intros H. unfold div. by destruct (decide (b = Q2Qc 0)). Qed.

Lemma div_zero a : div a (Q2Qc 0) = Err DivisionByZero.
Proof. unfold div. by destruct (decide (Q2Qc 0 = Q2Qc 0)). Qed.

Lemma div_Ok_inv a b v : div a b = Ok v -> b <> Q2Qc 0 /\ v = (a / b)%Qc.
Proof.
  unfold div. destruct (decide (b = Q2Qc 0)); [discriminate|].
  intros H. by injection H as <-.
Qed.

(** ** The required columns *)

Section Properties.

Variable _mylogspace : Qc -> Qc -> nat -> list Qc.
Variable clean_strings : string -> string.
Variable shrink_to_64 : string -> string.

(** C9: a frame that has the ten columns the specification requires but
    no 'Unit' column makes [clustering] log an error and leave through
    [sys.exit(1)], whatever the method: 'Unit' is the first of the eleven
    columns that the code requires. *)
Theorem missing_Unit_is_fatal plants method Nslices PartLoadMax Pmax :
  forallb (has_column plants) spec_required_inputs = true ->
  has_column plants "Unit" = false ->
  clustering _mylogspace clean_strings shrink_to_64 plants method Nslices PartLoadMax Pmax
  = ([MissingColumn "Unit"], Err (SysExit 1)).
Proof.
  intros _ HU. unfold clustering, prepare, missing_input, required_inputs.
  cbn [List.find]. rewrite HU. reflexivity.
Qed.

End Properties.

Lemma missing_Unit_is_fatal_witness :
  clustering logspace_20 keep_string first_64 frame_without_Unit "Standard"
             default_Nslices default_PartLoadMax default_Pmax
  = ([MissingColumn "Unit"], Err (SysExit 1)).
Proof. apply missing_Unit_is_fatal; vm_compute; reflexivity. Defined.

(** ** The ramping cost of 'LP clustered' *)

Lemma ramping_from_startup_spec r :
  ramping_typed r = true ->
  ramping_from_startup r =
    if ramping_defined r then Ok (ramping_row r) else Err DivisionByZero.
Proof.
  unfold ramping_typed, ramping_defined, ramping_from_startup, ramping_row, is_num, num_is, getn.
  destruct (r !! "RampingCost") as [[rc| |]|]; try discriminate.
  destruct (r !! "PowerCapacity") as [[p| |]|]; try discriminate.
  destruct (r !! "StartUpCost") as [[s| |]|]; try discriminate.
  intros _. cbn [bind].
  destruct (decide (rc = Q2Qc 0)) as [->|Hrc].
  - rewrite !bool_decide_eq_true_2 by done. cbn.
    destruct (decide (p = Q2Qc 0)) as [->|Hp].
    + rewrite bool_decide_eq_true_2 by done. cbn. by rewrite div_zero.
    + rewrite bool_decide_eq_false_2 by congruence. cbn. by rewrite div_Ok.
  - rewrite !bool_decide_eq_false_2 by congruence. reflexivity.
Qed.

Lemma mapM_ramping rs :
  forallb ramping_typed rs = true ->
  mapM ramping_from_startup rs =
    if forallb ramping_defined rs then Ok (map ramping_row rs) else Err DivisionByZero.
Proof.
  induction rs as [|r rs IH]; [done|].
  cbn [forallb mapM map]. intros [Hr Hrs]%andb_prop.
  rewrite ramping_from_startup_spec by done.
  destruct (ramping_defined r); [|done]. cbn [bind andb].
  rewrite IH by done. by destruct (forallb ramping_defined rs).
Qed.



(** ** Loops that update one cell per key

    [for key in keys: r[key] = ...]: a pass writes at most the cell of its
    own key, and reads it together with cells that no pass writes. *)

Section KeywiseFold.

Variable step : string -> gmap string cell -> result (gmap string cell).
Variable ks0 : list string.
Variable stable : string -> Prop.

Hypothesis step_frame :
  forall key r r', key ∈ ks0 -> step key r = Ok r' ->
    forall k, k <> key -> r' !! k = r !! k.
Hypothesis step_stable :
  forall key r r', key ∈ ks0 -> step key r = Ok r' ->
    forall k, stable k -> r' !! k = r !! k.

Lemma foldM_frame ks r r' :
  ks ⊆ ks0 -> foldM step ks r = Ok r' -> forall k, k ∉ ks -> r' !! k = r !! k.
Proof using step_frame.
  clear step_stable stable.
  revert r. induction ks as [|key ks IH]; intros r Hsub H k Hk.
  - cbn in H. by injection H as ->.
  - cbn [foldM] in H. apply bind_Ok_inv in H as (r1 & H1 & H2).
    apply not_elem_of_cons in Hk as [Hne Hk].
    rewrite (IH r1) by (try done; set_solver).
    apply (step_frame key r r1); [set_solver|done|done].
Qed.

Lemma foldM_stable ks r r' :
  ks ⊆ ks0 -> foldM step ks r = Ok r' -> forall k, stable k -> r' !! k = r !! k.
Proof using step_stable.
  clear step_frame.
  revert r. induction ks as [|key ks IH]; intros r Hsub H k Hk.
  - cbn in H. by injection H as ->.
  - cbn [foldM] in H. apply bind_Ok_inv in H as (r1 & H1 & H2).
    rewrite (IH r1) by (try done; set_solver).
    apply (step_stable key r r1); [set_solver|done|done].
Qed.

(** The pass of key [k] ran on a row that still had the cell [k] and the
    stable cells of the row the loop started from, and nothing wrote the
    cell [k] after it. *)
Lemma foldM_at ks r r' k :
  ks ⊆ ks0 -> NoDup ks -> k ∈ ks -> foldM step ks r = Ok r' ->
  exists r0 r1, step k r0 = Ok r1 /\ r0 !! k = r !! k /\
                (forall s, stable s -> r0 !! s = r !! s) /\ r' !! k = r1 !! k.
Proof using step_frame step_stable.
  revert r. induction ks as [|key ks IH]; intros r Hsub Hnd Hk H.
  - by apply elem_of_nil in Hk.
  - cbn [foldM] in H. apply bind_Ok_inv in H as (r1 & H1 & H2).
    apply NoDup_cons in Hnd as [Hnotin Hnd].
    apply elem_of_cons in Hk as [->|Hk].
    + exists r, r1. repeat split; try done.
      apply (foldM_frame ks r1 r'); [set_solver|done|done].
    + destruct (IH r1) as (r0 & r2 & Hs & Hk0 & Hst & Hr'); try done; [set_solver|].
      exists r0, r2. repeat split; try done.
      * rewrite Hk0. apply (step_frame key r r1); [set_solver|done|].
        intros ->. done.
      * intros s Hs'. rewrite Hst by done.
        apply (step_stable key r r1); [set_solver|done|done].
Qed.

(** The loop has a result when every pass has one and keeps what the
    passes need. *)
Lemma foldM_total (T : gmap string cell -> Prop) ks r :
  (forall key r, key ∈ ks -> T r -> exists r', step key r = Ok r' /\ T r') ->
  T r -> exists r', foldM step ks r = Ok r' /\ T r'.
Proof using Type.
  clear step_frame step_stable stable ks0.
  revert r. induction ks as [|key ks IH]; intros r Hstep HT.
  - by exists r.
  - destruct (Hstep key r) as (r1 & H1 & HT1); [set_solver|done|].
    destruct (IH r1) as (r' & H' & HT'); [intros; apply Hstep; set_solver|done|].
    exists r'. cbn [foldM]. by rewrite H1.
Qed.

End KeywiseFold.

(** ** The correction of 'Integer clustering' *)

Lemma mapM_app {A B} (f : A -> result B) l1 l2 :
  mapM f (l1 ++ l2) =
  (let* a := mapM f l1 in let* b := mapM f l2 in Ok (a ++ b)).
Proof.
  induction l1 as [|x l1 IH]; cbn [mapM app].
  - cbn [bind]. destruct (mapM f l2); reflexivity.
  - destruct (f x) as [y|e]; cbn [bind]; [|done].
    rewrite IH. destruct (mapM f l1) as [ys|e]; cbn [bind]; [|done].
    destruct (mapM f l2); reflexivity.
Qed.

Lemma mapM_Ok_map {A B} (f : A -> result B) (g : A -> B) l :
  (forall x, x ∈ l -> f x = Ok (g x)) -> mapM f l = Ok (map g l).
Proof.
  induction l as [|x l IH]; intros H; [done|].
  cbn [mapM map]. rewrite H by set_solver. cbn [bind].
  rewrite IH by (intros; apply H; set_solver). reflexivity.
Qed.

Lemma mapM_length {A B} (f : A -> result B) l l' :
  mapM f l = Ok l' -> length l' = length l.
Proof.
  revert l'. induction l as [|x l IH]; intros l' H.
  - by injection H as <-.
  - cbn [mapM] in H. apply bind_Ok_inv in H as (y & _ & H).
    apply bind_Ok_inv in H as (ys & Hys & H). injection H as <-.
    cbn. by rewrite (IH ys).
Qed.

Lemma rescaled_keys_NoDup : NoDup rescaled_keys.
Proof. apply (bool_decide_eq_true_1 _). reflexivity. Qed.

Lemma Nunits_not_rescaled : "Nunits" ∉ rescaled_keys.
Proof. apply (bool_decide_eq_true_1 _). reflexivity. Qed.

Lemma rescale_key_frame cols N key r r' :
  rescale_key cols N key r = Ok r' -> forall k, k <> key -> r' !! k = r !! k.
Proof.
  unfold rescale_key. intros H k Hk. destruct (in_keys key cols).
  - apply bind_Ok_inv in H as (a & _ & H). apply bind_Ok_inv in H as (nu & _ & H).
    apply bind_Ok_inv in H as (v & _ & H). injection H as <-.
    by rewrite lookup_insert_ne.
  - by injection H as ->.
Qed.

Lemma rescale_key_at cols N key r r' a nu :
  rescale_key cols N key r = Ok r' -> in_keys key cols = true ->
  r !! key = Some (Num a) -> r !! "Nunits" = Some (Num nu) ->
  r' !! key = Some (Num (a * N / nu)%Qc).
Proof.
  unfold rescale_key. intros H Hin Ha Hnu. rewrite Hin in H.
  apply getn_Ok in Ha, Hnu. rewrite Ha, Hnu in H. cbn [bind] in H.
  apply bind_Ok_inv in H as (v & Hv & H). injection H as <-.
  apply div_Ok_inv in Hv as [_ ->]. by rewrite lookup_insert_eq.
Qed.

(** The correction of line 353-358 on a frame whose last row is [r]. *)
Lemma round_Nunits_last cols front r nu :
  forallb (fun r0 => is_num r0 "Nunits") front = true ->
  rescale_ready cols r = true ->
  r !! "Nunits" = Some (Num nu) ->
  exists r',
    round_Nunits cols (front ++ [r]) = Ok (front ++ [r']) /\
    r' !! "Nunits" = Some (Num (np_round nu)) /\
    (forall key a, key ∈ rescaled_keys -> key ∈ cols -> r !! key = Some (Num a) ->
       r' !! key = Some (Num (a * np_round nu / nu)%Qc)) /\
    (forall key, key <> "Nunits" -> ~ (key ∈ rescaled_keys /\ key ∈ cols) ->
       r' !! key = r !! key).
Proof.
  intros Hfront Hready Hnu.
  unfold rescale_ready in Hready.
  apply andb_prop in Hready as [[_ Hnz]%andb_prop Hkeys].
  assert (nu <> Q2Qc 0) as Hnu0.
  { intros ->. unfold num_is in Hnz. by rewrite bool_decide_eq_true_2 in Hnz. }
  rewrite forallb_forall in Hkeys.
  set (N := np_round nu).
  set (T := fun r0 : gmap string cell =>
              r0 !! "Nunits" = Some (Num nu) /\
              forall key, key ∈ rescaled_keys -> in_keys key cols = true -> is_num r0 key = true).
  destruct (foldM_total (rescale_key cols N) T rescaled_keys r) as (r1 & Hfold & HT1).
  { intros key r0 Hkey [HN Hty]. unfold rescale_key.
    destruct (in_keys key cols) eqn:Hin; [|by exists r0].
    destruct (is_num_getn r0 key) as (a & Ha & ->); [by apply Hty|].
    apply getn_Ok in HN as HN'. rewrite HN'. cbn [bind]. rewrite div_Ok by done. cbn [bind].
    eexists; split; [done|]. split.
    - rewrite lookup_insert_ne; [done|]. intros ->. by apply Nunits_not_rescaled.
    - intros k Hk Hkin. unfold is_num. destruct (decide (k = key)) as [->|Hne].
      + by rewrite lookup_insert_eq.
      + rewrite lookup_insert_ne by done. by apply Hty. }
  { split; [done|]. intros key Hkey Hin. specialize (Hkeys key).
    rewrite Hin in Hkeys. apply Hkeys. by apply list_elem_of_In. }
  exists (<["Nunits" := Num N]> r1).
  assert (forall key r0 r0', key ∈ rescaled_keys -> rescale_key cols N key r0 = Ok r0' ->
            forall k, k = "Nunits" -> r0' !! k = r0 !! k) as Hstable.
  { intros key r0 r0' Hkey H k ->. apply (rescale_key_frame cols N key r0 r0' H).
    intros <-. by apply Nunits_not_rescaled. }
  split; [|split; [|split]].
  - unfold round_Nunits.
    rewrite mapM_app. cbn [mapM].
    rewrite (mapM_Ok_map _ (fun r0 => match r0 !! "Nunits" with
                                      | Some (Num n) => np_round n | _ => Q2Qc 0 end)).
    2:{ intros r0 Hr0. rewrite forallb_forall in Hfront.
        destruct (is_num_getn r0 "Nunits") as (n & Hn & ->).
        { apply Hfront. by apply list_elem_of_In. }
        cbn [bind]. by rewrite Hn. }
    apply getn_Ok in Hnu as ->. cbn [bind].
    rewrite !last_snoc. fold N. rewrite Hfold. cbn [bind].
    by rewrite removelast_last.
  - by rewrite lookup_insert_eq.
  - intros key a Hkey Hcols Ha.
    assert (key <> "Nunits") as Hne by (intros ->; by apply Nunits_not_rescaled).
    rewrite lookup_insert_ne by done.
    destruct (foldM_at (rescale_key cols N) rescaled_keys (fun k => k = "Nunits")
                (fun key r r' _ => rescale_key_frame cols N key r r') Hstable
                rescaled_keys r r1 key) as (r0 & r2 & Hs & Hk0 & Hst & ->);
      [done|apply rescaled_keys_NoDup|done|done|].
    apply (rescale_key_at cols N key r0 r2 a nu Hs).
    + by apply bool_decide_eq_true_2.
    + by rewrite Hk0.
    + by rewrite Hst.
  - intros key Hne Hnot. rewrite lookup_insert_ne by done.
    destruct (decide (key ∈ rescaled_keys)) as [Hin|Hnin].
    + destruct (foldM_at (rescale_key cols N) rescaled_keys (fun k => k = "Nunits")
                (fun key r r' _ => rescale_key_frame cols N key r r') Hstable
                rescaled_keys r r1 key) as (r0 & r2 & Hs & Hk0 & Hst & ->);
        [done|apply rescaled_keys_NoDup|done|done|].
      unfold rescale_key in Hs. rewrite <- Hk0.
      assert (in_keys key cols = false) as Hf.
      { apply bool_decide_eq_false_2. intros Hc. by apply Hnot. }
      rewrite Hf in Hs. by injection Hs as ->.
    + apply (foldM_frame (rescale_key cols N) rescaled_keys
               (fun key r r' _ => rescale_key_frame cols N key r r') rescaled_keys r r1);
        done.
Qed.

(** C4: under 'Integer clustering' the rounding of Nunits and the
    rescaling of PowerCapacity, STOCapacity, STOMaxChargingPower,
    InitialPower and NoLoadCost by (rounded Nunits / Nunits) reach the last
    merged row only.  The rows before it come out as they went in; the
    last one gets the rounded count, the rescaled cells in the columns the
    frame has, and keeps every other cell. *)
Theorem rounding_reaches_last_row_only cols front r nu :
  forallb (fun r0 => is_num r0 "Nunits") front = true ->
  rescale_ready cols r = true ->
  r !! "Nunits" = Some (Num nu) ->
  exists r',
    post_process "Integer clustering" cols (front ++ [r]) = Ok (front ++ [r']) /\
    r' !! "Nunits" = Some (Num (np_round nu)) /\
    (forall key a, key ∈ rescaled_keys -> key ∈ cols -> r !! key = Some (Num a) ->
       r' !! key = Some (Num (a * np_round nu / nu)%Qc)) /\
    (forall key, key <> "Nunits" -> ~ (key ∈ rescaled_keys /\ key ∈ cols) ->
       r' !! key = r !! key).
Proof.
  intros Hfront Hready Hnu.
  destruct (round_Nunits_last cols front r nu Hfront Hready Hnu) as (r' & Hrun & Hrest).
  exists r'. split; [|exact Hrest].
  unfold post_process. cbn [String.eqb Ascii.eqb Bool.eqb]. exact Hrun.
Qed.

Lemma rounding_reaches_last_row_only_witness :
  exists r',
    post_process "Integer clustering" sample_columns (integer_front ++ [integer_last])
      = Ok (integer_front ++ [r']) /\
    r' !! "Nunits" = Some (Num (np_round (qc 9 4))) /\
    (forall key a, key ∈ rescaled_keys -> key ∈ sample_columns ->
       integer_last !! key = Some (Num a) ->
       r' !! key = Some (Num (a * np_round (qc 9 4) / qc 9 4)%Qc)) /\
    (forall key, key <> "Nunits" -> ~ (key ∈ rescaled_keys /\ key ∈ sample_columns) ->
       r' !! key = integer_last !! key).
Proof.
  apply (rounding_reaches_last_row_only sample_columns integer_front integer_last (qc 9 4));
    vm_compute; reflexivity.
Defined.

(** ** The pre-expansion of 'LP clustered' *)

Lemma mapM_bind_Ok {A B C} (f : A -> result B) (g : B -> result C) l l1 l' :
  mapM f l = Ok l1 -> mapM g l1 = Ok l' ->
  mapM (fun x => let* y := f x in g y) l = Ok l'.
Proof.
  revert l1 l'. induction l as [|x l IH]; intros l1 l' H1 H2.
  - injection H1 as <-. by injection H2 as <-.
  - cbn [mapM] in H1 |- *. apply bind_Ok_inv in H1 as (y & Hy & H1).
    apply bind_Ok_inv in H1 as (ys & Hys & H1). injection H1 as <-.
    cbn [mapM] in H2. apply bind_Ok_inv in H2 as (z & Hz & H2).
    apply bind_Ok_inv in H2 as (zs & Hzs & H2). injection H2 as <-.
    rewrite Hy. cbn [bind]. rewrite Hz. cbn [bind].
    by rewrite (IH ys zs).
Qed.

Lemma mapM_bind_Ok_inv {A B C} (f : A -> result B) (g : B -> result C) l l' :
  mapM (fun x => let* y := f x in g y) l = Ok l' ->
  exists l1, mapM f l = Ok l1 /\ mapM g l1 = Ok l'.
Proof.
  revert l'. induction l as [|x l IH]; intros l' H.
  - injection H as <-. by exists [].
  - cbn [mapM] in H. apply bind_Ok_inv in H as (z & Hz & H).
    apply bind_Ok_inv in Hz as (y & Hy & Hz).
    apply bind_Ok_inv in H as (zs & Hzs & H). injection H as <-.
    destruct (IH zs Hzs) as (ys & Hys & Hg).
    exists (y :: ys). cbn [mapM]. rewrite Hy, Hys. cbn [bind].
    by rewrite Hz, Hg.
Qed.

Lemma mapM_Ok_id {A} (l : list A) : mapM Ok l = Ok l.
Proof. induction l as [|x l IH]; [done|]. cbn [mapM bind]. by rewrite IH. Qed.

Lemma mapM_ext {A B} (f g : A -> result B) l :
  (forall x, f x = g x) -> mapM f l = mapM g l.
Proof. intros H. induction l as [|x l IH]; [done|]. cbn [mapM]. by rewrite H, IH. Qed.

Lemma mapM_lookup {A B} (f : A -> result B) l l' i x :
  mapM f l = Ok l' -> l !! i = Some x -> exists y, l' !! i = Some y /\ f x = Ok y.
Proof.
  revert l' i. induction l as [|a l IH]; intros l' i H Hx; [done|].
  cbn [mapM] in H. apply bind_Ok_inv in H as (y & Hy & H).
  apply bind_Ok_inv in H as (ys & Hys & H). injection H as <-.
  destruct i as [|i].
  - injection Hx as ->. by exists y.
  - cbn in Hx |- *. by apply (IH ys i).
Qed.

(** The loop over the columns, column by column on the frame, gives the
    rows that the same passes give row by row. *)
Lemma foldM_expand_column_rows keys t t' :
  foldM expand_column keys t = Ok t' <->
  columns t' = columns t /\
  mapM (foldM (expand_step (columns t)) keys) (rows t) = Ok (rows t').
Proof.
  revert t t'. induction keys as [|key keys IH]; intros t t'.
  - cbn [foldM]. rewrite mapM_Ok_id. split.
    + intros H. by injection H as <-.
    + intros [Hc Hr]. injection Hr as Hr. destruct t, t'; cbn in *. by subst.
  - cbn [foldM]. split.
    + intros H. apply bind_Ok_inv in H as (t1 & H1 & H2).
      apply IH in H2 as [Hc Hr].
      unfold expand_column, has_column in H1.
      destruct (bool_decide (key ∈ columns t)) eqn:Hin.
      * apply bind_Ok_inv in H1 as (rs & Hrs & H1). injection H1 as <-.
        cbn in Hc, Hr. split; [done|].
        apply (mapM_bind_Ok _ _ _ rs); [|done].
        erewrite mapM_ext; [exact Hrs|].
        intros r. unfold expand_step, in_keys. by rewrite Hin.
      * injection H1 as <-. split; [done|].
        apply (mapM_bind_Ok _ _ _ (rows t)); [|done].
        erewrite mapM_ext; [apply mapM_Ok_id|].
        intros r. unfold expand_step, in_keys. by rewrite Hin.
    + intros [Hc Hr]. apply mapM_bind_Ok_inv in Hr as (rs & Hrs & Hr).
      unfold expand_column, has_column.
      destruct (bool_decide (key ∈ columns t)) eqn:Hin.
      * erewrite mapM_ext in Hrs; [rewrite Hrs|].
        2:{ intros r. unfold expand_step, in_keys. by rewrite Hin. }
        cbn [bind]. apply IH. by split.
      * erewrite mapM_ext in Hrs; [|intros r; unfold expand_step, in_keys; by rewrite Hin].
        rewrite mapM_Ok_id in Hrs. injection Hrs as <-.
        cbn [bind]. apply IH. by split.
Qed.

Lemma capacity_keys_NoDup : NoDup capacity_keys.
Proof. apply (bool_decide_eq_true_1 _). reflexivity. Qed.

Lemma Nunits_not_capacity : "Nunits" ∉ capacity_keys.
Proof. apply (bool_decide_eq_true_1 _). reflexivity. Qed.

Lemma expand_step_frame cols key r r' :
  expand_step cols key r = Ok r' -> forall k, k <> key -> r' !! k = r !! k.
Proof.
  unfold expand_step, expand_row. intros H k Hk. destruct (in_keys key cols).
  - apply bind_Ok_inv in H as (n & _ & H). apply bind_Ok_inv in H as (v & _ & H).
    injection H as <-. by rewrite lookup_insert_ne.
  - by injection H as ->.
Qed.

Lemma expand_step_stable cols key r r' :
  key ∈ capacity_keys -> expand_step cols key r = Ok r' ->
  forall k, k = "Nunits" -> r' !! k = r !! k.
Proof.
  intros Hkey H k ->. apply (expand_step_frame cols key r r' H).
  intros <-. by apply Nunits_not_capacity.
Qed.

(** The rows after the loop of lines 174-176. *)
Lemma expand_rows_spec cols r :
  expandable cols r = true ->
  exists r', foldM (expand_step cols) capacity_keys r = Ok r' /\
    r' !! "Nunits" = r !! "Nunits" /\
    (forall key n v, key ∈ capacity_keys -> key ∈ cols ->
       r !! "Nunits" = Some (Num n) -> r !! key = Some (Num v) ->
       r' !! key = Some (Num (n * v)%Qc)) /\
    (forall key, ~ (key ∈ capacity_keys /\ key ∈ cols) -> r' !! key = r !! key).
Proof.
  intros [HN Hkeys]%andb_prop. rewrite forallb_forall in Hkeys.
  destruct (is_num_getn r "Nunits" HN) as (n & Hn & Hgn).
  set (T := fun r0 : gmap string cell =>
              r0 !! "Nunits" = Some (Num n) /\
              forall key, key ∈ capacity_keys -> in_keys key cols = true -> is_num r0 key = true).
  destruct (foldM_total (expand_step cols) T capacity_keys r) as (r1 & Hfold & HT1).
  { intros key r0 Hkey [HN0 Hty]. unfold expand_step, expand_row.
    destruct (in_keys key cols) eqn:Hin; [|by exists r0].
    apply getn_Ok in HN0 as HN0'. rewrite HN0'. cbn [bind].
    destruct (is_num_getn r0 key) as (a & Ha & ->); [by apply Hty|]. cbn [bind].
    eexists; split; [done|]. split.
    - rewrite lookup_insert_ne; [done|]. intros ->. by apply Nunits_not_capacity.
    - intros k Hk Hkin. unfold is_num. destruct (decide (k = key)) as [->|Hne].
      + by rewrite lookup_insert_eq.
      + rewrite lookup_insert_ne by done. by apply Hty. }
  { split; [done|]. intros key Hkey Hin. specialize (Hkeys key).
    rewrite Hin in Hkeys. apply Hkeys. by apply list_elem_of_In. }
  exists r1. split; [done|]. split; [|split].
  - destruct HT1 as [-> _]. done.
  - intros key n' v Hkey Hcols Hn' Hv.
    rewrite Hn in Hn'. injection Hn' as <-.
    destruct (foldM_at (expand_step cols) capacity_keys (fun k => k = "Nunits")
                (fun key r r' _ => expand_step_frame cols key r r')
                (expand_step_stable cols)
                capacity_keys r r1 key) as (r0 & r2 & Hs & Hk0 & Hst & ->);
      [done|apply capacity_keys_NoDup|done|done|].
    unfold expand_step, expand_row, in_keys in Hs.
    rewrite bool_decide_eq_true_2 in Hs by done.
    rewrite <- Hk0 in Hv. rewrite <- (Hst "Nunits" eq_refl) in Hn.
    apply getn_Ok in Hv, Hn. rewrite Hv, Hn in Hs. cbn [bind] in Hs.
    injection Hs as <-. by rewrite lookup_insert_eq.
  - intros key Hnot.
    destruct (decide (key ∈ capacity_keys)) as [Hin|Hnin].
    + destruct (foldM_at (expand_step cols) capacity_keys (fun k => k = "Nunits")
                (fun key r r' _ => expand_step_frame cols key r r')
                (expand_step_stable cols)
                capacity_keys r r1 key) as (r0 & r2 & Hs & Hk0 & Hst & ->);
        [done|apply capacity_keys_NoDup|done|done|].
      unfold expand_step in Hs. rewrite <- Hk0.
      assert (in_keys key cols = false) as Hf.
      { apply bool_decide_eq_false_2. intros Hc. by apply Hnot. }
      rewrite Hf in Hs. by injection Hs as ->.
    + apply (foldM_frame (expand_step cols) capacity_keys
               (fun key r r' _ => expand_step_frame cols key r r') capacity_keys r r1);
        done.
Qed.

Lemma mapM_total {A B} (f : A -> result B) l :
  (forall x, x ∈ l -> exists y, f x = Ok y) -> exists l', mapM f l = Ok l'.
Proof.
  induction l as [|x l IH]; intros H; [by exists []|].
  destruct (H x) as (y & Hy); [set_solver|].
  destruct IH as (ys & Hys); [intros; apply H; set_solver|].
  exists (y :: ys). cbn [mapM]. by rewrite Hy, Hys.
Qed.

(** Lines 173-177 on a frame whose counts and capacities are numbers. *)
Lemma pre_expand_spec plants :
  has_column plants "Nunits" = true ->
  forallb (expandable (columns plants)) (rows plants) = true ->
  exists plants',
    pre_expand plants = Ok plants' /\
    columns plants' = columns plants /\
    length (rows plants') = length (rows plants) /\
    forall i r, rows plants !! i = Some r ->
      exists r', rows plants' !! i = Some r' /\
        r' !! "Nunits" = Some (Num (Q2Qc 1)) /\
        (forall key n v, key ∈ capacity_keys -> key ∈ columns plants ->
           r !! "Nunits" = Some (Num n) -> r !! key = Some (Num v) ->
           r' !! key = Some (Num (n * v)%Qc)) /\
        (forall key, key <> "Nunits" -> ~ (key ∈ capacity_keys /\ key ∈ columns plants) ->
           r' !! key = r !! key).
Proof.
  intros HN Hexp. rewrite forallb_forall in Hexp.
  destruct (mapM_total (foldM (expand_step (columns plants)) capacity_keys) (rows plants))
    as (rs & Hrs).
  { intros r Hr. destruct (expand_rows_spec (columns plants) r) as (r' & Hr' & _).
    - apply Hexp. by apply list_elem_of_In.
    - by exists r'. }
  assert (foldM expand_column capacity_keys plants = Ok (Table (columns plants) rs)) as Hfold.
  { apply foldM_expand_column_rows. by split. }
  exists (assign_column "Nunits" (Num (Q2Qc 1)) (Table (columns plants) rs)).
  split; [|split; [|split]].
  - unfold pre_expand. by rewrite Hfold.
  - unfold assign_column, has_column in *. cbn [columns]. by rewrite HN.
  - unfold assign_column. cbn [rows]. rewrite length_map. by apply mapM_length in Hrs.
  - intros i r Hr.
    destruct (mapM_lookup _ _ _ i r Hrs Hr) as (r1 & Hr1 & Hf).
    destruct (expand_rows_spec (columns plants) r) as (r2 & Hr2 & HNu & Hcap & Hoth).
    { apply Hexp. apply list_elem_of_In. by eapply list_elem_of_lookup_2. }
    rewrite Hf in Hr2. injection Hr2 as <-.
    exists (<["Nunits" := Num (Q2Qc 1)]> r1). split; [|split; [|split]].
    + unfold assign_column. cbn [rows]. by rewrite list_lookup_fmap, Hr1.
    + by rewrite lookup_insert_eq.
    + intros key n v Hkey Hcols Hn Hv. rewrite lookup_insert_ne.
      * by apply (Hcap key n v).
      * intros <-. by apply Nunits_not_capacity.
    + intros key Hne Hnot. rewrite lookup_insert_ne by done. by apply Hoth.
Qed.

(** C7: under 'LP clustered', when Nunits is not 1 on every row, the
    frame that reaches the merging loop has, in every row, PowerCapacity,
    STOCapacity, STOMaxChargingPower and InitialPower (those that the
    frame has) multiplied by the Nunits of the row, Nunits set to 1, and
    every other cell as it was; the flag [OnlyOnes] is set. *)
Theorem LP_clustered_pre_expansion plants :
  missing_input plants = None ->
  has_column plants "Nunits" = true ->
  all_ones plants = false ->
  forallb (expandable (columns plants)) (rows plants) = true ->
  exists plants',
    prepare "LP clustered" plants = ([LPAggregatesSameType], Ok (plants', true)) /\
    columns plants' = columns plants /\
    length (rows plants') = length (rows plants) /\
    forall i r, rows plants !! i = Some r ->
      exists r', rows plants' !! i = Some r' /\
        r' !! "Nunits" = Some (Num (Q2Qc 1)) /\
        (forall key n v, key ∈ capacity_keys -> key ∈ columns plants ->
           r !! "Nunits" = Some (Num n) -> r !! key = Some (Num v) ->
           r' !! key = Some (Num (n * v)%Qc)) /\
        (forall key, key <> "Nunits" -> ~ (key ∈ capacity_keys /\ key ∈ columns plants) ->
           r' !! key = r !! key).
Proof.
  intros Hmiss HN Hones Hexp.
  destruct (pre_expand_spec plants HN Hexp) as (plants' & Hrun & Hrest).
  exists plants'. split; [|exact Hrest].
  unfold prepare. rewrite Hmiss. unfold default_Nunits. rewrite HN.
  unfold check_method. rewrite Hones.
  change (bool_decide ("LP clustered" ∈ ["Standard"; "MILP"])) with false.
  cbn [String.eqb Ascii.eqb Bool.eqb]. by rewrite Hrun.
Qed.

Lemma LP_clustered_pre_expansion_witness :
  exists plants',
    prepare "LP clustered" three_units = ([LPAggregatesSameType], Ok (plants', true)) /\
    columns plants' = columns three_units /\
    length (rows plants') = length (rows three_units) /\
    forall i r, rows three_units !! i = Some r ->
      exists r', rows plants' !! i = Some r' /\
        r' !! "Nunits" = Some (Num (Q2Qc 1)) /\
        (forall key n v, key ∈ capacity_keys -> key ∈ columns three_units ->
           r !! "Nunits" = Some (Num n) -> r !! key = Some (Num v) ->
           r' !! key = Some (Num (n * v)%Qc)) /\
        (forall key, key <> "Nunits" ->
           ~ (key ∈ capacity_keys /\ key ∈ columns three_units) ->
           r' !! key = r !! key).
Proof. apply (LP_clustered_pre_expansion three_units); vm_compute; reflexivity. Defined.

(** The example of the specification: Nunits = 3 and PowerCapacity = 10
    reach the merging loop as Nunits = 1 and PowerCapacity = 30. *)
Example three_units_pre_expanded :
  exists plants' r',
    prepare "LP clustered" three_units = ([LPAggregatesSameType], Ok (plants', true)) /\
    rows plants' = [r'] /\
    r' !! "PowerCapacity" = Some (Num (qc 30 1)) /\
    r' !! "Nunits" = Some (Num (qc 1 1)).
Proof.
  eexists _, _. split; [reflexivity|]. split; [reflexivity|].
  split; apply (bool_decide_eq_true_1 _); vm_compute; reflexivity.
Qed.

(** ** The merging rules *)

Ltac inv_bind H :=
  repeat (let x := fresh "x" in
          let Hx := fresh "Hx" in
          apply bind_Ok_inv in H as (x & Hx & H)).

Lemma merge_key_frame z avg P_old P_add ri key r r' :
  merge_key z avg P_old P_add ri key r = Ok r' ->
  forall k, k <> key -> r' !! k = r !! k.
Proof.
  unfold merge_key. intros H k Hk.
  repeat match type of H with
         | (if ?c then _ else _) = _ => destruct c
         end;
    inv_bind H; injection H as <-; rewrite ?lookup_insert_ne by done; done.
Qed.

Lemma merge_key_Integer_frame ri key r r' :
  merge_key_Integer ri key r = Ok r' -> forall k, k <> key -> r' !! k = r !! k.
Proof.
  unfold merge_key_Integer. intros H k Hk.
  destruct (in_keys key average_keys_Integer);
    inv_bind H; injection H as <-; rewrite ?lookup_insert_ne by done; done.
Qed.

(** Which branch of the inner loop a merge came from. *)
Lemma try_merge_Some method OnlyOnes PartLoadMax Pmax cols ri fi c r' :
  try_merge method OnlyOnes PartLoadMax Pmax cols ri fi c = Ok (Some r') ->
  exists ts, merge_tests PartLoadMax Pmax ri fi c = Ok ts /\
    ((method ∈ ["Standard"; "MILP"] /\ eligible OnlyOnes ts = true /\
      merge_Standard cols (merged_row c) ri = Ok r') \/
     (method = "LP clustered" /\ t_same_type ts = true /\ OnlyOnes = true /\
      merge_LP_clustered cols (merged_row c) ri = Ok r') \/
     (method = "Integer clustering" /\ t_same_type ts = true /\
      merge_Integer cols (merged_row c) ri = Ok r')).
Proof.
  unfold try_merge. intros H. apply bind_Ok_inv in H as (ts & Hts & H).
  exists ts. split; [done|].
  destruct (bool_decide (method ∈ ["Standard"; "MILP"]) && eligible OnlyOnes ts) eqn:H1.
  { apply andb_prop in H1 as [Hm He]. apply bool_decide_eq_true_1 in Hm.
    apply bind_Ok_inv in H as (r & Hr & H). injection H as <-. left. done. }
  destruct ((method =? "LP clustered")%string && t_same_type ts && OnlyOnes) eqn:H2.
  { apply andb_prop in H2 as [[Hm Hs]%andb_prop Ho]. apply String.eqb_eq in Hm.
    apply bind_Ok_inv in H as (r & Hr & H). injection H as <-. right; left. done. }
  destruct ((method =? "Integer clustering")%string && t_same_type ts) eqn:H3.
  { apply andb_prop in H3 as [Hm Hs]. apply String.eqb_eq in Hm.
    apply bind_Ok_inv in H as (r & Hr & H). injection H as <-. right; right. done. }
  discriminate.
Qed.

Lemma merge_capacity_weighted_at z avg cols rj ri r' key :
  merge_capacity_weighted z avg cols rj ri = Ok r' -> NoDup cols -> key ∈ cols ->
  exists P_old P_add r0 r1,
    rj !! "PowerCapacity" = Some (Num P_old) /\ ri !! "PowerCapacity" = Some (Num P_add) /\
    merge_key z avg P_old P_add ri key r0 = Ok r1 /\
    r0 !! key = rj !! key /\ r' !! key = r1 !! key.
Proof.
  unfold merge_capacity_weighted. intros H Hnd Hkey.
  apply bind_Ok_inv in H as (P_old & HPo & H). apply bind_Ok_inv in H as (P_add & HPa & H).
  apply getn_Ok in HPo, HPa.
  destruct (foldM_at (merge_key z avg P_old P_add ri) cols (fun _ => False)
              (fun key r r' _ => merge_key_frame z avg P_old P_add ri key r r')
              (fun key r r' _ _ k (F : False) => match F with end)
              cols rj r' key) as (r0 & r1 & Hs & Hk0 & _ & Hr'); try done.
  by exists P_old, P_add, r0, r1.
Qed.

(** C6: on a merge, PartLoadMin and StartUpTime of the cluster become
    min(old * P_old, new * P_add) / (P_old + P_add) under 'Standard' and
    'MILP', and 0 under 'LP clustered'. *)
Theorem minimum_blend_or_zero method OnlyOnes PartLoadMax Pmax cols ri fi c r'
    key a b P_old P_add :
  try_merge method OnlyOnes PartLoadMax Pmax cols ri fi c = Ok (Some r') ->
  NoDup cols -> key ∈ cols -> key ∈ minimum_keys ->
  merged_row c !! "PowerCapacity" = Some (Num P_old) ->
  ri !! "PowerCapacity" = Some (Num P_add) ->
  merged_row c !! key = Some (Num a) ->
  ri !! key = Some (Num b) ->
  (method ∈ ["Standard"; "MILP"] ->
     r' !! key = Some (Num (minimum (a * P_old) (b * P_add) / (P_old + P_add))%Qc)) /\
  (method = "LP clustered" -> r' !! key = Some (Num (Q2Qc 0))).
Proof.
  intros H Hnd Hcols Hkey HPo HPa Ha Hb.
  assert (in_keys key average_keys_Standard = false /\ in_keys key average_keys_LP = false /\
          in_keys key capacity_keys = false /\ in_keys key minimum_keys = true)
    as (Hk1 & Hk2 & Hk3 & Hk4).
  { unfold minimum_keys in Hkey.
    apply elem_of_cons in Hkey as [->|Hkey]; [by repeat split|].
    apply elem_of_cons in Hkey as [->|Hkey]; [by repeat split|].
    by apply elem_of_nil in Hkey. }
  apply try_merge_Some in H as (ts & _ & H).
  split.
  - intros Hm. destruct H as [(_ & _ & H)|[(-> & _)|(-> & _)]].
    2,3: exfalso; revert Hm; apply (bool_decide_eq_false_1 _); reflexivity.
    destruct (merge_capacity_weighted_at _ _ _ _ _ _ key H Hnd Hcols)
      as (Po & Pa & r0 & r1 & HPo' & HPa' & Hs & Hk0 & ->).
    rewrite HPo in HPo'. injection HPo' as <-. rewrite HPa in HPa'. injection HPa' as <-.
    unfold merge_key in Hs. rewrite Hk1, Hk3, Hk4 in Hs.
    rewrite <- Hk0 in Ha. apply getn_Ok in Ha, Hb. rewrite Ha, Hb in Hs. cbn [bind] in Hs.
    apply bind_Ok_inv in Hs as (v & Hv & Hs). injection Hs as <-.
    apply div_Ok_inv in Hv as [_ ->]. rewrite lookup_insert_eq.
    by rewrite (Qcplus_comm P_add P_old).
  - intros ->. destruct H as [(Hm & _)|[(_ & _ & _ & H)|(Hm & _)]].
    1: exfalso; revert Hm; apply (bool_decide_eq_false_1 _); reflexivity.
    2: discriminate.
    destruct (merge_capacity_weighted_at _ _ _ _ _ _ key H Hnd Hcols)
      as (Po & Pa & r0 & r1 & HPo' & HPa' & Hs & Hk0 & ->).
    unfold merge_key in Hs. rewrite Hk2, Hk3, Hk4 in Hs.
    injection Hs as <-. by rewrite lookup_insert_eq.
Qed.

Lemma minimum_blend_or_zero_witness :
  merged_or_empty (try_merge "Standard" true default_PartLoadMax default_Pmax
                     sample_columns unit_B fingerprint_B cluster_A)
    !! "PartLoadMin"
  = Some (Num (minimum (qc 1 20 * qc 10 1) (qc 1 10 * qc 20 1) / (qc 10 1 + qc 20 1))%Qc) /\
  merged_or_empty (try_merge "LP clustered" true default_PartLoadMax default_Pmax
                     sample_columns unit_B fingerprint_B cluster_A)
    !! "PartLoadMin"
  = Some (Num (Q2Qc 0)).
Proof.
  split.
  - refine (proj1 (minimum_blend_or_zero "Standard" true default_PartLoadMax default_Pmax
                     sample_columns unit_B fingerprint_B cluster_A _ "PartLoadMin"
                     (qc 1 20) (qc 1 10) (qc 10 1) (qc 20 1) _ _ _ _ _ _ _ _) _);
      try (vm_compute; reflexivity); try (apply (bool_decide_eq_true_1 _); vm_compute; reflexivity).
  - refine (proj2 (minimum_blend_or_zero "LP clustered" true default_PartLoadMax default_Pmax
                     sample_columns unit_B fingerprint_B cluster_A _ "PartLoadMin"
                     (qc 1 20) (qc 1 10) (qc 10 1) (qc 20 1) _ _ _ _ _ _ _ _) _);
      try (vm_compute; reflexivity); try (apply (bool_decide_eq_true_1 _); vm_compute; reflexivity).
Defined.

(** ** Rows that the merging loop can read *)

Lemma numbers_in_num cols r key :
  numbers_in cols r = true -> key ∈ numeric_keys -> key ∈ cols -> is_num r key = true.
Proof.
  unfold numbers_in. rewrite forallb_forall. intros H Hk Hc.
  specialize (H key). unfold in_keys in H. rewrite bool_decide_eq_true_2 in H by done.
  apply H. by apply list_elem_of_In.
Qed.

Lemma usable_columns_in cols key :
  usable_columns cols = true -> key ∈ required_inputs ++ string_keys -> key ∈ cols.
Proof.
  intros [_ H]%andb_prop Hk. rewrite forallb_forall in H.
  apply (bool_decide_eq_true_1 (key ∈ cols)). apply H. by apply list_elem_of_In.
Qed.

Lemma usable_columns_NoDup cols : usable_columns cols = true -> NoDup cols.
Proof. intros [H _]%andb_prop. by apply bool_decide_eq_true_1 in H. Qed.

Lemma ready_getn cols r key :
  usable_columns cols = true -> ready cols r = true ->
  key ∈ required_inputs -> key ∈ numeric_keys -> exists q, getn r key = Ok q.
Proof.
  intros Hc Hr Hk Hn. unfold ready in Hr.
  apply andb_prop in Hr as [[[Hnum _]%andb_prop _]%andb_prop _].
  destruct (is_num_getn r key) as (q & _ & Hq); [|by exists q].
  apply (numbers_in_num cols); try done.
  apply usable_columns_in; [done|]. apply elem_of_app. by left.
Qed.

Lemma ready_str cols r key :
  ready cols r = true -> key ∈ string_keys -> exists s, r !! key = Some (Str s).
Proof.
  unfold ready. intros Hr Hk.
  apply andb_prop in Hr as [[[_ _]%andb_prop Hs]%andb_prop _].
  rewrite forallb_forall in Hs. specialize (Hs key (proj1 (list_elem_of_In _ _) Hk)).
  unfold is_str in Hs. destruct (r !! key) as [[| s |]|]; try discriminate. by exists s.
Qed.

Lemma ready_Unit cols r : ready cols r = true -> exists s, r !! "Unit" = Some (Str s).
Proof.
  unfold ready. intros Hr.
  apply andb_prop in Hr as [[[_ Hu]%andb_prop _]%andb_prop _].
  unfold is_str in Hu. destruct (r !! "Unit") as [[| s |]|]; try discriminate. by exists s.
Qed.

Lemma ready_Nunits cols r : ready cols r = true -> exists n, r !! "Nunits" = Some (Num n).
Proof.
  unfold ready. intros [_ Hn]%andb_prop.
  destruct (is_num_getn r "Nunits" Hn) as (n & Hn' & _). by exists n.
Qed.

Ltac in_list := apply (bool_decide_eq_true_1 _); reflexivity.

Lemma same_type_total cols ri rj :
  ready cols ri = true -> ready cols rj = true -> exists b, same_type ri rj = Ok b.
Proof.
  intros Hi Hj. unfold same_type.
  destruct (mapM_total (fun key => let* ci := get_filled ri key in
                                   let* cj := get_filled rj key in
                                   Ok (cell_eqb ci cj)) string_keys) as (eqs & ->).
  - intros key Hk.
    destruct (ready_str cols ri key Hi Hk) as (si & Hsi).
    destruct (ready_str cols rj key Hj Hk) as (sj & Hsj).
    unfold get_filled. rewrite Hsi, Hsj. cbn [bind]. by eexists.
  - by eexists.
Qed.

Lemma highly_flexible_total cols ri :
  usable_columns cols = true -> ready cols ri = true -> exists b, highly_flexible ri = Ok b.
Proof.
  intros Hc Hi. unfold highly_flexible, andM.
  destruct (ready_getn cols ri "RampUpRate" Hc Hi) as (q1 & ->); [in_list..|].
  destruct (ready_getn cols ri "RampDownRate" Hc Hi) as (q2 & ->); [in_list..|].
  destruct (ready_getn cols ri "StartUpTime" Hc Hi) as (q3 & ->); [in_list..|].
  destruct (ready_getn cols ri "MinDownTime" Hc Hi) as (q4 & ->); [in_list..|].
  destruct (ready_getn cols ri "MinUpTime" Hc Hi) as (q5 & ->); [in_list..|].
  cbn [bind].
  destruct (gtb q1 (qc 1 60)); [|by eexists].
  destruct (gtb q2 (qc 1 60)); [|by eexists].
  destruct (ltb q3 (qc 1 1)); [|by eexists].
  destruct (leb q4 (qc 1 1)); by eexists.
Qed.

Lemma merge_tests_total cols PartLoadMax Pmax ri fi c :
  usable_columns cols = true -> ready cols ri = true -> ready cols (merged_row c) = true ->
  exists ts, merge_tests PartLoadMax Pmax ri fi c = Ok ts.
Proof.
  intros Hc Hi Hj. unfold merge_tests.
  destruct (same_type_total cols ri (merged_row c) Hi Hj) as (st & ->).
  destruct (ready_getn cols ri "PartLoadMin" Hc Hi) as (q1 & ->); [in_list..|].
  destruct (ready_getn cols ri "PowerCapacity" Hc Hi) as (q2 & ->); [in_list..|].
  destruct (highly_flexible_total cols ri Hc Hi) as (hf & ->).
  cbn [bind]. by eexists.
Qed.

Lemma merge_tests_same_type PartLoadMax Pmax ri fi c ts :
  merge_tests PartLoadMax Pmax ri fi c = Ok ts ->
  same_type ri (merged_row c) = Ok (t_same_type ts).
Proof.
  unfold merge_tests. intros H. inv_bind H. injection H as <-. done.
Qed.

(** ** Runs in which nothing merges *)

Lemma try_merge_never method OnlyOnes PartLoadMax Pmax cols ri fi c :
  never_merges method OnlyOnes = true ->
  usable_columns cols = true -> ready cols ri = true -> ready cols (merged_row c) = true ->
  try_merge method OnlyOnes PartLoadMax Pmax cols ri fi c = Ok None.
Proof.
  intros Hn Hc Hi Hj. unfold try_merge.
  destruct (merge_tests_total cols PartLoadMax Pmax ri fi c Hc Hi Hj) as (ts & ->).
  cbn [bind]. unfold never_merges in Hn.
  apply andb_prop in Hn as [[H1 H2]%andb_prop H3].
  apply negb_true_iff in H1, H2, H3.
  unfold eligible. rewrite H3. cbn [andb].
  rewrite H2. cbn [andb].
  destruct (bool_decide (method ∈ ["Standard"; "MILP"])), OnlyOnes; cbn in *;
    try discriminate; reflexivity.
Qed.

Lemma scan_never method OnlyOnes PartLoadMax Pmax cols i ri fi cs :
  never_merges method OnlyOnes = true ->
  usable_columns cols = true -> ready cols ri = true ->
  Forall (fun c => ready cols (merged_row c) = true) cs ->
  scan method OnlyOnes PartLoadMax Pmax cols i ri fi cs = Ok None.
Proof.
  intros Hn Hc Hi Hcs. induction Hcs as [|c cs Hr _ IH]; [done|].
  cbn [scan]. rewrite try_merge_never by done. cbn [bind]. by rewrite IH.
Qed.

(** The cluster that a plant founds. *)
Lemma merge_loop_never_go method OnlyOnes PartLoadMax Pmax cols units cs :
  never_merges method OnlyOnes = true ->
  usable_columns cols = true ->
  Forall (fun u => ready cols (u.2.1) = true) units ->
  Forall (fun c => ready cols (merged_row c) = true) cs ->
  foldM (add_plant method OnlyOnes PartLoadMax Pmax cols) units cs
  = Ok (cs ++ map founded units).
Proof.
  intros Hn Hc Hu. revert cs. induction Hu as [|[i [ri fi]] units Hr _ IH]; intros cs Hcs.
  - cbn. by rewrite app_nil_r.
  - cbn [foldM add_plant]. cbn in Hr. rewrite scan_never by done. cbn [bind].
    rewrite IH.
    + cbn [map fst snd]. by rewrite <- app_assoc.
    + apply Forall_app. split; [done|]. by apply Forall_singleton.
Qed.

Lemma merge_loop_never method OnlyOnes PartLoadMax Pmax cols units :
  never_merges method OnlyOnes = true ->
  usable_columns cols = true ->
  Forall (fun u => ready cols (u.2.1) = true) units ->
  merge_loop method OnlyOnes PartLoadMax Pmax cols units
  = Ok (map founded units).
Proof.
  intros. unfold merge_loop. by rewrite merge_loop_never_go.
Qed.

(** ** The checks of lines 155-187 on a typed frame *)

Lemma typed_table_columns t : typed_table t = true -> usable_columns (columns t) = true.
Proof. by intros [H _]%andb_prop. Qed.

Lemma typed_table_rows t r :
  typed_table t = true -> r ∈ rows t -> typed_row (columns t) r = true.
Proof.
  intros [_ H]%andb_prop Hr. rewrite forallb_forall in H. apply H. by apply list_elem_of_In.
Qed.

Lemma missing_input_None t : usable_columns (columns t) = true -> missing_input t = None.
Proof.
  intros Hc. unfold missing_input.
  destruct (List.find _ required_inputs) as [key|] eqn:E; [|done].
  apply List.find_some in E as [Hk E]. apply negb_true_iff in E.
  unfold has_column in E. apply bool_decide_eq_false_1 in E. exfalso. apply E.
  apply usable_columns_in; [done|]. apply elem_of_app. left. by apply list_elem_of_In.
Qed.

Lemma is_num_insert_ne r key k v : k <> key -> is_num (<[key := v]> r) k = is_num r k.
Proof. intros H. unfold is_num. by rewrite lookup_insert_ne. Qed.

Lemma is_str_insert_ne r key k v : k <> key -> is_str (<[key := v]> r) k = is_str r k.
Proof. intros H. unfold is_str. by rewrite lookup_insert_ne. Qed.

Lemma is_text_insert_ne r key k v : k <> key -> is_text (<[key := v]> r) k = is_text r k.
Proof. intros H. unfold is_text. by rewrite lookup_insert_ne. Qed.

Lemma is_num_insert r key q : is_num (<[key := Num q]> r) key = true.
Proof. unfold is_num. by rewrite lookup_insert_eq. Qed.

(** Writing a number into a numeric column keeps a row typed. *)
Lemma numbers_in_insert cols r key q :
  numbers_in cols r = true -> numbers_in cols (<[key := Num q]> r) = true.
Proof.
  unfold numbers_in. rewrite !forallb_forall. intros H k Hk.
  destruct (decide (k = key)) as [->|Hne].
  - rewrite is_num_insert. apply Bool.implb_true_r.
  - rewrite is_num_insert_ne by done. by apply H.
Qed.

Lemma forallb_is_str_insert r key v keys :
  key ∉ keys -> forallb (is_str (<[key := v]> r)) keys = forallb (is_str r) keys.
Proof.
  induction keys as [|k keys IH]; intros Hk; [done|].
  apply not_elem_of_cons in Hk as [Hne Hk]. cbn [forallb].
  rewrite is_str_insert_ne by done. by rewrite IH.
Qed.

Lemma forallb_is_text_insert r key v keys :
  key ∉ keys -> forallb (is_text (<[key := v]> r)) keys = forallb (is_text r) keys.
Proof.
  induction keys as [|k keys IH]; intros Hk; [done|].
  apply not_elem_of_cons in Hk as [Hne Hk]. cbn [forallb].
  rewrite is_text_insert_ne by done. by rewrite IH.
Qed.

Lemma numbers_in_more cols key r :
  numbers_in cols r = true -> is_num r key = true -> numbers_in (cols ++ [key]) r = true.
Proof.
  unfold numbers_in. rewrite !forallb_forall. intros H Hkey k Hk.
  specialize (H k Hk). unfold in_keys in *.
  destruct (decide (k = key)) as [->|Hne].
  - rewrite Hkey. apply Bool.implb_true_r.
  - destruct (bool_decide (k ∈ cols)) eqn:Hin.
    + rewrite bool_decide_eq_true_2; [done|]. apply bool_decide_eq_true_1 in Hin.
      apply elem_of_app. by left.
    + rewrite bool_decide_eq_false_2; [done|]. apply bool_decide_eq_false_1 in Hin.
      rewrite elem_of_app, list_elem_of_singleton. by intros [?|?].
Qed.

Lemma typed_row_parts cols r :
  typed_row cols r = true ->
  numbers_in cols r = true /\ is_str r "Unit" = true /\ forallb (is_text r) string_keys = true.
Proof. unfold typed_row. intros [[[_ H1]%andb_prop H2]%andb_prop H3]%andb_prop. done. Qed.

Lemma pre_ready_intro cols r :
  numbers_in cols r = true -> is_str r "Unit" = true ->
  forallb (is_text r) string_keys = true -> is_num r "Nunits" = true ->
  pre_ready cols r = true.
Proof. unfold pre_ready. by intros -> -> -> ->. Qed.

Lemma pre_ready_parts cols r :
  pre_ready cols r = true ->
  numbers_in cols r = true /\ is_str r "Unit" = true /\
  forallb (is_text r) string_keys = true /\ is_num r "Nunits" = true.
Proof. unfold pre_ready. intros [[[H1 H2]%andb_prop H3]%andb_prop H4]%andb_prop. done. Qed.

(** The frame after [default_Nunits]: its columns are usable, they
    include the count, and its rows are typed. *)
Lemma default_Nunits_pre_ready t :
  typed_table t = true ->
  usable_columns (columns (default_Nunits t)) = true /\
  "Nunits" ∈ columns (default_Nunits t) /\
  Forall (fun r => pre_ready (columns (default_Nunits t)) r = true) (rows (default_Nunits t)).
Proof.
  intros Ht. pose proof (typed_table_columns t Ht) as Hc.
  unfold default_Nunits, has_column. destruct (bool_decide ("Nunits" ∈ columns t)) eqn:HN.
  - apply bool_decide_eq_true_1 in HN. split; [done|]. split; [done|].
    apply Forall_forall. intros r Hr.
    destruct (typed_row_parts _ _ (typed_table_rows t r Ht Hr)) as (H1 & H2 & H3).
    apply pre_ready_intro; try done.
    apply (numbers_in_num (columns t)); [done|in_list|done].
  - apply bool_decide_eq_false_1 in HN.
    unfold assign_column, has_column. rewrite bool_decide_eq_false_2 by done.
    cbn [columns rows]. split; [|split].
    + unfold usable_columns in *. apply andb_prop in Hc as [Hnd Hreq].
      apply andb_true_intro. split.
      * apply bool_decide_eq_true_2. apply bool_decide_eq_true_1 in Hnd.
        apply NoDup_app. split; [done|]. split; [|apply NoDup_singleton].
        intros x Hx Hx'. apply list_elem_of_singleton in Hx' as ->. done.
      * rewrite forallb_forall in Hreq |- *. intros key Hk. specialize (Hreq key Hk).
        unfold in_keys in *. apply bool_decide_eq_true_1 in Hreq.
        apply bool_decide_eq_true_2. apply elem_of_app. by left.
    + apply elem_of_app. right. by apply list_elem_of_singleton.
    + apply Forall_forall. intros r' Hr'. apply list_elem_of_fmap in Hr' as (r & -> & Hr).
      destruct (typed_row_parts _ _ (typed_table_rows t r Ht Hr)) as (H1 & H2 & H3).
      apply pre_ready_intro.
      * apply numbers_in_more; [by apply numbers_in_insert|apply is_num_insert].
      * by rewrite is_str_insert_ne.
      * rewrite forallb_is_text_insert; [done|]. apply (bool_decide_eq_true_1 _). reflexivity.
      * apply is_num_insert.
Qed.

(** ** [fillna] and the fingerprints *)

Lemma fill_row_lookup r key :
  fill_row r !! key = if bool_decide (key ∈ string_keys) then fillna <$> r !! key else r !! key.
Proof.
  unfold fill_row, string_keys.
  destruct (decide (key = "CHPType")) as [->|H1].
  { rewrite lookup_alter_eq, !lookup_alter_ne by done. reflexivity. }
  rewrite lookup_alter_ne by done.
  destruct (decide (key = "Fuel")) as [->|H2].
  { rewrite lookup_alter_eq, !lookup_alter_ne by done. reflexivity. }
  rewrite lookup_alter_ne by done.
  destruct (decide (key = "Technology")) as [->|H3].
  { rewrite lookup_alter_eq, !lookup_alter_ne by done. reflexivity. }
  rewrite lookup_alter_ne by done.
  destruct (decide (key = "Zone")) as [->|H4].
  { rewrite lookup_alter_eq. reflexivity. }
  rewrite lookup_alter_ne by done.
  rewrite bool_decide_eq_false_2; [done|].
  rewrite !elem_of_cons, elem_of_nil. by intros [?|[?|[?|[?|[]]]]].
Qed.

Lemma fill_row_other r key : key ∉ string_keys -> fill_row r !! key = r !! key.
Proof. intros H. rewrite fill_row_lookup. by rewrite bool_decide_eq_false_2. Qed.

(** A row without missing values is left as it is. *)
Lemma fill_row_id r :
  (forall key, key ∈ string_keys -> r !! key <> Some NaN) -> fill_row r = r.
Proof.
  intros H. apply map_eq. intros key. rewrite fill_row_lookup.
  destruct (bool_decide (key ∈ string_keys)) eqn:Hk; [|done].
  apply bool_decide_eq_true_1 in Hk. specialize (H key Hk).
  destruct (r !! key) as [[| |]|]; try done.
Qed.

Lemma numeric_not_string key : key ∈ numeric_keys -> key ∉ string_keys.
Proof.
  intros Hn Hs. unfold string_keys in Hs. rewrite !elem_of_cons, elem_of_nil in Hs.
  destruct Hs as [->|[->|[->|[->|[]]]]]; revert Hn;
    apply (bool_decide_eq_false_1 _); reflexivity.
Qed.

Lemma fill_strings_Ok t :
  usable_columns (columns t) = true ->
  fill_strings t = Ok (Table (columns t) (map fill_row (rows t))).
Proof.
  intros Hc. unfold fill_strings, string_keys.
  assert (forall key rs, key ∈ string_keys -> has_column (Table (columns t) rs) key = true) as Hin.
  { intros key rs Hk. unfold has_column. cbn [columns]. apply bool_decide_eq_true_2.
    apply usable_columns_in; [done|]. apply elem_of_app. by right. }
  destruct t as [cols rs]. cbn [columns rows] in *. cbn [foldM].
  rewrite Hin by in_list. cbn [bind columns rows].
  rewrite Hin by in_list. cbn [bind columns rows].
  rewrite Hin by in_list. cbn [bind columns rows].
  rewrite Hin by in_list. cbn [bind columns rows].
  rewrite !map_map. reflexivity.
Qed.

Lemma fill_row_ready cols r : pre_ready cols r = true -> ready cols (fill_row r) = true.
Proof.
  intros (H1 & H2 & H3 & H4)%pre_ready_parts. unfold ready.
  apply andb_true_intro; split;
    [apply andb_true_intro; split; [apply andb_true_intro; split|]|].
  - unfold numbers_in in *. rewrite forallb_forall in H1 |- *. intros key Hk.
    specialize (H1 key Hk). unfold is_num in *. rewrite fill_row_other; [done|].
    apply numeric_not_string. by apply list_elem_of_In.
  - unfold is_str in *. rewrite fill_row_other; [done|]. apply (bool_decide_eq_true_1 _). reflexivity.
  - rewrite forallb_forall in H3 |- *. intros key Hk. specialize (H3 key Hk).
    unfold is_str, is_text in *. rewrite fill_row_lookup.
    rewrite bool_decide_eq_true_2 by (by apply list_elem_of_In).
    destruct (r !! key) as [[| |]|]; done.
  - unfold is_num in *. rewrite fill_row_other; [done|]. apply (bool_decide_eq_true_1 _). reflexivity.
Qed.

Lemma argmin_total l : l <> [] -> exists i, argmin l = Ok i.
Proof. destruct l; [done|]. intros _. by eexists. Qed.

Section Fingerprints.

Variable _mylogspace : Qc -> Qc -> nat -> list Qc.

Lemma bounds_keys Nslices key array :
  (key, array) ∈ bounds _mylogspace Nslices ->
  key ∈ required_inputs /\ key ∈ numeric_keys.
Proof.
  unfold bounds. rewrite !elem_of_cons, elem_of_nil. intros H.
  repeat (destruct H as [H|H]; [injection H as -> _; split; in_list|]). done.
Qed.

Lemma fingerprint_total Nslices cols r :
  bounds_nonempty _mylogspace Nslices = true ->
  usable_columns cols = true -> numbers_in cols r = true ->
  exists f, fingerprint _mylogspace Nslices r = Ok f.
Proof.
  intros Hb Hc Hr. unfold fingerprint. apply mapM_total. intros [key array] Hin.
  destruct (bounds_keys Nslices key array Hin) as [Hreq Hnum].
  destruct (is_num_getn r key) as (q & _ & ->).
  { apply (numbers_in_num cols); try done.
    apply usable_columns_in; [done|]. apply elem_of_app. by left. }
  cbn [bind]. unfold _find_nearest. apply argmin_total.
  unfold bounds_nonempty in Hb. rewrite forallb_forall in Hb.
  specialize (Hb (key, array) (proj1 (list_elem_of_In _ _) Hin)). cbn in Hb.
  apply negb_true_iff, bool_decide_eq_false_1 in Hb.
  by destruct array.
Qed.

End Fingerprints.

(** ** The new names and the mapping *)

Lemma elem_of_concat {A} (x : A) (ls : list (list A)) :
  x ∈ concat ls <-> exists l, x ∈ l /\ l ∈ ls.
Proof.
  induction ls as [|l ls IH]; cbn [concat].
  - split; [by intros ?%elem_of_nil|]. by intros (l & _ & ?%elem_of_nil).
  - rewrite elem_of_app, IH. split.
    + intros [H|(l' & H1 & H2)]; [exists l; split; [done|by left]|].
      exists l'. split; [done|by right].
    + intros (l' & H1 & H2). apply elem_of_cons in H2 as [->|H2]; [by left|].
      right. by exists l'.
Qed.

Section Renaming.

Variable clean_strings : string -> string.
Variable shrink_to_64 : string -> string.

Local Abbreviation new_name := (NewName clean_strings shrink_to_64).
Local Abbreviation rename1 := (rename clean_strings shrink_to_64).
Local Abbreviation name1 := (name_of clean_strings shrink_to_64).
Local Abbreviation renamed1 := (renamed clean_strings shrink_to_64).
Local Abbreviation add1 := (add_mapping clean_strings shrink_to_64).

Lemma NewName_total cols c :
  ready cols (merged_row c) = true -> exists name, new_name c = Ok name.
Proof.
  intros Hr. unfold NewName.
  destruct (ready_Unit cols _ Hr) as (u & Hu).
  destruct (ready_str cols _ "Zone" Hr) as (s1 & H1); [in_list|].
  destruct (ready_str cols _ "Technology" Hr) as (s2 & H2); [in_list|].
  destruct (ready_str cols _ "Fuel" Hr) as (s3 & H3); [in_list|].
  destruct (ready_str cols _ "CHPType" Hr) as (s4 & H4); [in_list|].
  assert (exists ks, foldM (fun key acc => let* v := gets (merged_row c) key in
                                            Ok (acc +:+ " - " +:+ v)) string_keys "" = Ok ks)
    as (ks & Hks).
  { unfold string_keys. cbn [foldM]. unfold gets. rewrite H1, H2, H3, H4. cbn [bind].
    by eexists. }
  destruct (former c) as [|i [|j l]]; rewrite ?Hks; unfold gets; rewrite ?Hu; cbn [bind];
    by eexists.
Qed.

Lemma rename_Ok c out m name :
  new_name c = Ok name ->
  rename1 c (out, m) = Ok (out ++ [renamed1 c], add1 m c).
Proof.
  intros Hn. unfold rename, renamed, add_mapping,
    name1. rewrite Hn. cbn [bind].
  destruct (former c) as [|i [|j l]]; reflexivity.
Qed.

Lemma rename_all_go cs out m :
  (forall c, c ∈ cs -> exists name, new_name c = Ok name) ->
  foldM rename1 cs (out, m) = Ok (out ++ map renamed1 cs, foldl add1 m cs).
Proof.
  revert out m. induction cs as [|c cs IH]; intros out m H.
  - cbn. by rewrite app_nil_r.
  - destruct (H c) as (name & Hn); [by left|].
    cbn [foldM]. rewrite (rename_Ok c out m name Hn). cbn [bind].
    rewrite IH by (intros; apply H; by right).
    cbn [map foldl]. by rewrite <- app_assoc.
Qed.

Lemma rename_all_Ok cs :
  (forall c, c ∈ cs -> exists name, new_name c = Ok name) ->
  (rename_all clean_strings shrink_to_64) cs = Ok (map renamed1 cs, foldl add1 (Mapping ∅ ∅) cs).
Proof. intros H. unfold rename_all. by rewrite rename_all_go. Qed.

Lemma foldl_insert_lookup (l : list nat) (name : string) (ni : gmap nat string) i :
  foldl (fun ni oldplant => <[oldplant := name]> ni) ni l !! i
  = if decide (i ∈ l) then Some name else ni !! i.
Proof.
  revert ni. induction l as [|x l IH]; intros ni; cbn [foldl].
  - rewrite decide_False; [done|]. apply not_elem_of_nil.
  - rewrite IH. destruct (decide (i ∈ l)) as [Hl|Hl].
    + rewrite decide_True; [done|]. by right.
    + destruct (decide (i = x)) as [->|Hne].
      * rewrite lookup_insert_eq. rewrite decide_True; [done|]. by left.
      * rewrite lookup_insert_ne by done. rewrite decide_False; [done|].
        rewrite elem_of_cons. by intros [?|?].
Qed.

Lemma add_mapping_snoc m cs c :
  foldl add1 m (cs ++ [c]) = add1 (foldl add1 m cs) c.
Proof. by rewrite foldl_app. Qed.

Lemma NewIndex_from cs i name :
  NewIndex (foldl add1 (Mapping ∅ ∅) cs) !! i = Some name ->
  exists c, c ∈ cs /\ i ∈ former c /\ name1 c = name.
Proof.
  induction cs as [|c cs IH] using rev_ind; [done|].
  rewrite add_mapping_snoc. unfold add_mapping at 1. cbn [NewIndex].
  rewrite foldl_insert_lookup. destruct (decide (i ∈ former c)) as [Hi|Hi].
  - intros H. injection H as <-. exists c. split; [|done].
    apply elem_of_app. right. by apply list_elem_of_singleton.
  - intros H. destruct (IH H) as (c' & Hc' & Hi' & Hn). exists c'. split; [|done].
    apply elem_of_app. by left.
Qed.

Lemma FormerIndexes_from cs name l :
  FormerIndexes (foldl add1 (Mapping ∅ ∅) cs) !! name = Some l ->
  exists c, c ∈ cs /\ name1 c = name /\ former c = l.
Proof.
  induction cs as [|c cs IH] using rev_ind; [done|].
  rewrite add_mapping_snoc. unfold add_mapping at 1. cbn [FormerIndexes].
  destruct (decide (name1 c = name)) as [<-|Hne].
  - rewrite lookup_insert_eq. intros H. injection H as <-. exists c. split; [|done].
    apply elem_of_app. right. by apply list_elem_of_singleton.
  - rewrite lookup_insert_ne by done.
    intros H. destruct (IH H) as (c' & Hc' & Hn & Hl). exists c'. split; [|done].
    apply elem_of_app. by left.
Qed.

Lemma NewIndex_of cs c i :
  NoDup (concat (map former cs)) -> c ∈ cs -> i ∈ former c ->
  NewIndex (foldl add1 (Mapping ∅ ∅) cs) !! i = Some (name1 c).
Proof.
  induction cs as [|c' cs IH] using rev_ind; intros Hnd Hc Hi.
  { by apply elem_of_nil in Hc. }
  rewrite add_mapping_snoc. unfold add_mapping at 1. cbn [NewIndex].
  rewrite foldl_insert_lookup.
  rewrite map_app, concat_app in Hnd. cbn [map concat] in Hnd. rewrite app_nil_r in Hnd.
  apply NoDup_app in Hnd as (Hnd1 & Hdisj & Hnd2).
  apply elem_of_app in Hc as [Hc|Hc].
  - assert (i ∈ concat (map former cs)) as Hin.
    { apply elem_of_concat. exists (former c). split; [done|].
      apply list_elem_of_fmap. by exists c. }
    rewrite decide_False by (by apply Hdisj).
    by apply IH.
  - apply list_elem_of_singleton in Hc as ->. by rewrite decide_True.
Qed.

Lemma FormerIndexes_of cs c :
  NoDup (map name1 cs) -> c ∈ cs ->
  FormerIndexes (foldl add1 (Mapping ∅ ∅) cs) !! name1 c = Some (former c).
Proof.
  induction cs as [|c' cs IH] using rev_ind; intros Hnd Hc.
  { by apply elem_of_nil in Hc. }
  rewrite add_mapping_snoc. unfold add_mapping at 1. cbn [FormerIndexes].
  rewrite map_app in Hnd. cbn [map] in Hnd.
  apply NoDup_app in Hnd as (Hnd1 & Hdisj & _).
  apply elem_of_app in Hc as [Hc|Hc].
  - rewrite lookup_insert_ne; [by apply IH|].
    intros Heq. apply (Hdisj (name1 c)).
    + apply list_elem_of_fmap. by exists c.
    + rewrite <- Heq. by apply list_elem_of_singleton.
  - apply list_elem_of_singleton in Hc as ->. by rewrite lookup_insert_eq.
Qed.

End Renaming.

(** ** Runs in which nothing merges: the whole function *)

Lemma units_of_lookup rs fps i r :
  length fps = length rs -> rs !! i = Some r ->
  exists f, fps !! i = Some f /\ units_of rs fps !! i = Some (i, (r, f)).
Proof.
  intros Hlen Hr. pose proof (lookup_lt_Some _ _ _ Hr) as Hi.
  destruct (lookup_lt_is_Some_2 fps i) as (f & Hf); [by rewrite Hlen|].
  exists f. split; [done|]. unfold units_of.
  rewrite !lookup_zip_with, Hr, Hf. rewrite lookup_seq_lt by done. reflexivity.
Qed.

Lemma units_of_length rs fps : length fps = length rs -> length (units_of rs fps) = length rs.
Proof.
  intros H. unfold units_of. rewrite !length_zip_with, length_seq, H. lia.
Qed.

Lemma units_of_rows rs fps u : u ∈ units_of rs fps -> u.2.1 ∈ rs.
Proof.
  unfold units_of. intros (i & Hi)%list_elem_of_lookup.
  rewrite lookup_zip_with in Hi.
  destruct (seq 0 (length rs) !! i) as [j|]; [|done]. cbn in Hi.
  rewrite lookup_zip_with in Hi.
  destruct (rs !! i) as [r|] eqn:Hr; [|done]. cbn in Hi.
  destruct (fps !! i) as [f|]; [|done]. cbn in Hi. injection Hi as <-.
  cbn. by eapply list_elem_of_lookup_2.
Qed.

Section NoMerge.

Variable _mylogspace : Qc -> Qc -> nat -> list Qc.
Variable clean_strings : string -> string.
Variable shrink_to_64 : string -> string.

Local Abbreviation name1 := (name_of clean_strings shrink_to_64).
Local Abbreviation renamed1 := (renamed clean_strings shrink_to_64).
Local Abbreviation add1 := (add_mapping clean_strings shrink_to_64).

Lemma fingerprints_total Nslices t :
  bounds_nonempty _mylogspace Nslices = true ->
  usable_columns (columns t) = true ->
  Forall (fun r => pre_ready (columns t) r = true) (rows t) ->
  exists fps, mapM (fingerprint _mylogspace Nslices) (rows t) = Ok fps /\
              length fps = length (rows t).
Proof.
  intros Hb Hc Hr.
  destruct (mapM_total (fingerprint _mylogspace Nslices) (rows t)) as (fps & Hfps).
  - intros r Hin. rewrite Forall_forall in Hr.
    apply (fingerprint_total _ Nslices (columns t)); try done.
    by destruct (pre_ready_parts _ _ (Hr r Hin)) as (H1 & _).
  - exists fps. split; [done|]. by apply mapM_length in Hfps.
Qed.

(** Lines 189-358 when no branch of the inner loop can be taken: every
    plant founds its cluster. *)
Lemma cluster_units_never method Nslices PartLoadMax Pmax OnlyOnes t fps :
  never_merges method OnlyOnes = true ->
  usable_columns (columns t) = true ->
  Forall (fun r => pre_ready (columns t) r = true) (rows t) ->
  mapM (fingerprint _mylogspace Nslices) (rows t) = Ok fps ->
  cluster_units _mylogspace clean_strings shrink_to_64 method Nslices PartLoadMax Pmax OnlyOnes t
  = Ok (Table (columns t)
              (map renamed1 (map founded (units_of (map fill_row (rows t)) fps))),
        foldl add1 (Mapping ∅ ∅) (map founded (units_of (map fill_row (rows t)) fps))).
Proof.
  intros Hn Hc Hr Hfps. unfold cluster_units. rewrite Hfps. cbn [bind].
  rewrite fill_strings_Ok by done. cbn [bind columns rows].
  assert (Forall (fun u => ready (columns t) (u.2.1) = true)
                 (units_of (map fill_row (rows t)) fps)) as Hu.
  { apply Forall_forall. intros u Hu. apply units_of_rows in Hu.
    apply list_elem_of_fmap in Hu as (r & -> & Hin).
    apply fill_row_ready. rewrite Forall_forall in Hr. by apply Hr. }
  fold (units_of (map fill_row (rows t)) fps).
  rewrite merge_loop_never by done. cbn [bind].
  rewrite rename_all_Ok.
  2:{ intros c (u & -> & Hin)%list_elem_of_fmap. apply (NewName_total _ _ (columns t)).
      rewrite Forall_forall in Hu. by apply Hu. }
  cbn [bind]. unfold post_process, never_merges in *.
  apply andb_prop in Hn as [[_ H2]%andb_prop H3]. apply negb_true_iff in H2, H3.
  by rewrite H2, H3.
Qed.

(** The name of the cluster that plant [i] founds. *)
Lemma name_of_founded cols i r f :
  ready cols r = true ->
  exists u, r !! "Unit" = Some (Str u) /\
    name1 (founded (i, (r, f)))
    = sanitize clean_strings shrink_to_64 (str_list [i] +:+ " - " +:+ u).
Proof.
  intros Hr. destruct (ready_Unit cols r Hr) as (u & Hu). exists u. split; [done|].
  unfold name_of, NewName, founded. cbn [former merged_row fst snd].
  unfold gets. rewrite Hu. reflexivity.
Qed.

End NoMerge.

Lemma concat_former_founded units : concat (map former (map founded units)) = map fst units.
Proof. induction units as [|u units IH]; [done|]. cbn. by rewrite IH. Qed.

Lemma units_of_indices rs fps :
  length fps = length rs -> map fst (units_of rs fps) = seq 0 (length rs).
Proof.
  intros H. unfold units_of. apply (fst_zip (seq 0 (length rs)) (zip rs fps)).
  rewrite length_seq, length_zip_with. lia.
Qed.

Lemma check_method_plain method t :
  method ∈ ["Standard"; "MILP"; "LP"; "No clustering"] ->
  check_method method t
  = (if bool_decide (method ∈ ["Standard"; "MILP"]) && negb (all_ones t)
     then [NunitsNotAllOne] else [], Ok (t, all_ones t)).
Proof.
  rewrite !elem_of_cons, elem_of_nil. unfold check_method.
  intros [->|[->|[->|[->|[]]]]];
    repeat match goal with
           | |- context [bool_decide (?s ∈ ["Standard"; "MILP"])] =>
               let b := eval vm_compute in (bool_decide (s ∈ ["Standard"; "MILP"])) in
               change (bool_decide (s ∈ ["Standard"; "MILP"])) with b
           end;
    cbn [String.eqb Ascii.eqb Bool.eqb andb]; by destruct (all_ones t).
Qed.

Section NoMergeRun.

Variable _mylogspace : Qc -> Qc -> nat -> list Qc.
Variable clean_strings : string -> string.
Variable shrink_to_64 : string -> string.

Local Abbreviation name1 := (name_of clean_strings shrink_to_64).
Local Abbreviation renamed1 := (renamed clean_strings shrink_to_64).
Local Abbreviation add1 := (add_mapping clean_strings shrink_to_64).

(** A run of a method that leaves the frame alone, when no branch of the
    inner loop can be taken: the result is there, the log ends with the
    warning that nothing was clustered, every row comes back under its new
    name, and the mapping sends every index to the name of its row. *)
Lemma clustering_without_merge plants method Nslices PartLoadMax Pmax :
  typed_table plants = true ->
  bounds_nonempty _mylogspace Nslices = true ->
  method ∈ ["Standard"; "MILP"; "LP"; "No clustering"] ->
  never_merges method (all_ones (default_Nunits plants)) = true ->
  exists out m,
    clustering _mylogspace clean_strings shrink_to_64 plants method Nslices PartLoadMax Pmax
    = ((if bool_decide (method ∈ ["Standard"; "MILP"]) && negb (all_ones (default_Nunits plants))
        then [NunitsNotAllOne] else []) ++ [DidNotCluster], Ok (out, m)) /\
    columns out = columns (plants_after plants) /\
    length (rows out) = length (rows plants) /\
    (forall name l, FormerIndexes m !! name = Some l -> exists i, l = [i]) /\
    forall i r, rows (plants_after plants) !! i = Some r ->
      exists u, r !! "Unit" = Some (Str u) /\
        rows out !! i
        = Some (<["Unit" := Str (sanitize clean_strings shrink_to_64
                                   (str_list [i] +:+ " - " +:+ u))]> r) /\
        (NoDup (unit_names out) ->
           NewIndex m !! i
           = Some (sanitize clean_strings shrink_to_64 (str_list [i] +:+ " - " +:+ u)) /\
           FormerIndexes m !! sanitize clean_strings shrink_to_64 (str_list [i] +:+ " - " +:+ u)
           = Some [i]).
Proof.
  intros Ht Hb Hm Hn.
  destruct (default_Nunits_pre_ready plants Ht) as (Hc & HN & Hr).
  set (t := default_Nunits plants) in *.
  destruct (fingerprints_total _mylogspace Nslices t Hb Hc Hr) as (fps & Hfps & Hlen).
  set (rs := map fill_row (rows t)).
  assert (length fps = length rs) as Hlen' by (unfold rs; by rewrite length_map).
  set (cs := map founded (units_of rs fps)).
  assert (length (rows t) = length (rows plants)) as Hrows.
  { unfold t, default_Nunits, assign_column. destruct (has_column plants "Nunits"); [done|].
    cbn [rows]. by rewrite length_map. }
  assert (Forall (fun r => ready (columns t) r = true) rs) as Hready.
  { apply Forall_forall. intros r (r0 & -> & Hin)%list_elem_of_fmap.
    apply fill_row_ready. rewrite Forall_forall in Hr. by apply Hr. }
  exists (Table (columns t) (map renamed1 cs)), (foldl add1 (Mapping ∅ ∅) cs).
  split; [|split; [|split; [|split]]].
  - unfold clustering, prepare. rewrite missing_input_None by (by apply typed_table_columns).
    fold t. rewrite check_method_plain by done.
    rewrite (cluster_units_never _ _ _ method Nslices PartLoadMax Pmax _ t fps) by done.
    fold rs. cbv beta iota. cbn [rows].
    rewrite !length_map, units_of_length by done. unfold rs. rewrite length_map.
    by rewrite Nat.eqb_refl.
  - reflexivity.
  - cbn [rows]. unfold cs. rewrite !length_map, units_of_length by done. unfold rs.
    rewrite length_map. done.
  - intros name l H. apply FormerIndexes_from in H as (c & Hc' & _ & <-).
    apply list_elem_of_fmap in Hc' as (u & -> & _). by exists u.1.
  - intros i r Hi. cbn [plants_after rows] in Hi. fold t in Hi. fold rs in Hi.
    destruct (units_of_lookup rs fps i r Hlen' Hi) as (f & Hf & Hu).
    assert (ready (columns t) r = true) as Hrr.
    { rewrite Forall_forall in Hready. apply Hready. by eapply list_elem_of_lookup_2. }
    destruct (name_of_founded clean_strings shrink_to_64 (columns t) i r f Hrr) as (u & Hunit & Hname).
    exists u. split; [done|]. rewrite <- Hname.
    assert (cs !! i = Some (founded (i, (r, f)))) as Hcs.
    { unfold cs. by rewrite list_lookup_fmap, Hu. }
    split.
    + cbn [rows]. by rewrite list_lookup_fmap, Hcs.
    + intros Hnd.
      assert (NoDup (map name1 cs)) as Hnames.
      { unfold unit_names in Hnd. cbn [rows] in Hnd. rewrite map_map in Hnd.
        apply (NoDup_fmap_1 (fun n => Some (Str n))).
        rewrite <- list_fmap_compose.
        erewrite list_fmap_ext; [exact Hnd|].
        intros j c _. unfold renamed. cbn. by rewrite lookup_insert_eq. }
      split.
      * apply (NewIndex_of _ _ cs (founded (i, (r, f)))).
        -- unfold cs. rewrite concat_former_founded, units_of_indices by done.
           apply NoDup_seq.
        -- by eapply list_elem_of_lookup_2.
        -- cbn. by left.
      * apply (FormerIndexes_of _ _ cs (founded (i, (r, f))) Hnames).
        by eapply list_elem_of_lookup_2.
Qed.

End NoMergeRun.

(** A frame with counts and without missing categories is not written
    to. *)
Lemma plants_after_id t :
  has_column t "Nunits" = true ->
  (forall r key, r ∈ rows t -> key ∈ string_keys -> r !! key <> Some NaN) ->
  plants_after t = t.
Proof.
  intros HN Hna. unfold plants_after, default_Nunits. rewrite HN.
  destruct t as [cols rs]. cbn [columns rows] in *. f_equal. clear HN.
  induction rs as [|r rs IH]; [done|]. cbn [map]. f_equal.
  - apply fill_row_id. intros key Hk. apply Hna; [by left|done].
  - apply IH. intros r' key Hr'. apply Hna. by right.
Qed.

(** ** New names that stay apart *)

Lemma rstrip_cons a s : is_space a = false -> exists t, rstrip (String a s) = String a t.
Proof. intros H. cbn [rstrip]. destruct (rstrip s); rewrite ?H; eauto. Qed.

Lemma rstrip_cons_cons a b s t :
  rstrip s = String b t -> rstrip (String a s) = String a (String b t).
Proof. intros H. cbn [rstrip]. by rewrite H. Qed.

(** A name that is written from a list with a first index below 10 keeps
    its first two characters, the bracket and the digit, when the helpers
    keep the first 64 characters. *)
Lemma sanitize_keeps_digit i l t :
  (i < 10)%nat ->
  exists d rest, pretty i = String d "" /\
    sanitize keep_string first_64 (str_list (i :: l) +:+ t) = String "[" (String d rest).
Proof.
  intros Hi.
  assert (exists d, pretty i = String d "" /\ is_space d = false) as (d & Hd & Hs).
  { do 10 (destruct i as [|i]; [eexists; split; vm_compute; reflexivity|]). lia. }
  exists d. unfold sanitize, keep_string, first_64, str_list.
  assert (exists rest, ("[" +:+ String.concat ", " (map pretty (i :: l)) +:+ "]") +:+ t
                       = String "[" (String d rest)) as (rest & ->).
  { cbn [map]. destruct l as [|j l]; cbn [map String.concat]; rewrite Hd;
      cbv [String.append]; eauto. }
  change (substring 0 64 (String "[" (String d rest)))
    with (String "[" (String d (substring 0 62 rest))).
  destruct (rstrip_cons d (substring 0 62 rest) Hs) as (t' & Ht').
  exists t'. split; [done|]. by apply rstrip_cons_cons.
Qed.

(** Helpers that keep the first 64 characters keep the names of at most
    ten plants apart. *)
Lemma first_64_keeps_names_apart n :
  (n <= 10)%nat -> names_stay_apart keep_string first_64 n.
Proof.
  intros Hn i1 i2 l1 l2 t1 t2 H1 H2 Hne E.
  destruct (sanitize_keeps_digit i1 l1 t1) as (d1 & r1 & Hd1 & E1); [lia|].
  destruct (sanitize_keeps_digit i2 l2 t2) as (d2 & r2 & Hd2 & E2); [lia|].
  rewrite E1, E2 in E. injection E as Hd _. apply Hne.
  apply (inj pretty). by rewrite Hd1, Hd2, Hd.
Qed.

(** ** The runs that merge nothing *)

Lemma plants_after_rows t : rows (plants_after t) = map (row_after t) (rows t).
Proof.
  unfold plants_after, row_after, default_Nunits, assign_column. cbn [rows].
  destruct (has_column t "Nunits"); [done|]. cbn [rows]. by rewrite map_map.
Qed.

Lemma row_after_Unit t r : row_after t r !! "Unit" = r !! "Unit".
Proof.
  unfold row_after. rewrite fill_row_other by in_list.
  destruct (has_column t "Nunits"); [done|]. by rewrite lookup_insert_ne.
Qed.

(** A frame without counts gets the count 1 on every row. *)
Lemma default_Nunits_all_ones t :
  has_column t "Nunits" = false -> all_ones (default_Nunits t) = true.
Proof.
  intros H. unfold default_Nunits, all_ones, assign_column. rewrite H. cbn [rows].
  apply forallb_forall. intros r (r0 & <- & _)%in_map_iff.
  apply bool_decide_eq_true_2. apply lookup_insert_eq.
Qed.

Section Identity.

Variable _mylogspace : Qc -> Qc -> nat -> list Qc.
Variable clean_strings : string -> string.
Variable shrink_to_64 : string -> string.


(** C5, as the code has it: 'Standard' and 'MILP' on a typed frame whose
    Nunits is not 1 on every row do not stop the run: a warning is
    logged, no units are merged (every list of FormerIndexes has one
    index, and the log ends with the warning that nothing was clustered),
    the columns are those of the frame, and row [i] of the result is row
    [i] of the frame with the empty string for a missing category and
    with its new name "[i] - Unit" in the column Unit. *)
Theorem Standard_needs_single_units plants method Nslices PartLoadMax Pmax :
  method ∈ ["Standard"; "MILP"] ->
  typed_table plants = true ->
  bounds_nonempty _mylogspace Nslices = true ->
  all_ones (default_Nunits plants) = false ->
  exists out m,
    clustering _mylogspace clean_strings shrink_to_64 plants method
               Nslices PartLoadMax Pmax
    = ([NunitsNotAllOne; DidNotCluster], Ok (out, m)) /\
    columns out = columns plants /\
    length (rows out) = length (rows plants) /\
    (forall name l, FormerIndexes m !! name = Some l -> exists i, l = [i]) /\
    forall i r, rows plants !! i = Some r ->
      exists u, r !! "Unit" = Some (Str u) /\
        rows out !! i
        = Some (<["Unit" := Str (sanitize clean_strings shrink_to_64
                                   (str_list [i] +:+ " - " +:+ u))]> (fill_row r)).
Proof.
  intros Hm Ht Hb Hones.
  assert (has_column plants "Nunits" = true) as HN.
  { destruct (has_column plants "Nunits") eqn:E; [done|].
    by rewrite default_Nunits_all_ones in Hones. }
  destruct (clustering_without_merge _mylogspace clean_strings shrink_to_64
              plants method Nslices PartLoadMax Pmax Ht Hb)
    as (out & m & Hrun & Hcols & Hlen & Hsingle & Hrows).
  { rewrite !elem_of_cons, elem_of_nil in Hm. destruct Hm as [->|[->|[]]]; in_list. }
  { unfold never_merges. rewrite Hones, andb_false_r. cbn [negb andb].
    rewrite !elem_of_cons, elem_of_nil in Hm. by destruct Hm as [->|[->|[]]]. }
  rewrite Hones, (bool_decide_eq_true_2 _ Hm) in Hrun. cbn in Hrun.
  exists out, m. split; [done|]. split.
  { rewrite Hcols. unfold plants_after, default_Nunits. by rewrite HN. }
  split; [done|]. split; [done|].
  intros i r Hi.
  assert (row_after plants r = fill_row r) as Hra by (unfold row_after; by rewrite HN).
  destruct (Hrows i (fill_row r)) as (u & Hu & Hout & _).
  { rewrite plants_after_rows.
    change (map (row_after plants) (rows plants)) with (row_after plants <$> rows plants).
    by rewrite list_lookup_fmap, Hi, <- Hra. }
  exists u. split; [|done]. by rewrite <- Hra, row_after_Unit in Hu.
Qed.

End Identity.



Lemma Standard_needs_single_units_witness :
  exists out m,
    clustering logspace_20 keep_string first_64 mixed_counts "Standard"
               default_Nslices default_PartLoadMax default_Pmax
    = ([NunitsNotAllOne; DidNotCluster], Ok (out, m)) /\
    columns out = columns mixed_counts /\
    length (rows out) = length (rows mixed_counts) /\
    (forall name l, FormerIndexes m !! name = Some l -> exists i, l = [i]) /\
    forall i r, rows mixed_counts !! i = Some r ->
      exists u, r !! "Unit" = Some (Str u) /\
        rows out !! i
        = Some (<["Unit" := Str (sanitize keep_string first_64
                                   (str_list [i] +:+ " - " +:+ u))]> (fill_row r)).
Proof.
  apply (Standard_needs_single_units logspace_20 keep_string first_64 mixed_counts "Standard");
    [in_list | vm_compute; reflexivity | vm_compute; reflexivity | vm_compute; reflexivity].
Defined.

(** 'Standard' on a frame with a count other than 1 does not return the
    frame that was passed: every unit comes back under a new name. *)
Lemma Standard_renames_the_units :
  (clustering logspace_20 keep_string first_64 mixed_counts "Standard"
              default_Nslices default_PartLoadMax default_Pmax).1
  = [NunitsNotAllOne; DidNotCluster] /\
  cell_at mixed_counts 0 "Unit" = Some (Str "A") /\
  cell_at (returned (clustering logspace_20 keep_string first_64 mixed_counts "Standard"
                                default_Nslices default_PartLoadMax default_Pmax))
          0 "Unit" = Some (Str "[0] - A") /\
  returned (clustering logspace_20 keep_string first_64 mixed_counts "Standard"
                       default_Nslices default_PartLoadMax default_Pmax)
  <> mixed_counts.
Proof.
  split; [vm_compute; reflexivity|]. split; [vm_compute; reflexivity|].
  split; [vm_compute; reflexivity|].
  intros E. apply (f_equal (fun t => cell_at t 0 "Unit")) in E.
  vm_compute in E. discriminate E.
Qed.

(** ** The merges have a result *)

Lemma in_keys_sub key l1 l2 :
  forallb (fun k => in_keys k l2) l1 = true -> in_keys key l1 = true -> key ∈ l2.
Proof.
  rewrite forallb_forall. intros H Hk. apply bool_decide_eq_true_1 in Hk.
  apply (bool_decide_eq_true_1 (key ∈ l2)). apply H. by apply list_elem_of_In.
Qed.

Lemma numeric_not_Unit key : key ∈ numeric_keys -> key <> "Unit".
Proof. intros H ->. revert H. apply (bool_decide_eq_false_1 _). reflexivity. Qed.

Lemma ready_parts cols r :
  ready cols r = true ->
  numbers_in cols r = true /\ is_str r "Unit" = true /\
  forallb (is_str r) string_keys = true /\ is_num r "Nunits" = true.
Proof. unfold ready. intros [[[H1 H2]%andb_prop H3]%andb_prop H4]%andb_prop. done. Qed.

Lemma ready_insert cols r key q :
  key ∈ numeric_keys -> ready cols r = true -> ready cols (<[key := Num q]> r) = true.
Proof.
  intros Hk (H1 & H2 & H3 & H4)%ready_parts. unfold ready.
  rewrite numbers_in_insert by done.
  rewrite is_str_insert_ne by (by apply not_eq_sym, numeric_not_Unit).
  rewrite forallb_is_str_insert by (by apply numeric_not_string).
  rewrite H2, H3. cbn [andb].
  destruct (decide (key = "Nunits")) as [->|Hne].
  - apply is_num_insert.
  - by rewrite is_num_insert_ne by done.
Qed.

Lemma ready_num cols r key :
  ready cols r = true -> key ∈ numeric_keys -> key ∈ cols ->
  exists q, r !! key = Some (Num q) /\ getn r key = Ok q.
Proof.
  intros (H1 & _)%ready_parts Hk Hc. apply is_num_getn.
  by apply (numbers_in_num cols).
Qed.

Lemma is_pos_lookup r key : is_pos r key = true -> exists q, r !! key = Some (Num q) /\ (Q2Qc 0 < q)%Qc.
Proof.
  unfold is_pos. destruct (r !! key) as [[q| |]|]; try discriminate.
  intros H%bool_decide_eq_true_1. by exists q.
Qed.

Lemma Qc_pos_nonzero (q : Qc) : (Q2Qc 0 < q)%Qc -> q <> Q2Qc 0.
Proof. intros H ->. by apply (Qclt_not_eq _ _ H). Qed.

Lemma Qc_sum_nonzero (a b : Qc) : (Q2Qc 0 < a)%Qc -> (Q2Qc 0 < b)%Qc -> (a + b)%Qc <> Q2Qc 0.
Proof. intros Ha Hb. apply Qc_pos_nonzero. by apply Qcplus_pos_pos. Qed.

Lemma average_keys_numeric avg :
  avg = average_keys_Standard \/ avg = average_keys_LP ->
  forallb (fun k => in_keys k numeric_keys) avg = true.
Proof. by intros [->| ->]. Qed.

(** One pass of the loop over the columns, on rows that are ready. *)
Lemma merge_key_total z avg cols P_old P_add ri key r :
  avg = average_keys_Standard \/ avg = average_keys_LP ->
  usable_columns cols = true -> key ∈ cols ->
  (Q2Qc 0 < P_old)%Qc -> (Q2Qc 0 < P_add)%Qc ->
  ready cols ri = true -> ready cols r = true ->
  exists r', merge_key z avg P_old P_add ri key r = Ok r' /\ ready cols r' = true.
Proof.
  intros Havg Hc Hkey Ho Ha Hi Hr. unfold merge_key.
  assert ((P_add + P_old)%Qc <> Q2Qc 0) as Hd1 by (by apply Qc_sum_nonzero).
  assert ((P_old + P_add)%Qc <> Q2Qc 0) as Hd2 by (by apply Qc_sum_nonzero).
  destruct (in_keys key avg) eqn:E1.
  { assert (key ∈ numeric_keys) as Hn
      by (by apply (in_keys_sub key avg); [apply average_keys_numeric|]).
    destruct (ready_num cols r key Hr Hn Hkey) as (a & _ & ->).
    destruct (ready_num cols ri key Hi Hn Hkey) as (b & _ & ->).
    cbn [bind]. rewrite div_Ok by done. cbn [bind].
    eexists; split; [done|]. by apply ready_insert. }
  destruct (in_keys key capacity_keys) eqn:E2.
  { assert (key ∈ numeric_keys) as Hn by (by apply (in_keys_sub key capacity_keys)).
    destruct (ready_num cols r key Hr Hn Hkey) as (a & _ & ->).
    destruct (ready_num cols ri key Hi Hn Hkey) as (b & _ & ->).
    cbn [bind]. eexists; split; [done|]. by apply ready_insert. }
  destruct (in_keys key minimum_keys) eqn:E3.
  { assert (key ∈ numeric_keys) as Hn by (by apply (in_keys_sub key minimum_keys)).
    destruct z.
    - eexists; split; [done|]. by apply ready_insert.
    - destruct (ready_num cols r key Hr Hn Hkey) as (a & _ & ->).
      destruct (ready_num cols ri key Hi Hn Hkey) as (b & _ & ->).
      cbn [bind]. rewrite div_Ok by done. cbn [bind].
      eexists; split; [done|]. by apply ready_insert. }
  destruct (key =? "RampingCost")%string eqn:E4.
  { apply String.eqb_eq in E4 as ->. unfold Cost_to_fullload.
    destruct (ready_getn cols ri "PartLoadMin" Hc Hi) as (q1 & ->); [in_list..|].
    destruct (ready_num cols ri "RampingCost" Hi) as (q2 & _ & ->); [in_list|done|].
    destruct (ready_getn cols ri "StartUpCost" Hc Hi) as (q3 & ->); [in_list..|].
    destruct (ready_num cols r "RampingCost" Hr) as (a & _ & ->); [in_list|done|].
    cbn [bind]. rewrite div_Ok by done. cbn [bind].
    eexists; split; [done|]. apply ready_insert; [in_list|done]. }
  destruct (key =? "Nunits")%string eqn:E5.
  { apply String.eqb_eq in E5 as ->.
    eexists; split; [done|]. apply ready_insert; [in_list|done]. }
  by exists r.
Qed.

Lemma merge_capacity_weighted_total z avg cols rj ri :
  avg = average_keys_Standard \/ avg = average_keys_LP ->
  usable_columns cols = true ->
  ready cols rj = true -> ready cols ri = true ->
  is_pos rj "PowerCapacity" = true -> is_pos ri "PowerCapacity" = true ->
  exists r', merge_capacity_weighted z avg cols rj ri = Ok r' /\ ready cols r' = true.
Proof.
  intros Havg Hc Hj Hi Hpj Hpi. unfold merge_capacity_weighted.
  destruct (is_pos_lookup _ _ Hpj) as (P_old & Ho & Hpo).
  destruct (is_pos_lookup _ _ Hpi) as (P_add & Ha & Hpa).
  apply getn_Ok in Ho, Ha. rewrite Ho, Ha. cbn [bind].
  apply (foldM_total _ (fun r => ready cols r = true)); [|done].
  intros key r Hkey Hr. by apply merge_key_total.
Qed.

(** The capacity of the cluster after a merge of 'Standard', 'MILP' or
    'LP clustered'. *)
Lemma merge_capacity_weighted_PowerCapacity z avg cols rj ri r' P_old P_add :
  avg = average_keys_Standard \/ avg = average_keys_LP ->
  usable_columns cols = true ->
  merge_capacity_weighted z avg cols rj ri = Ok r' ->
  rj !! "PowerCapacity" = Some (Num P_old) -> ri !! "PowerCapacity" = Some (Num P_add) ->
  r' !! "PowerCapacity" = Some (Num (P_old + P_add)%Qc).
Proof.
  intros Havg Hc H Ho Ha.
  destruct (merge_capacity_weighted_at z avg cols rj ri r' "PowerCapacity" H)
    as (Po & Pa & r0 & r1 & HPo & HPa & Hs & Hk0 & ->).
  { by apply usable_columns_NoDup. }
  { apply usable_columns_in; [done|in_list]. }
  rewrite Ho in HPo. injection HPo as <-. rewrite Ha in HPa. injection HPa as <-.
  unfold merge_key in Hs.
  replace (in_keys "PowerCapacity" avg) with false in Hs by (by destruct Havg as [->| ->]).
  change (in_keys "PowerCapacity" capacity_keys) with true in Hs. cbv iota in Hs.
  rewrite <- Hk0 in Ho. apply getn_Ok in Ho, Ha. rewrite Ho, Ha in Hs. cbn [bind] in Hs.
  injection Hs as <-. by rewrite lookup_insert_eq.
Qed.

(** The count of the cluster after such a merge. *)
Lemma merge_capacity_weighted_Nunits z avg cols rj ri r' :
  avg = average_keys_Standard \/ avg = average_keys_LP ->
  NoDup cols -> "Nunits" ∈ cols ->
  merge_capacity_weighted z avg cols rj ri = Ok r' ->
  r' !! "Nunits" = Some (Num (Q2Qc 1)).
Proof.
  intros Havg Hnd HN H.
  destruct (merge_capacity_weighted_at z avg cols rj ri r' "Nunits" H Hnd HN)
    as (Po & Pa & r0 & r1 & HPo & HPa & Hs & Hk0 & ->).
  unfold merge_key in Hs.
  replace (in_keys "Nunits" avg) with false in Hs by (by destruct Havg as [->| ->]).
  change (in_keys "Nunits" capacity_keys) with false in Hs.
  change (in_keys "Nunits" minimum_keys) with false in Hs.
  cbn [String.eqb Ascii.eqb Bool.eqb] in Hs. cbv iota in Hs.
  injection Hs as <-. by rewrite lookup_insert_eq.
Qed.

Lemma Nunits_not_averaged : in_keys "Nunits" average_keys_Integer = false.
Proof. reflexivity. Qed.

Lemma merge_key_Integer_stable ri key r r' :
  merge_key_Integer ri key r = Ok r' -> forall k, k = "Nunits" -> r' !! k = r !! k.
Proof.
  intros H k ->. destruct (decide (key = "Nunits")) as [->|Hne].
  - unfold merge_key_Integer in H. rewrite Nunits_not_averaged in H. by injection H as ->.
  - apply (merge_key_Integer_frame ri key r r' H). by apply not_eq_sym.
Qed.

Lemma merge_Integer_total cols rj ri :
  usable_columns cols = true ->
  ready cols rj = true -> ready cols ri = true ->
  is_pos rj "Nunits" = true -> is_pos ri "Nunits" = true ->
  exists r', merge_Integer cols rj ri = Ok r' /\ ready cols r' = true.
Proof.
  intros Hc Hj Hi Hpj Hpi. unfold merge_Integer.
  destruct (is_pos_lookup _ _ Hpj) as (nj & Hnj & Hpnj).
  destruct (is_pos_lookup _ _ Hpi) as (ni & Hni & Hpni).
  destruct (foldM_total (merge_key_Integer ri)
              (fun r => ready cols r = true /\ r !! "Nunits" = Some (Num nj)) cols rj)
    as (r1 & -> & Hr1 & HN1); [|done|].
  - intros key r Hkey [Hr HN]. unfold merge_key_Integer.
    destruct (in_keys key average_keys_Integer) eqn:E; [|by exists r].
    assert (key ∈ numeric_keys) as Hn by (by apply (in_keys_sub key average_keys_Integer)).
    destruct (ready_num cols r key Hr Hn Hkey) as (a & _ & ->).
    destruct (ready_num cols ri key Hi Hn Hkey) as (b & _ & ->).
    apply getn_Ok in HN as HN', Hni as Hni'. rewrite HN', Hni'. cbn [bind].
    rewrite div_Ok by (by apply Qc_sum_nonzero). cbn [bind].
    eexists; split; [done|]. split; [by apply ready_insert|].
    rewrite lookup_insert_ne; [done|]. intros ->. by rewrite Nunits_not_averaged in E.
  - cbn [bind]. apply getn_Ok in HN1, Hni. rewrite HN1, Hni. cbn [bind].
    eexists; split; [done|]. apply ready_insert; [in_list|done].
Qed.

(** The count and the capacity of the cluster after a merge of 'Integer
    clustering'. *)
Lemma merge_Integer_values cols rj ri r' a nj b ni :
  NoDup cols -> "PowerCapacity" ∈ cols ->
  merge_Integer cols rj ri = Ok r' ->
  rj !! "PowerCapacity" = Some (Num a) -> rj !! "Nunits" = Some (Num nj) ->
  ri !! "PowerCapacity" = Some (Num b) -> ri !! "Nunits" = Some (Num ni) ->
  (nj + ni)%Qc <> Q2Qc 0 /\
  r' !! "Nunits" = Some (Num (nj + ni)%Qc) /\
  r' !! "PowerCapacity" = Some (Num ((a * nj + b * ni) / (nj + ni))%Qc).
Proof.
  intros Hnd HP H Ha Hnj Hb Hni. unfold merge_Integer in H.
  apply bind_Ok_inv in H as (r1 & Hfold & H).
  apply bind_Ok_inv in H as (nj' & Hnj' & H). apply bind_Ok_inv in H as (ni' & Hni' & H).
  injection H as <-.
  assert (r1 !! "Nunits" = rj !! "Nunits") as HN1.
  { apply (foldM_stable (merge_key_Integer ri) cols (fun k => k = "Nunits")
             (fun key r r' _ => merge_key_Integer_stable ri key r r') cols rj r1); done. }
  apply getn_Ok in Hnj', Hni'. rewrite HN1, Hnj in Hnj'. injection Hnj' as <-.
  rewrite Hni in Hni'. injection Hni' as <-.
  destruct (foldM_at (merge_key_Integer ri) cols (fun k => k = "Nunits")
              (fun key r r' _ => merge_key_Integer_frame ri key r r')
              (fun key r r' _ => merge_key_Integer_stable ri key r r')
              cols rj r1 "PowerCapacity") as (r0 & r2 & Hs & Hk0 & Hst & Hr1); try done.
  unfold merge_key_Integer in Hs.
  change (in_keys "PowerCapacity" average_keys_Integer) with true in Hs. cbv iota in Hs.
  rewrite <- Hk0 in Ha. rewrite <- (Hst "Nunits" eq_refl) in Hnj.
  apply getn_Ok in Ha, Hnj, Hb, Hni. rewrite Ha, Hnj, Hb, Hni in Hs. cbn [bind] in Hs.
  apply bind_Ok_inv in Hs as (v & Hv & Hs). injection Hs as <-.
  apply div_Ok_inv in Hv as [Hd ->].
  split; [done|]. split.
  - by rewrite lookup_insert_eq.
  - rewrite lookup_insert_ne by done. rewrite Hr1. by rewrite lookup_insert_eq.
Qed.

Lemma is_pos_intro r key q : r !! key = Some (Num q) -> (Q2Qc 0 < q)%Qc -> is_pos r key = true.
Proof. intros H Hq. unfold is_pos. rewrite H. by apply bool_decide_eq_true_2. Qed.

Lemma positive_parts r :
  positive r = true -> is_pos r "PowerCapacity" = true /\ is_pos r "Nunits" = true.
Proof. by intros [H1 H2]%andb_prop. Qed.

Lemma Qc_div_pos (x y : Qc) : (Q2Qc 0 < x)%Qc -> (Q2Qc 0 < y)%Qc -> (Q2Qc 0 < x / y)%Qc.
Proof. intros Hx Hy. unfold Qcdiv. apply Qcmult_pos_pos; [done|]. by apply Qcinv_pos. Qed.

(** One pass of the inner loop on rows that are ready and positive: it
    has a result, and a merge leaves such a row. *)
Lemma try_merge_total method OnlyOnes PartLoadMax Pmax cols ri fi c :
  usable_columns cols = true -> "Nunits" ∈ cols ->
  ready cols ri = true -> positive ri = true ->
  ready cols (merged_row c) = true -> positive (merged_row c) = true ->
  exists m, try_merge method OnlyOnes PartLoadMax Pmax cols ri fi c = Ok m /\
    forall r', m = Some r' -> ready cols r' = true /\ positive r' = true.
Proof.
  intros Hc HN Hi Hpi Hj Hpj.
  destruct (positive_parts _ Hpi) as [HPi HNi]. destruct (positive_parts _ Hpj) as [HPj HNj].
  destruct (is_pos_lookup _ _ HPi) as (b & Hb & Hb0).
  destruct (is_pos_lookup _ _ HPj) as (a & Ha & Ha0).
  destruct (is_pos_lookup _ _ HNi) as (ni & Hni & Hni0).
  destruct (is_pos_lookup _ _ HNj) as (nj & Hnj & Hnj0).
  pose proof (usable_columns_NoDup cols Hc) as Hnd.
  assert (forall z avg, avg = average_keys_Standard \/ avg = average_keys_LP ->
            exists r', merge_capacity_weighted z avg cols (merged_row c) ri = Ok r' /\
                       ready cols r' = true /\ positive r' = true) as Hcw.
  { intros z avg Havg.
    destruct (merge_capacity_weighted_total z avg cols (merged_row c) ri) as (r' & Hr' & Hready);
      try done.
    exists r'. split; [done|]. split; [done|]. unfold positive.
    rewrite (is_pos_intro r' "PowerCapacity" (a + b)%Qc);
      [|by apply (merge_capacity_weighted_PowerCapacity z avg cols (merged_row c) ri)
       |by apply Qcplus_pos_pos].
    apply (is_pos_intro r' "Nunits" (Q2Qc 1));
      [by apply (merge_capacity_weighted_Nunits z avg cols (merged_row c) ri)|done]. }
  unfold try_merge.
  destruct (merge_tests_total cols PartLoadMax Pmax ri fi c Hc Hi Hj) as (ts & ->).
  cbn [bind].
  destruct (bool_decide (method ∈ ["Standard"; "MILP"]) && eligible OnlyOnes ts).
  { destruct (Hcw false average_keys_Standard) as (r' & Hr' & H1 & H2); [by left|].
    unfold merge_Standard. rewrite Hr'. cbn [bind]. eexists; split; [done|].
    intros r'' H. by injection H as <-. }
  destruct ((method =? "LP clustered")%string && t_same_type ts && OnlyOnes).
  { destruct (Hcw true average_keys_LP) as (r' & Hr' & H1 & H2); [by right|].
    unfold merge_LP_clustered. rewrite Hr'. cbn [bind]. eexists; split; [done|].
    intros r'' H. by injection H as <-. }
  destruct ((method =? "Integer clustering")%string && t_same_type ts).
  { destruct (merge_Integer_total cols (merged_row c) ri) as (r' & Hr' & Hready); try done.
    rewrite Hr'. cbn [bind]. eexists; split; [done|].
    intros r'' H. injection H as <-. split; [done|].
    destruct (merge_Integer_values cols (merged_row c) ri r' a nj b ni) as (Hd & HN' & HP');
      try done.
    { apply usable_columns_in; [done|in_list]. }
    unfold positive.
    rewrite (is_pos_intro r' "PowerCapacity" _ HP').
    - apply (is_pos_intro r' "Nunits" _ HN'). by apply Qcplus_pos_pos.
    - apply Qc_div_pos; [|by apply Qcplus_pos_pos].
      apply Qcplus_pos_pos; by apply Qcmult_pos_pos. }
  exists None. split; [done|]. intros r' H. discriminate.
Qed.

(** ** The scan over the clusters *)

Section Scan.

Variables (method : string) (OnlyOnes : bool) (PartLoadMax Pmax : Qc) (cols : list string).

Local Abbreviation try1 := (try_merge method OnlyOnes PartLoadMax Pmax cols).
Local Abbreviation scan1 := (scan method OnlyOnes PartLoadMax Pmax cols).
Local Abbreviation add_plant1 := (add_plant method OnlyOnes PartLoadMax Pmax cols).

(** The inner loop stops at the first cluster that takes the plant. *)
Lemma scan_Some i ri fi cs cs' :
  scan1 i ri fi cs = Ok (Some cs') ->
  exists l1 c l2 r',
    cs = l1 ++ c :: l2 /\
    Forall (fun c0 => try1 ri fi c0 = Ok None) l1 /\
    try1 ri fi c = Ok (Some r') /\
    cs' = l1 ++ Cluster r' (former c ++ [i]) (merged_fingerprint c) :: l2.
Proof.
  revert cs'. induction cs as [|c cs IH]; intros cs' H; [discriminate|].
  cbn [scan] in H. apply bind_Ok_inv in H as (m & Hm & H).
  destruct m as [r'|].
  - injection H as <-. exists [], c, cs, r'. by repeat split.
  - apply bind_Ok_inv in H as (m' & Hm' & H). injection H as H.
    destruct m' as [cs1|]; [|discriminate]. injection H as <-.
    destruct (IH cs1 Hm') as (l1 & c1 & l2 & r' & -> & Hl1 & Hc1 & ->).
    exists (c :: l1), c1, l2, r'. repeat split; try done. by constructor.
Qed.

Lemma scan_None i ri fi cs :
  scan1 i ri fi cs = Ok None -> Forall (fun c0 => try1 ri fi c0 = Ok None) cs.
Proof.
  induction cs as [|c cs IH]; intros H; [constructor|].
  cbn [scan] in H. apply bind_Ok_inv in H as (m & Hm & H).
  destruct m as [r'|]; [discriminate|].
  apply bind_Ok_inv in H as (m' & Hm' & H). injection H as H.
  destruct m' as [cs1|]; [discriminate|]. constructor; [done|]. by apply IH.
Qed.

(** The lists of former indices after one pass of the outer loop: the
    index of the plant has been added, once. *)
Lemma add_plant_former u cs cs' :
  add_plant1 u cs = Ok cs' ->
  concat (map former cs') ≡ₚ u.1 :: concat (map former cs).
Proof.
  destruct u as [i [ri fi]]. unfold add_plant. intros H.
  apply bind_Ok_inv in H as (m & Hm & H). destruct m as [cs1|]; injection H as <-.
  - apply scan_Some in Hm as (l1 & c & l2 & r' & -> & _ & _ & ->).
    rewrite !map_app, !concat_app. cbn [map concat former fst].
    rewrite <- !app_assoc. cbn [app].
    rewrite (app_assoc _ (former c) (i :: _)), (app_assoc _ (former c) (concat _)).
    symmetry. apply Permutation_middle.
  - rewrite map_app, concat_app. cbn [map concat former fst]. rewrite app_nil_r.
    symmetry. apply Permutation_cons_append.
Qed.

Lemma merge_loop_former_go units cs cs' :
  foldM add_plant1 units cs = Ok cs' ->
  concat (map former cs') ≡ₚ map fst units ++ concat (map former cs).
Proof.
  revert cs. induction units as [|u units IH]; intros cs H.
  - by injection H as <-.
  - cbn [foldM] in H. apply bind_Ok_inv in H as (cs1 & H1 & H).
    rewrite (IH cs1 H). rewrite (add_plant_former u cs cs1 H1).
    cbn [map]. symmetry. apply Permutation_middle.
Qed.

Lemma merge_loop_former units cs :
  merge_loop method OnlyOnes PartLoadMax Pmax cols units = Ok cs ->
  concat (map former cs) ≡ₚ map fst units.
Proof.
  intros H. unfold merge_loop in H. apply merge_loop_former_go in H.
  by rewrite app_nil_r in H.
Qed.

(** The loop has a result on plants that are ready and positive, and
    leaves clusters that are. *)
Lemma scan_total i ri fi cs :
  usable_columns cols = true -> "Nunits" ∈ cols ->
  ready cols ri = true -> positive ri = true ->
  Forall (fun c => ready cols (merged_row c) = true /\ positive (merged_row c) = true) cs ->
  exists m, scan1 i ri fi cs = Ok m /\
    forall cs', m = Some cs' ->
      Forall (fun c => ready cols (merged_row c) = true /\ positive (merged_row c) = true) cs'.
Proof.
  intros Hc HN Hi Hpi Hcs. induction Hcs as [|c cs [Hr Hp] Hcs IH].
  - exists None. split; [done|]. discriminate.
  - cbn [scan].
    destruct (try_merge_total method OnlyOnes PartLoadMax Pmax cols ri fi c)
      as (m & Hm & Hm'); try done.
    rewrite Hm. cbn [bind]. destruct m as [r'|].
    + eexists; split; [done|]. intros cs' H. injection H as <-.
      constructor; [|done]. cbn [merged_row]. by apply Hm'.
    + destruct IH as (m' & -> & Hm''). cbn [bind]. eexists; split; [done|].
      intros cs' H. destruct m' as [cs1|]; [|discriminate]. injection H as <-.
      constructor; [done|]. by apply Hm''.
Qed.

Lemma merge_loop_total_go units cs :
  usable_columns cols = true -> "Nunits" ∈ cols ->
  Forall (fun u => ready cols u.2.1 = true /\ positive u.2.1 = true) units ->
  Forall (fun c => ready cols (merged_row c) = true /\ positive (merged_row c) = true) cs ->
  exists cs', foldM add_plant1 units cs = Ok cs' /\
    Forall (fun c => ready cols (merged_row c) = true /\ positive (merged_row c) = true) cs'.
Proof.
  intros Hc HN Hu. revert cs. induction Hu as [|[i [ri fi]] units [Hr Hp] _ IH]; intros cs Hcs.
  - by exists cs.
  - cbn [foldM add_plant]. cbn in Hr, Hp.
    destruct (scan_total i ri fi cs) as (m & -> & Hm); try done. cbn [bind].
    destruct m as [cs1|]; cbn [bind]; apply IH.
    + by apply Hm.
    + apply Forall_app. split; [done|]. by apply Forall_singleton.
Qed.

Lemma merge_loop_total units :
  usable_columns cols = true -> "Nunits" ∈ cols ->
  Forall (fun u => ready cols u.2.1 = true /\ positive u.2.1 = true) units ->
  exists cs, merge_loop method OnlyOnes PartLoadMax Pmax cols units = Ok cs /\
    Forall (fun c => ready cols (merged_row c) = true /\ positive (merged_row c) = true) cs.
Proof. intros. by apply merge_loop_total_go. Qed.

End Scan.

(** ** The checks of lines 155-187 on a typed and positive frame *)

Lemma default_Nunits_positive t :
  positive_table t = true ->
  Forall (fun r => positive r = true) (rows (default_Nunits t)).
Proof.
  unfold positive_table, default_Nunits, has_column. rewrite forallb_forall. intros H.
  destruct (bool_decide ("Nunits" ∈ columns t)) eqn:HN.
  - apply Forall_forall. intros r Hr. specialize (H r (proj1 (list_elem_of_In _ _) Hr)).
    unfold positive_row, in_keys in H. rewrite HN in H. exact H.
  - apply Forall_forall. intros r' Hr'. cbn [assign_column rows] in Hr'.
    apply list_elem_of_fmap in Hr' as (r & -> & Hr).
    specialize (H r (proj1 (list_elem_of_In _ _) Hr)).
    unfold positive_row in H. apply andb_prop in H as [HP _]. unfold positive.
    apply andb_true_intro. split.
    + unfold is_pos in *. by rewrite lookup_insert_ne.
    + unfold is_pos. rewrite lookup_insert_eq. by apply bool_decide_eq_true_2.
Qed.

Lemma all_ones_Forall t :
  all_ones t = true -> Forall (fun r => r !! "Nunits" = Some (Num (Q2Qc 1))) (rows t).
Proof.
  unfold all_ones. rewrite forallb_forall. intros H. apply Forall_forall. intros r Hr.
  apply (bool_decide_eq_true_1 _). apply H. by apply list_elem_of_In.
Qed.

Lemma cell_num_lookup r key q : r !! key = Some (Num q) -> cell_num r key = q.
Proof. unfold cell_num. by intros ->. Qed.

Lemma is_whole_one r : r !! "Nunits" = Some (Num (Q2Qc 1)) -> is_whole r "Nunits" = true.
Proof. unfold is_whole. intros ->. apply bool_decide_eq_true_2. by apply Qc_is_canon. Qed.

Lemma prepared_plain method t :
  typed_table t = true -> positive_table t = true ->
  prepared method t (default_Nunits t) (all_ones (default_Nunits t)) \/
  method = "LP clustered" /\ all_ones (default_Nunits t) = false.
Proof.
  intros Ht Hp.
  destruct (decide (method = "LP clustered" /\ all_ones (default_Nunits t) = false))
    as [?|Hno]; [by right|left].
  destruct (default_Nunits_pre_ready t Ht) as (Hc & HN & Hr).
  pose proof (default_Nunits_positive t Hp) as Hpos.
  unfold prepared. repeat split; try done.
  - unfold default_Nunits, assign_column. destruct (has_column t "Nunits"); [done|].
    cbn [rows]. by rewrite length_map.
  - rewrite Forall_forall in Hr, Hpos |- *. intros r Hin. split; [by apply Hr|by apply Hpos].
  - intros ->. destruct (all_ones (default_Nunits t)); [done|]. exfalso. by apply Hno.
  - apply all_ones_Forall.
  - apply Forall2_same_length_lookup_2; [done|]. intros i r r' H1 H2.
    rewrite H1 in H2. by injection H2 as <-.
Qed.

Lemma prepared_expanded t t' :
  typed_table t = true -> positive_table t = true ->
  all_ones (default_Nunits t) = false ->
  pre_expand (default_Nunits t) = Ok t' ->
  (forall i r, rows (default_Nunits t) !! i = Some r ->
      exists r', rows t' !! i = Some r' /\
        r' !! "Nunits" = Some (Num (Q2Qc 1)) /\
        (forall key n v, key ∈ capacity_keys -> key ∈ columns (default_Nunits t) ->
           r !! "Nunits" = Some (Num n) -> r !! key = Some (Num v) ->
           r' !! key = Some (Num (n * v)%Qc)) /\
        (forall key, key <> "Nunits" ->
           ~ (key ∈ capacity_keys /\ key ∈ columns (default_Nunits t)) ->
           r' !! key = r !! key)) ->
  columns t' = columns (default_Nunits t) ->
  length (rows t') = length (rows (default_Nunits t)) ->
  prepared "LP clustered" t t' true.
Proof.
  intros Ht Hp Hones Hrun Hrows Hcols Hlen.
  destruct (default_Nunits_pre_ready t Ht) as (Hc & HN & Hr).
  pose proof (default_Nunits_positive t Hp) as Hpos.
  set (d := default_Nunits t) in *.
  assert (length (rows d) = length (rows t)) as Hlend.
  { unfold d, default_Nunits, assign_column. destruct (has_column t "Nunits"); [done|].
    cbn [rows]. by rewrite length_map. }
  assert (forall i r r', rows d !! i = Some r -> rows t' !! i = Some r' ->
            pre_ready (columns d) r' = true /\ positive r' = true /\
            r' !! "Nunits" = Some (Num (Q2Qc 1)) /\ installed r' = installed r) as Hrow.
  { intros i r r' Hi Hi'.
    destruct (Hrows i r Hi) as (r'' & Hi'' & HNu & Hcap & Hoth).
    rewrite Hi' in Hi''. injection Hi'' as <-.
    assert (r ∈ rows d) as Hin by (by eapply list_elem_of_lookup_2).
    rewrite Forall_forall in Hr, Hpos.
    destruct (pre_ready_parts _ _ (Hr r Hin)) as (H1 & H2 & H3 & H4).
    destruct (positive_parts _ (Hpos r Hin)) as [HPp HNp].
    destruct (is_pos_lookup _ _ HPp) as (P & HP & HP0).
    destruct (is_pos_lookup _ _ HNp) as (n & Hn & Hn0).
    assert (r' !! "PowerCapacity" = Some (Num (n * P)%Qc)) as HP'.
    { apply (Hcap "PowerCapacity" n P); try done; [in_list|].
      apply usable_columns_in; [done|in_list]. }
    split; [|split; [|split]].
    - apply pre_ready_intro.
      + unfold numbers_in in *. rewrite forallb_forall in H1 |- *. intros key Hk.
        specialize (H1 key Hk). destruct (in_keys key (columns d)) eqn:Hkc; [|done].
        cbn [implb] in *. apply bool_decide_eq_true_1 in Hkc.
        destruct (decide (key = "Nunits")) as [->|Hne].
        { unfold is_num. by rewrite HNu. }
        destruct (decide (key ∈ capacity_keys)) as [Hcap'|Hncap].
        * destruct (is_num_getn r key H1) as (v & Hv & _).
          unfold is_num. by rewrite (Hcap key n v).
        * unfold is_num in *. rewrite Hoth; [done|done|]. by intros [? _].
      + unfold is_str in *. rewrite Hoth; [done|done|]. intros [Hx _]. revert Hx.
        apply (bool_decide_eq_false_1 _). reflexivity.
      + rewrite forallb_forall in H3 |- *. intros key Hk. specialize (H3 key Hk).
        apply list_elem_of_In in Hk.
        unfold is_text in *. rewrite Hoth; [done| |].
        * intros ->. revert Hk. apply (bool_decide_eq_false_1 _). reflexivity.
        * intros [Hx _]. revert Hk Hx. unfold string_keys.
          rewrite !elem_of_cons, elem_of_nil.
          intros [->|[->|[->|[->|[]]]]]; apply (bool_decide_eq_false_1 _); reflexivity.
      + unfold is_num. by rewrite HNu.
    - unfold positive. rewrite (is_pos_intro r' "PowerCapacity" _ HP' (Qcmult_pos_pos _ _ Hn0 HP0)).
      by apply (is_pos_intro r' "Nunits" _ HNu).
    - done.
    - unfold installed.
      rewrite (cell_num_lookup _ _ _ HNu), (cell_num_lookup _ _ _ HP'),
        (cell_num_lookup _ _ _ Hn), (cell_num_lookup _ _ _ HP).
      ring. }
  unfold prepared. fold d. rewrite Hcols.
  split; [done|]. split; [done|]. split; [done|]. split; [by rewrite Hlen|].
  split; [|split; [done|split; [|split]]].
  - apply Forall_lookup_2. intros i r' Hi'.
    destruct (lookup_lt_is_Some_2 (rows d) i) as (r & Hi).
    { rewrite <- Hlen. by eapply lookup_lt_Some. }
    destruct (Hrow i r r' Hi Hi') as (H1 & H2 & _). done.
  - intros _. apply Forall_lookup_2. intros i r' Hi'.
    destruct (lookup_lt_is_Some_2 (rows d) i) as (r & Hi).
    { rewrite <- Hlen. by eapply lookup_lt_Some. }
    destruct (Hrow i r r' Hi Hi') as (_ & _ & H3 & _). done.
  - apply Forall2_same_length_lookup_2; [done|]. intros i r r' Hi Hi'.
    destruct (Hrow i r r' Hi Hi') as (_ & _ & H3 & H4). split; [done|].
    intros _. by apply is_whole_one.
  - intros [H|H]; [done|]. rewrite H in Hones. discriminate.
Qed.

Lemma pre_ready_expandable cols r :
  pre_ready cols r = true -> expandable cols r = true.
Proof.
  intros (H1 & _ & _ & H4)%pre_ready_parts. unfold expandable. rewrite H4. cbn [andb].
  unfold numbers_in in H1. rewrite forallb_forall in H1 |- *. intros key Hk.
  apply H1. apply list_elem_of_In. apply list_elem_of_In in Hk.
  by apply (in_keys_sub key capacity_keys); [|apply bool_decide_eq_true_2].
Qed.

(** The checks accept a typed and positive frame under every method. *)
Lemma prepare_Ok method t :
  typed_table t = true -> positive_table t = true -> method ∈ methods ->
  exists log t' OnlyOnes,
    prepare method t = (log, Ok (t', OnlyOnes)) /\ prepared method t t' OnlyOnes.
Proof.
  intros Ht Hp Hm. unfold prepare.
  rewrite missing_input_None by (by apply typed_table_columns).
  destruct (prepared_plain method t Ht Hp) as [Hplain|[-> Hones]].
  - unfold methods in Hm. rewrite !elem_of_cons, elem_of_nil in Hm.
    destruct Hm as [->|[->|[->|[->|[->|[->|[]]]]]]].
    1,2,4,6: rewrite check_method_plain by in_list; by eexists _, _, _.
    + unfold check_method.
      change (bool_decide ("LP clustered" ∈ ["Standard"; "MILP"])) with false.
      cbn [String.eqb Ascii.eqb Bool.eqb].
      destruct (all_ones (default_Nunits t)) eqn:Hones.
      * by eexists _, _, _.
      * destruct Hplain as (_ & _ & _ & _ & _ & H & _). by specialize (H eq_refl).
    + unfold check_method.
      change (bool_decide ("Integer clustering" ∈ ["Standard"; "MILP"])) with false.
      cbn [String.eqb Ascii.eqb Bool.eqb]. by eexists _, _, _.
  - destruct (default_Nunits_pre_ready t Ht) as (Hc & HN & Hr).
    destruct (pre_expand_spec (default_Nunits t)) as (t' & Hrun & Hcols & Hlen & Hrows).
    { unfold has_column. by apply bool_decide_eq_true_2. }
    { apply forallb_forall. intros r Hin. apply pre_ready_expandable.
      rewrite Forall_forall in Hr. apply Hr. by apply list_elem_of_In. }
    unfold check_method. rewrite Hones.
    change (bool_decide ("LP clustered" ∈ ["Standard"; "MILP"])) with false.
    cbn [String.eqb Ascii.eqb Bool.eqb]. rewrite Hrun. cbn [bind].
    eexists _, _, _. split; [done|]. by apply prepared_expanded.
Qed.

(** ** The corrections after the merge have a result *)

Lemma ramping_row_other r key : key <> "RampingCost" -> ramping_row r !! key = r !! key.
Proof.
  intros Hne. unfold ramping_row.
  destruct (r !! "RampingCost") as [[rc| |]|]; try done.
  destruct (r !! "PowerCapacity") as [[p| |]|]; try done.
  destruct (r !! "StartUpCost") as [[s| |]|]; try done.
  destruct (decide (rc = Q2Qc 0)); [|done]. by rewrite lookup_insert_ne.
Qed.

Lemma last_Some_snoc {A} (l : list A) : l <> [] -> exists front x, l = front ++ [x].
Proof.
  induction l as [|x l IH] using rev_ind; [done|]. intros _. by exists l, x.
Qed.

Section PostProcess.

Variable clean_strings : string -> string.
Variable shrink_to_64 : string -> string.

Local Abbreviation renamed1 := (renamed clean_strings shrink_to_64).

Lemma renamed_other c key : key <> "Unit" -> renamed1 c !! key = merged_row c !! key.
Proof. intros H. unfold renamed. by rewrite lookup_insert_ne. Qed.

Lemma renamed_ready cols c :
  ready cols (merged_row c) = true -> ready cols (renamed1 c) = true.
Proof.
  intros (H1 & H2 & H3 & H4)%ready_parts. unfold ready.
  apply andb_true_intro; split;
    [apply andb_true_intro; split; [apply andb_true_intro; split|]|].
  - unfold numbers_in in *. rewrite forallb_forall in H1 |- *. intros key Hk.
    specialize (H1 key Hk). unfold is_num in *. rewrite renamed_other; [done|].
    apply numeric_not_Unit. by apply list_elem_of_In.
  - unfold is_str, renamed. by rewrite lookup_insert_eq.
  - rewrite forallb_forall in H3 |- *. intros key Hk. specialize (H3 key Hk).
    unfold is_str in *. rewrite renamed_other; [done|].
    intros ->. apply list_elem_of_In in Hk. revert Hk.
    apply (bool_decide_eq_false_1 _). reflexivity.
  - unfold is_num in *. by rewrite renamed_other.
Qed.

Lemma renamed_positive c : positive (merged_row c) = true -> positive (renamed1 c) = true.
Proof. unfold positive, is_pos. by rewrite !renamed_other. Qed.

(** The corrections have a result on clusters that are ready and
    positive, and do not touch the names. *)
Lemma post_process_total method cols cs :
  usable_columns cols = true ->
  Forall (fun c => ready cols (merged_row c) = true /\ positive (merged_row c) = true) cs ->
  (method = "LP clustered" -> "RampingCost" ∈ cols) ->
  (method = "Integer clustering" -> cs <> []) ->
  exists final,
    post_process method cols (map renamed1 cs) = Ok final /\
    length final = length cs /\
    map (fun r => r !! "Unit") final = map (fun r => r !! "Unit") (map renamed1 cs).
Proof.
  intros Hc Hcs HLP HInt. unfold post_process.
  assert (Forall (fun r => ready cols r = true /\ positive r = true) (map renamed1 cs)) as Hrs.
  { apply Forall_forall. intros r (c & -> & Hin)%list_elem_of_fmap.
    rewrite Forall_forall in Hcs. destruct (Hcs c Hin) as [H1 H2].
    split; [by apply renamed_ready|by apply renamed_positive]. }
  destruct (method =? "LP clustered")%string eqn:E1.
  { apply String.eqb_eq in E1. specialize (HLP E1).
    rewrite mapM_ramping.
    - replace (forallb ramping_defined (map renamed1 cs)) with true.
      + eexists; split; [done|]. split; [by rewrite !length_map|].
        rewrite (map_map ramping_row). apply map_ext. intros r. by apply ramping_row_other.
      + symmetry. apply forallb_forall. intros r Hin%list_elem_of_In.
        rewrite Forall_forall in Hrs. destruct (Hrs r Hin) as [_ [HP _]%positive_parts].
        destruct (is_pos_lookup _ _ HP) as (p & Hp & Hp0).
        unfold ramping_defined, num_is. rewrite Hp.
        rewrite (bool_decide_eq_false_2 (Some (Num p) = Some (Num (Q2Qc 0)))).
        * by rewrite andb_false_r.
        * intros H. injection H as ->. by apply (Qc_pos_nonzero _ Hp0).
    - apply forallb_forall. intros r Hin%list_elem_of_In.
      rewrite Forall_forall in Hrs. destruct (Hrs r Hin) as [Hr _].
      unfold ramping_typed.
      destruct (ready_num cols r "RampingCost" Hr) as (q1 & H1 & _); [in_list|done|].
      destruct (ready_num cols r "PowerCapacity" Hr) as (q2 & H2 & _);
        [in_list|apply usable_columns_in; [done|in_list]|].
      destruct (ready_num cols r "StartUpCost" Hr) as (q3 & H3 & _);
        [in_list|apply usable_columns_in; [done|in_list]|].
      unfold is_num. by rewrite H1, H2, H3. }
  destruct (method =? "Integer clustering")%string eqn:E2.
  { apply String.eqb_eq in E2. specialize (HInt E2).
    destruct (last_Some_snoc (map renamed1 cs)) as (front & r & Hsnoc).
    { by destruct cs. }
    rewrite Hsnoc in Hrs |- *. apply Forall_app in Hrs as [Hfront Hr].
    apply Forall_singleton in Hr as [Hr Hp].
    destruct (positive_parts _ Hp) as [_ HN].
    destruct (is_pos_lookup _ _ HN) as (nu & Hnu & Hnu0).
    destruct (round_Nunits_last cols front r nu) as (r' & Hrun & _ & _ & Hoth).
    - apply forallb_forall. intros r0 Hin%list_elem_of_In.
      rewrite Forall_forall in Hfront. destruct (Hfront r0 Hin) as [(_ & _ & _ & H)%ready_parts _].
      done.
    - unfold rescale_ready. destruct (ready_parts _ _ Hr) as (H1 & _ & _ & H4).
      rewrite H4. unfold num_is. rewrite Hnu.
      rewrite (bool_decide_eq_false_2 (Some (Num nu) = Some (Num (Q2Qc 0)))).
      + cbn [negb andb]. unfold numbers_in in H1. rewrite forallb_forall in H1 |- *.
        intros key Hk. apply H1. apply list_elem_of_In. apply list_elem_of_In in Hk.
        by apply (in_keys_sub key rescaled_keys); [|apply bool_decide_eq_true_2].
      + intros H. injection H as ->. by apply (Qc_pos_nonzero _ Hnu0).
    - done.
    - rewrite Hrun. eexists; split; [done|]. split.
      + rewrite <- (length_map renamed1 cs), Hsnoc. by rewrite !length_app.
      + rewrite !map_app. cbn [map]. rewrite Hoth; [done|done|].
        intros [Hx _]. revert Hx. apply (bool_decide_eq_false_1 _). reflexivity. }
  eexists; split; [done|]. split; [by rewrite length_map|done].
Qed.

End PostProcess.

(** ** The whole function on a typed and positive frame *)

Section Stages.

Variable _mylogspace : Qc -> Qc -> nat -> list Qc.
Variable clean_strings : string -> string.
Variable shrink_to_64 : string -> string.

Local Abbreviation name1 := (name_of clean_strings shrink_to_64).
Local Abbreviation renamed1 := (renamed clean_strings shrink_to_64).
Local Abbreviation add1 := (add_mapping clean_strings shrink_to_64).

(** [clustering] returns a frame and a mapping, and these are the stages
    that lead to them. *)
Lemma clustering_stages plants method Nslices PartLoadMax Pmax :
  typed_table plants = true -> positive_table plants = true ->
  bounds_nonempty _mylogspace Nslices = true ->
  method ∈ methods ->
  (method = "LP clustered" -> has_column plants "RampingCost" = true) ->
  (method = "Integer clustering" -> rows plants <> []) ->
  exists log t' OnlyOnes fps cs final,
    prepare method plants = (log, Ok (t', OnlyOnes)) /\
    prepared method plants t' OnlyOnes /\
    length fps = length (rows t') /\
    merge_loop method OnlyOnes PartLoadMax Pmax (columns t')
               (units_of (map fill_row (rows t')) fps) = Ok cs /\
    Forall (fun c => ready (columns t') (merged_row c) = true /\
                     positive (merged_row c) = true) cs /\
    post_process method (columns t') (map renamed1 cs) = Ok final /\
    length final = length cs /\
    map (fun r => r !! "Unit") final = map (fun c => Some (Str (name1 c))) cs /\
    clustering _mylogspace clean_strings shrink_to_64 plants method Nslices PartLoadMax Pmax
    = (log ++ [if (length (rows t') =? length final)%nat then DidNotCluster
               else Clustered (length (rows t')) (length final)],
       Ok (Table (columns t') final, foldl add1 (Mapping ∅ ∅) cs)).
Proof.
  intros Ht Hp Hb Hm HLP HInt.
  destruct (prepare_Ok method plants Ht Hp Hm) as (log & t' & oo & Hprep & Hpd).
  pose proof Hpd as (Hc & HN & Hcols & Hlen & Hrows & _).
  destruct (fingerprints_total _mylogspace Nslices t' Hb Hc) as (fps & Hfps & Hlenf).
  { eapply Forall_impl; [exact Hrows|]. by intros r [? _]. }
  set (rs := map fill_row (rows t')).
  assert (Forall (fun u => ready (columns t') u.2.1 = true /\ positive u.2.1 = true)
                 (units_of rs fps)) as Hunits.
  { apply Forall_forall. intros u Hu. apply units_of_rows in Hu.
    apply list_elem_of_fmap in Hu as (r & -> & Hin).
    rewrite Forall_forall in Hrows. destruct (Hrows r Hin) as [H1 H2].
    split; [by apply fill_row_ready|].
    unfold positive, is_pos in *. rewrite !fill_row_other; [done|in_list..]. }
  destruct (merge_loop_total method oo PartLoadMax Pmax (columns t') (units_of rs fps)
              Hc HN Hunits) as (cs & Hloop & Hcs).
  destruct (post_process_total clean_strings shrink_to_64 method (columns t') cs Hc Hcs)
    as (final & Hpost & Hlenp & Hnames).
  { intros ->. rewrite Hcols. specialize (HLP eq_refl). unfold has_column in HLP.
    apply bool_decide_eq_true_1 in HLP. unfold default_Nunits, assign_column.
    destruct (has_column plants "Nunits"); [done|]. cbn [columns]. apply elem_of_app. by left. }
  { intros ->. specialize (HInt eq_refl). intros ->.
    apply merge_loop_former in Hloop. cbn in Hloop. symmetry in Hloop.
    apply Permutation_nil_r in Hloop.
    assert (length (map fst (units_of rs fps)) = 0%nat) as H0 by (by rewrite Hloop).
    rewrite length_map, units_of_length in H0 by (unfold rs; by rewrite length_map).
    unfold rs in H0. rewrite length_map, Hlen in H0. by destruct (rows plants). }
  exists log, t', oo, fps, cs, final.
  split; [done|]. split; [done|]. split; [done|]. split; [done|]. split; [done|].
  split; [done|]. split; [done|]. split.
  { rewrite Hnames, map_map. apply map_ext. intros c. unfold renamed.
    by rewrite lookup_insert_eq. }
  unfold clustering. rewrite Hprep. unfold cluster_units. rewrite Hfps. cbn [bind].
  rewrite fill_strings_Ok by done. cbn [bind columns rows].
  fold rs. fold (units_of rs fps). rewrite Hloop. cbn [bind].
  rewrite rename_all_Ok.
  2:{ intros c Hin. apply (NewName_total _ _ (columns t')).
      rewrite Forall_forall in Hcs. by destruct (Hcs c Hin). }
  cbn [bind]. rewrite Hpost. cbn [bind rows]. reflexivity.
Qed.

End Stages.

(** ** The mapping is a partition of the original indices *)

Lemma NoDup_concat_unique (cs : list cluster) c1 c2 i :
  NoDup (concat (map former cs)) -> c1 ∈ cs -> c2 ∈ cs ->
  i ∈ former c1 -> i ∈ former c2 -> c1 = c2.
Proof.
  induction cs as [|c cs IH]; intros Hnd H1 H2 Hi1 Hi2.
  { by apply elem_of_nil in H1. }
  cbn [map concat] in Hnd. apply NoDup_app in Hnd as (_ & Hdisj & Hnd).
  assert (forall c', c' ∈ cs -> i ∈ former c' -> i ∈ concat (map former cs)) as Hin.
  { intros c' Hc' Hi'. apply elem_of_concat. exists (former c'). split; [done|].
    apply list_elem_of_fmap. by exists c'. }
  apply elem_of_cons in H1 as [->|H1]; apply elem_of_cons in H2 as [->|H2].
  - done.
  - exfalso. apply (Hdisj i Hi1). by apply (Hin c2).
  - exfalso. apply (Hdisj i Hi2). by apply (Hin c1).
  - by apply IH.
Qed.

Lemma NoDup_concat_each (cs : list cluster) c :
  NoDup (concat (map former cs)) -> c ∈ cs -> NoDup (former c).
Proof.
  induction cs as [|c' cs IH]; intros Hnd Hc.
  { by apply elem_of_nil in Hc. }
  cbn [map concat] in Hnd. apply NoDup_app in Hnd as (Hnd1 & _ & Hnd2).
  apply elem_of_cons in Hc as [->|Hc]; [done|by apply IH].
Qed.

(** ** The merge test of 'LP clustered' *)

(** C1, as the code has it: under 'LP clustered' (where the flag
    [OnlyOnes] is set when the merging loop starts) a plant merges into a
    cluster exactly when the two agree on Zone, Technology, Fuel and
    CHPType.  The fingerprints, [PartLoadMax] and [Pmax] have no part in
    it. *)
Theorem LP_clustered_merges_on_same_type PartLoadMax Pmax cols ri fi c :
  usable_columns cols = true -> "Nunits" ∈ cols ->
  ready cols ri = true -> positive ri = true ->
  ready cols (merged_row c) = true -> positive (merged_row c) = true ->
  exists st, same_type ri (merged_row c) = Ok st /\
    (st = true ->
       exists r', try_merge "LP clustered" true PartLoadMax Pmax cols ri fi c = Ok (Some r')) /\
    (st = false ->
       try_merge "LP clustered" true PartLoadMax Pmax cols ri fi c = Ok None).
Proof.
  intros Hc HN Hi Hpi Hj Hpj.
  destruct (merge_tests_total cols PartLoadMax Pmax ri fi c Hc Hi Hj) as (ts & Hts).
  exists (t_same_type ts). split; [by apply (merge_tests_same_type PartLoadMax Pmax ri fi)|].
  unfold try_merge. rewrite Hts. cbn [bind].
  change (bool_decide ("LP clustered" ∈ ["Standard"; "MILP"])) with false.
  cbn [andb String.eqb Ascii.eqb Bool.eqb].
  split; intros ->; cbn [andb]; [|done].
  destruct (positive_parts _ Hpi) as [HPi _]. destruct (positive_parts _ Hpj) as [HPj _].
  destruct (merge_capacity_weighted_total true average_keys_LP cols (merged_row c) ri)
    as (r' & Hr' & _); try done; [by right|].
  unfold merge_LP_clustered. rewrite Hr'. by exists r'.
Qed.

Lemma LP_clustered_merges_on_same_type_witness :
  exists st, same_type heavy_B (merged_row (Cluster heavy_A [0%nat] fingerprint_heavy_A)) = Ok st /\
    (st = true ->
       exists r', try_merge "LP clustered" true default_PartLoadMax default_Pmax sample_columns
                    heavy_B fingerprint_heavy_B (Cluster heavy_A [0%nat] fingerprint_heavy_A)
                  = Ok (Some r')) /\
    (st = false ->
       try_merge "LP clustered" true default_PartLoadMax default_Pmax sample_columns
         heavy_B fingerprint_heavy_B (Cluster heavy_A [0%nat] fingerprint_heavy_A) = Ok None).
Proof.
  apply (LP_clustered_merges_on_same_type default_PartLoadMax default_Pmax sample_columns
           heavy_B fingerprint_heavy_B (Cluster heavy_A [0%nat] fingerprint_heavy_A));
    [vm_compute; reflexivity | in_list | vm_compute; reflexivity..].
Defined.

(** Two plants of one type with different fingerprints, not flexible and
    larger than [Pmax]: the threshold test fails, 'LP clustered' merges
    them all the same, 'Standard' does not. *)
Lemma LP_clustered_merges_ineligible_units :
  fingerprint logspace_20 default_Nslices heavy_A = Ok fingerprint_heavy_A /\
  fingerprint logspace_20 default_Nslices heavy_B = Ok fingerprint_heavy_B /\
  merge_tests default_PartLoadMax default_Pmax heavy_B fingerprint_heavy_B
              (Cluster heavy_A [0%nat] fingerprint_heavy_A)
  = Ok (Tests true false false false false) /\
  eligible true (Tests true false false false false) = false /\
  merges (try_merge "LP clustered" true default_PartLoadMax default_Pmax sample_columns
            heavy_B fingerprint_heavy_B (Cluster heavy_A [0%nat] fingerprint_heavy_A)) = true /\
  try_merge "Standard" true default_PartLoadMax default_Pmax sample_columns
            heavy_B fingerprint_heavy_B (Cluster heavy_A [0%nat] fingerprint_heavy_A)
  = Ok None /\
  (exists out m,
     clustering logspace_20 keep_string first_64 two_heavy "LP clustered"
                default_Nslices default_PartLoadMax default_Pmax
     = ([Clustered 2 1], Ok (out, m)) /\
     FormerIndexes m !! "[0, 1] - BE - COMC - GAS -" = Some [0%nat; 1%nat]) /\
  (exists out m,
     clustering logspace_20 keep_string first_64 two_heavy "Standard"
                default_Nslices default_PartLoadMax default_Pmax
     = ([DidNotCluster], Ok (out, m))).
Proof.
  split; [vm_compute; reflexivity|]. split; [vm_compute; reflexivity|].
  split; [vm_compute; reflexivity|]. split; [reflexivity|].
  split; [vm_compute; reflexivity|].
  split; [vm_compute; reflexivity|].
  split.
  - eexists _, _. split; [vm_compute; reflexivity|]. vm_compute; reflexivity.
  - eexists _, _. vm_compute; reflexivity.
Qed.

(** ** Whole numbers and rounding *)

Lemma Qfloor_Q2Qc_Z (z : Z) : Qfloor (Q2Qc (inject_Z z)) = z.
Proof.
  cbn [this Q2Qc]. rewrite (Qfloor_comp _ _ (Qred_correct (inject_Z z))). apply Qfloor_Z.
Qed.

Lemma whole_iff (q : Qc) :
  q = Q2Qc (inject_Z (Qfloor q)) <-> exists z, q = Q2Qc (inject_Z z).
Proof.
  split; [by eexists|]. intros (z & ->). by rewrite Qfloor_Q2Qc_Z.
Qed.

Lemma whole_plus (a b : Qc) :
  a = Q2Qc (inject_Z (Qfloor a)) -> b = Q2Qc (inject_Z (Qfloor b)) ->
  (a + b)%Qc = Q2Qc (inject_Z (Qfloor (a + b)%Qc)).
Proof.
  intros Ha Hb. apply whole_iff. exists (Qfloor a + Qfloor b)%Z.
  rewrite Ha, Hb at 1. apply Qc_is_canon. cbn [this Q2Qc Qcplus].
  rewrite !Qred_correct. by rewrite inject_Z_plus.
Qed.

Lemma np_round_whole (q : Qc) : q = Q2Qc (inject_Z (Qfloor q)) -> np_round q = q.
Proof.
  intros Hq. unfold np_round. rewrite <- Hq.
  replace (q - q)%Qc with (Q2Qc 0) by ring.
  rewrite decide_True; [done|]. reflexivity.
Qed.

Lemma is_whole_lookup r key :
  is_whole r key = true ->
  exists q, r !! key = Some (Num q) /\ q = Q2Qc (inject_Z (Qfloor q)).
Proof.
  unfold is_whole. destruct (r !! key) as [[q| |]|]; try discriminate.
  intros H%bool_decide_eq_true_1. by exists q.
Qed.

Lemma is_whole_intro r key q :
  r !! key = Some (Num q) -> q = Q2Qc (inject_Z (Qfloor q)) -> is_whole r key = true.
Proof. intros H Hq. unfold is_whole. rewrite H. by apply bool_decide_eq_true_2. Qed.

(** ** Sums over the rows *)

Lemma total_app f l1 l2 : total f (l1 ++ l2) = (total f l1 + total f l2)%Qc.
Proof.
  induction l1 as [|r l1 IH]; cbn [total foldr app].
  - by rewrite Qcplus_0_l.
  - fold (total f (l1 ++ l2)). fold (total f l1). rewrite IH. ring.
Qed.

Lemma total_cons f r l : total f (r :: l) = (f r + total f l)%Qc.
Proof. reflexivity. Qed.

Lemma total_ext f g l : (forall r, r ∈ l -> f r = g r) -> total f l = total g l.
Proof.
  induction l as [|r l IH]; intros H; [done|].
  rewrite !total_cons, H by (by left). rewrite IH; [done|]. intros; apply H. by right.
Qed.

Lemma total_map f (h : gmap string cell -> gmap string cell) l :
  total f (map h l) = total (fun r => f (h r)) l.
Proof. induction l as [|r l IH]; [done|]. cbn [map]. by rewrite !total_cons, IH. Qed.

Lemma total_Forall2 f g l1 l2 :
  Forall2 (fun r1 r2 => g r2 = f r1) l1 l2 -> total g l2 = total f l1.
Proof.
  induction 1 as [|r1 r2 l1 l2 H _ IH]; [done|]. by rewrite !total_cons, H, IH.
Qed.

Lemma total_clusters f (l1 l2 : list cluster) c :
  total f (map merged_row (l1 ++ c :: l2))
  = (total f (map merged_row l1) + f (merged_row c) + total f (map merged_row l2))%Qc.
Proof. rewrite map_app, total_app. cbn [map]. rewrite total_cons. ring. Qed.

(** ** What a merge does to the capacities *)

Lemma eligible_OnlyOnes OnlyOnes ts : eligible OnlyOnes ts = true -> OnlyOnes = true.
Proof. unfold eligible. by destruct OnlyOnes. Qed.

Lemma Standard_not_Integer method :
  method ∈ ["Standard"; "MILP"] -> method <> "Integer clustering".
Proof. intros H ->. revert H. apply (bool_decide_eq_false_1 _). reflexivity. Qed.

Lemma try_merge_sums method OnlyOnes PartLoadMax Pmax cols ri fi c r' :
  usable_columns cols = true -> "Nunits" ∈ cols ->
  ready cols ri = true -> ready cols (merged_row c) = true ->
  (method <> "Integer clustering" -> OnlyOnes = true ->
     ri !! "Nunits" = Some (Num (Q2Qc 1)) /\
     merged_row c !! "Nunits" = Some (Num (Q2Qc 1))) ->
  (method = "Integer clustering" ->
     is_whole ri "Nunits" = true /\ is_whole (merged_row c) "Nunits" = true) ->
  try_merge method OnlyOnes PartLoadMax Pmax cols ri fi c = Ok (Some r') ->
  installed r' = (installed (merged_row c) + installed ri)%Qc /\
  (method <> "Integer clustering" ->
     capacity r' = (capacity (merged_row c) + capacity ri)%Qc /\
     r' !! "Nunits" = Some (Num (Q2Qc 1))) /\
  (method = "Integer clustering" -> is_whole r' "Nunits" = true).
Proof.
  intros Hc HN Hi Hj Hones Hwhole H.
  pose proof (usable_columns_NoDup cols Hc) as Hnd.
  assert ("PowerCapacity" ∈ cols) as HP by (apply usable_columns_in; [done|in_list]).
  destruct (ready_num cols ri "PowerCapacity" Hi) as (b & Hb & _); [in_list|done|].
  destruct (ready_num cols (merged_row c) "PowerCapacity" Hj) as (a & Ha & _); [in_list|done|].
  destruct (ready_num cols ri "Nunits" Hi) as (ni & Hni & _); [in_list|done|].
  destruct (ready_num cols (merged_row c) "Nunits" Hj) as (nj & Hnj & _); [in_list|done|].
  assert (forall z avg, avg = average_keys_Standard \/ avg = average_keys_LP ->
            method <> "Integer clustering" -> OnlyOnes = true ->
            merge_capacity_weighted z avg cols (merged_row c) ri = Ok r' ->
            installed r' = (installed (merged_row c) + installed ri)%Qc /\
            (method <> "Integer clustering" ->
               capacity r' = (capacity (merged_row c) + capacity ri)%Qc /\
               r' !! "Nunits" = Some (Num (Q2Qc 1))) /\
            (method = "Integer clustering" -> is_whole r' "Nunits" = true)) as Hcw.
  { intros z avg Havg Hne Hoo Hr'.
    destruct (Hones Hne Hoo) as [H1 H2].
    rewrite Hni in H1. injection H1 as ->. rewrite Hnj in H2. injection H2 as ->.
    pose proof (merge_capacity_weighted_PowerCapacity z avg cols _ _ _ a b Havg Hc Hr' Ha Hb)
      as HP'.
    pose proof (merge_capacity_weighted_Nunits z avg cols _ _ _ Havg Hnd HN Hr') as HN'.
    unfold installed, capacity.
    rewrite (cell_num_lookup _ _ _ HP'), (cell_num_lookup _ _ _ HN'),
      (cell_num_lookup _ _ _ Ha), (cell_num_lookup _ _ _ Hb),
      (cell_num_lookup _ _ _ Hni), (cell_num_lookup _ _ _ Hnj).
    split; [ring|]. split; [done|]. intros Hm. by destruct Hne. }
  apply try_merge_Some in H as (ts & _ & [(Hm & He & Hr')|[(-> & _ & Hoo & Hr')|(-> & _ & Hr')]]).
  - apply (Hcw false average_keys_Standard); try done; [by left| |].
    + by apply Standard_not_Integer.
    + by apply (eligible_OnlyOnes _ ts).
  - apply (Hcw true average_keys_LP); try done. by right.
  - destruct (merge_Integer_values cols (merged_row c) ri r' a nj b ni) as (Hd & HN' & HP');
      try done.
    split; [|split; [done|]].
    + unfold installed.
      rewrite (cell_num_lookup _ _ _ HP'), (cell_num_lookup _ _ _ HN'),
        (cell_num_lookup _ _ _ Ha), (cell_num_lookup _ _ _ Hb),
        (cell_num_lookup _ _ _ Hni), (cell_num_lookup _ _ _ Hnj).
      field. exact Hd.
    + intros _. destruct (Hwhole eq_refl) as [Hwi Hwj].
      destruct (is_whole_lookup _ _ Hwi) as (qi & Hqi & Hqi').
      destruct (is_whole_lookup _ _ Hwj) as (qj & Hqj & Hqj').
      rewrite Hni in Hqi. injection Hqi as <-. rewrite Hnj in Hqj. injection Hqj as <-.
      apply (is_whole_intro r' "Nunits" _ HN'). by apply whole_plus.
Qed.

(** ** The loop keeps the capacities *)

Section Accounting.

Variables (method : string) (OnlyOnes : bool) (PartLoadMax Pmax : Qc) (cols : list string).
Hypothesis cols_usable : usable_columns cols = true.
Hypothesis cols_Nunits : "Nunits" ∈ cols.

Lemma add_plant_accounted u rs cs cs' :
  accounted method OnlyOnes cols rs cs ->
  readable method OnlyOnes cols u.2.1 ->
  add_plant method OnlyOnes PartLoadMax Pmax cols u cs = Ok cs' ->
  accounted method OnlyOnes cols (rs ++ [u.2.1]) cs'.
Proof.
  destruct u as [i [ri fi]]. cbn [fst snd].
  intros (Hinv & Hinst & Hcap & Hone & Hwh) (Hr & Hp & Hrone & Hrwh) H.
  unfold add_plant in H. apply bind_Ok_inv in H as (m & Hm & H).
  destruct m as [cs1|]; injection H as <-.
  - apply scan_Some in Hm as (l1 & c & l2 & r' & -> & _ & Hmerge & ->).
    apply Forall_app in Hinv as [Hinv1 Hinv2].
    apply Forall_cons in Hinv2 as [[Hcr Hcp] Hinv2].
    destruct (try_merge_total method OnlyOnes PartLoadMax Pmax cols ri fi c)
      as (m & Hm & Hm'); try done.
    rewrite Hmerge in Hm. injection Hm as <-. destruct (Hm' r' eq_refl) as [Hr'r Hr'p].
    destruct (try_merge_sums method OnlyOnes PartLoadMax Pmax cols ri fi c r')
      as (Hs1 & Hs2 & Hs3); try done.
    { intros Hne Hoo. split; [by apply Hrone|].
      specialize (Hone Hne Hoo). apply Forall_app in Hone as [_ Hone].
      by apply Forall_cons in Hone as [? _]. }
    { intros Hmeth. split; [by apply Hrwh|].
      specialize (Hwh Hmeth). apply Forall_app in Hwh as [_ Hwh].
      by apply Forall_cons in Hwh as [? _]. }
    unfold accounted. split; [|split; [|split; [|split]]].
    + apply Forall_app. split; [done|]. by constructor.
    + rewrite total_clusters, total_app in *. cbn [merged_row total foldr].
      rewrite Hs1, <- Hinst. ring.
    + intros Hne. specialize (Hcap Hne). destruct (Hs2 Hne) as [Hs2' _].
      rewrite total_clusters, total_app in *. cbn [merged_row total foldr].
      rewrite Hs2', <- Hcap. ring.
    + intros Hne Hoo. specialize (Hone Hne Hoo). destruct (Hs2 Hne) as [_ Hs2'].
      apply Forall_app in Hone as [Hone1 Hone2]. apply Forall_cons in Hone2 as [_ Hone2].
      apply Forall_app. split; [done|]. by constructor.
    + intros Hmeth. specialize (Hwh Hmeth).
      apply Forall_app in Hwh as [Hwh1 Hwh2]. apply Forall_cons in Hwh2 as [_ Hwh2].
      apply Forall_app. split; [done|]. constructor; [|done]. by apply Hs3.
  - unfold accounted. split; [|split; [|split; [|split]]].
    + apply Forall_app. split; [done|]. by apply Forall_singleton.
    + rewrite map_app, !total_app. cbn [map merged_row]. by rewrite Hinst.
    + intros Hne. rewrite map_app, !total_app. cbn [map merged_row]. by rewrite Hcap.
    + intros Hne Hoo. apply Forall_app. split; [by apply Hone|].
      apply Forall_singleton. by apply Hrone.
    + intros Hmeth. apply Forall_app. split; [by apply Hwh|].
      apply Forall_singleton. by apply Hrwh.
Qed.

Lemma merge_loop_accounted_go units rs cs cs' :
  accounted method OnlyOnes cols rs cs ->
  Forall (fun u => readable method OnlyOnes cols u.2.1) units ->
  foldM (add_plant method OnlyOnes PartLoadMax Pmax cols) units cs = Ok cs' ->
  accounted method OnlyOnes cols (rs ++ map (fun u => u.2.1) units) cs'.
Proof.
  intros Hacc Hu. revert rs cs Hacc. induction Hu as [|u units Hr _ IH]; intros rs cs Hacc H.
  - injection H as <-. by rewrite app_nil_r.
  - cbn [foldM] in H. apply bind_Ok_inv in H as (cs1 & H1 & H).
    cbn [map]. rewrite (cons_middle _ rs), app_assoc.
    apply (IH _ cs1); [|done]. by apply (add_plant_accounted u rs cs cs1).
Qed.

Lemma merge_loop_accounted units cs :
  Forall (fun u => readable method OnlyOnes cols u.2.1) units ->
  merge_loop method OnlyOnes PartLoadMax Pmax cols units = Ok cs ->
  accounted method OnlyOnes cols (map (fun u => u.2.1) units) cs.
Proof.
  intros Hu H. apply (merge_loop_accounted_go units [] [] cs); [|done|done].
  unfold accounted. by repeat split.
Qed.

End Accounting.

(** ** The corrections keep the capacities *)

Lemma mapM_Forall2 {A B} (f : A -> result B) l l' :
  mapM f l = Ok l' -> Forall2 (fun x y => f x = Ok y) l l'.
Proof.
  revert l'. induction l as [|x l IH]; intros l' H.
  - injection H as <-. constructor.
  - cbn [mapM] in H. apply bind_Ok_inv in H as (y & Hy & H).
    apply bind_Ok_inv in H as (ys & Hys & H). injection H as <-.
    constructor; [done|]. by apply IH.
Qed.

Lemma ramping_from_startup_other r r' key :
  ramping_from_startup r = Ok r' -> key <> "RampingCost" -> r' !! key = r !! key.
Proof.
  unfold ramping_from_startup. intros H Hne.
  destruct (r !! "RampingCost") as [c|]; [|discriminate].
  destruct (bool_decide (c = Num (Q2Qc 0))).
  - inv_bind H. injection H as <-. by rewrite lookup_insert_ne.
  - by injection H as <-.
Qed.

Lemma installed_same r r' :
  r' !! "Nunits" = r !! "Nunits" -> r' !! "PowerCapacity" = r !! "PowerCapacity" ->
  installed r' = installed r.
Proof. intros H1 H2. unfold installed, cell_num. by rewrite H1, H2. Qed.

Lemma capacity_same r r' :
  r' !! "PowerCapacity" = r !! "PowerCapacity" -> capacity r' = capacity r.
Proof. intros H. unfold capacity, cell_num. by rewrite H. Qed.

(** The correction of 'Integer clustering' leaves a row with a whole
    count as it is, up to its capacity cells, which keep their values. *)
Lemma round_Nunits_whole cols rs final :
  usable_columns cols = true ->
  Forall (fun r => ready cols r = true /\ positive r = true) rs ->
  Forall (fun r => is_whole r "Nunits" = true) rs ->
  round_Nunits cols rs = Ok final ->
  Forall2 (fun r r' => r' !! "Nunits" = r !! "Nunits" /\
                       r' !! "PowerCapacity" = r !! "PowerCapacity") rs final.
Proof.
  intros Hc Hrs Hwh H.
  destruct (decide (rs = [])) as [->|Hne]; [discriminate|].
  destruct (last_Some_snoc rs Hne) as (front & r & ->).
  apply Forall_app in Hrs as [Hfront Hr]. apply Forall_singleton in Hr as [Hr Hp].
  apply Forall_app in Hwh as [_ Hw]. rewrite Forall_singleton in Hw.
  destruct (is_whole_lookup _ _ Hw) as (nu & Hnu & Hwhole).
  destruct (positive_parts _ Hp) as [_ HN].
  destruct (is_pos_lookup _ _ HN) as (nu' & Hnu' & Hnu0).
  rewrite Hnu in Hnu'. injection Hnu' as <-.
  assert (nu <> Q2Qc 0) as Hnz by (by apply Qc_pos_nonzero).
  destruct (round_Nunits_last cols front r nu) as (r' & Hrun & HN' & Hresc & _).
  - apply forallb_forall. intros r0 Hin%list_elem_of_In.
    rewrite Forall_forall in Hfront.
    by destruct (Hfront r0 Hin) as [(_ & _ & _ & ?)%ready_parts _].
  - unfold rescale_ready. destruct (ready_parts _ _ Hr) as (H1 & _ & _ & H4).
    rewrite H4. unfold num_is. rewrite Hnu.
    rewrite (bool_decide_eq_false_2 (Some (Num nu) = Some (Num (Q2Qc 0)))).
    + cbn [negb andb]. unfold numbers_in in H1. rewrite forallb_forall in H1 |- *.
      intros key Hk. apply H1. apply list_elem_of_In. apply list_elem_of_In in Hk.
      by apply (in_keys_sub key rescaled_keys); [|apply bool_decide_eq_true_2].
    + intros E. by injection E.
  - done.
  - rewrite Hrun in H. injection H as <-.
    apply Forall2_app.
    + apply Forall2_same_length_lookup_2; [done|]. intros i x y H1 H2.
      rewrite H1 in H2. by injection H2 as <-.
    + constructor; [|constructor].
      destruct (ready_num cols r "PowerCapacity" Hr) as (a & Ha & _);
        [in_list|apply usable_columns_in; [done|in_list]|].
      rewrite HN', Hnu, (Hresc "PowerCapacity" a), Ha;
        [|in_list|apply usable_columns_in; [done|in_list]|done].
      rewrite (np_round_whole nu Hwhole). split; [done|].
      do 2 f_equal. field. exact Hnz.
Qed.

Lemma Forall2_chain {A B C} (P : A -> B -> Prop) (Q : B -> C -> Prop) (R : A -> C -> Prop)
    l1 l2 l3 :
  (forall a b c, P a b -> Q b c -> R a c) ->
  Forall2 P l1 l2 -> Forall2 Q l2 l3 -> Forall2 R l1 l3.
Proof.
  intros H H12. revert l3. induction H12 as [|a b l1 l2 Hab _ IH]; intros l3 H23.
  - inversion H23. constructor.
  - inversion H23 as [|b' c l2' l3' Hbc H23']; subst. constructor; [by eapply H|by apply IH].
Qed.

Section PostProcessSums.

Variable clean_strings : string -> string.
Variable shrink_to_64 : string -> string.

Local Abbreviation renamed1 := (renamed clean_strings shrink_to_64).

Lemma post_process_sums method cols cs final :
  usable_columns cols = true ->
  Forall (fun c => ready cols (merged_row c) = true /\ positive (merged_row c) = true) cs ->
  (method = "Integer clustering" ->
     Forall (fun c => is_whole (merged_row c) "Nunits" = true) cs) ->
  post_process method cols (map renamed1 cs) = Ok final ->
  Forall2 (fun c r' => r' !! "Nunits" = merged_row c !! "Nunits" /\
                       r' !! "PowerCapacity" = merged_row c !! "PowerCapacity") cs final.
Proof.
  intros Hc Hcs Hwh H. unfold post_process in H.
  assert (Forall2 (fun c r => r !! "Nunits" = merged_row c !! "Nunits" /\
                              r !! "PowerCapacity" = merged_row c !! "PowerCapacity")
                  cs (map renamed1 cs)) as Hren.
  { clear. induction cs as [|c cs IH]; cbn [map]; constructor; [|done].
    unfold renamed. by rewrite !lookup_insert_ne. }
  assert (forall (rs : list (gmap string cell)),
            Forall2 (fun r r' => r' !! "Nunits" = r !! "Nunits" /\
                                 r' !! "PowerCapacity" = r !! "PowerCapacity")
                    (map renamed1 cs) rs ->
            Forall2 (fun c r' => r' !! "Nunits" = merged_row c !! "Nunits" /\
                                 r' !! "PowerCapacity" = merged_row c !! "PowerCapacity") cs rs)
    as Hchain.
  { intros rs Hrs. eapply Forall2_chain; [|exact Hren|exact Hrs].
    intros c r r' [H1 H2] [H3 H4]. split; congruence. }
  destruct (method =? "LP clustered")%string.
  { apply Hchain. apply mapM_Forall2 in H. eapply Forall2_impl; [exact H|].
    intros r r' Hr. split; by apply (ramping_from_startup_other r r'). }
  destruct (method =? "Integer clustering")%string eqn:E.
  { apply String.eqb_eq in E. apply Hchain. apply (round_Nunits_whole cols); try done.
    - apply Forall_forall. intros r (c & -> & Hin)%list_elem_of_fmap.
      rewrite Forall_forall in Hcs. destruct (Hcs c Hin) as [H1 H2].
      split; [by apply renamed_ready|by apply renamed_positive].
    - specialize (Hwh E). apply Forall_forall. intros r (c & -> & Hin)%list_elem_of_fmap.
      rewrite Forall_forall in Hwh. specialize (Hwh c Hin).
      unfold is_whole in *. by rewrite renamed_other. }
  injection H as <-. exact Hren.
Qed.

End PostProcessSums.

(** ** The installed capacity is conserved *)

Lemma units_of_rows_eq rs fps :
  length fps = length rs -> map (fun u => u.2.1) (units_of rs fps) = rs.
Proof.
  intros Hlen. apply (list_eq_same_length _ _ (length rs)); [done| |].
  - by rewrite length_map, units_of_length.
  - intros i x y Hi Hx Hy.
    destruct (units_of_lookup rs fps i y Hlen Hy) as (f & _ & Hu).
    change (map (fun u => u.2.1) (units_of rs fps)) with ((fun u => u.2.1) <$> units_of rs fps) in Hx.
    rewrite list_lookup_fmap, Hu in Hx. by injection Hx as <-.
Qed.

Lemma total_final (f : gmap string cell -> Qc) (cs : list cluster) final :
  (forall r r', r' !! "Nunits" = r !! "Nunits" ->
                r' !! "PowerCapacity" = r !! "PowerCapacity" -> f r' = f r) ->
  Forall2 (fun c r' => r' !! "Nunits" = merged_row c !! "Nunits" /\
                       r' !! "PowerCapacity" = merged_row c !! "PowerCapacity") cs final ->
  total f final = total f (map merged_row cs).
Proof.
  intros Hf. induction 1 as [|c r' cs final [H1 H2] _ IH]; [done|].
  cbn [map]. by rewrite !total_cons, IH, (Hf (merged_row c) r').
Qed.

Lemma default_Nunits_whole t :
  whole_counts t = true ->
  Forall (fun r => is_whole r "Nunits" = true) (rows (default_Nunits t)).
Proof.
  unfold whole_counts, default_Nunits. rewrite forallb_forall. intros H.
  destruct (has_column t "Nunits") eqn:HN.
  - apply Forall_forall. intros r Hr. by apply (H r), list_elem_of_In.
  - apply Forall_forall. intros r' Hr'. cbn [assign_column rows] in Hr'.
    apply list_elem_of_fmap in Hr' as (r & -> & _).
    apply is_whole_one. by rewrite lookup_insert_eq.
Qed.

Lemma default_Nunits_capacity t :
  total capacity (rows (default_Nunits t)) = total capacity (rows t).
Proof.
  unfold default_Nunits. destruct (has_column t "Nunits"); [done|].
  cbn [assign_column rows]. rewrite total_map. apply total_ext. intros r _.
  apply capacity_same. by rewrite lookup_insert_ne.
Qed.

Lemma ones_installed rs :
  Forall (fun r => r !! "Nunits" = Some (Num (Q2Qc 1))) rs ->
  total installed rs = total capacity rs.
Proof.
  intros H. apply total_ext. intros r Hr. rewrite Forall_forall in H.
  unfold installed, capacity. rewrite (cell_num_lookup r "Nunits" _ (H r Hr)). ring.
Qed.

Section Conservation.

Variable _mylogspace : Qc -> Qc -> nat -> list Qc.
Variable clean_strings : string -> string.
Variable shrink_to_64 : string -> string.

(** C2, as the code has it: on a typed frame with positive capacities and
    counts (whole counts under 'Integer clustering'), every method returns
    a frame with the installed capacity of the input, the sum of Nunits *
    PowerCapacity over the rows (Nunits is 1 in a frame without the
    column).  The sum of PowerCapacity itself is conserved under
    'Standard', 'MILP', 'LP' and 'No clustering'; under 'LP clustered' it
    becomes the installed capacity of the input. *)
Theorem installed_capacity_is_conserved plants method Nslices PartLoadMax Pmax :
  typed_table plants = true -> positive_table plants = true ->
  bounds_nonempty _mylogspace Nslices = true ->
  method ∈ methods ->
  (method = "LP clustered" -> has_column plants "RampingCost" = true) ->
  (method = "Integer clustering" -> rows plants <> []) ->
  (method = "Integer clustering" -> whole_counts plants = true) ->
  exists log out m,
    clustering _mylogspace clean_strings shrink_to_64 plants method Nslices PartLoadMax Pmax
    = (log, Ok (out, m)) /\
    total installed (rows out) = total installed (rows (default_Nunits plants)) /\
    (method ∈ ["Standard"; "MILP"; "LP"; "No clustering"] ->
       total capacity (rows out) = total capacity (rows plants)) /\
    (method = "LP clustered" ->
       total capacity (rows out) = total installed (rows (default_Nunits plants))).
Proof.
  intros Ht Hp Hb Hm HLP HInt Hwhole.
  destruct (clustering_stages _mylogspace clean_strings shrink_to_64 plants method
              Nslices PartLoadMax Pmax Ht Hp Hb Hm HLP HInt)
    as (log & t' & oo & fps & cs & final & _ & Hpd & Hlenf & Hloop & Hcs & Hpost & _ & _ & Hrun).
  destruct Hpd as (Hc & HN & Hcols & Hlen & Hrows & HLPoo & Hones & HF2 & Hid).
  set (rs := map fill_row (rows t')) in *.
  assert (length fps = length rs) as Hlenf' by (unfold rs; by rewrite length_map).
  assert (forall r, r ∈ rows t' ->
            fill_row r !! "Nunits" = r !! "Nunits" /\
            fill_row r !! "PowerCapacity" = r !! "PowerCapacity") as Hfill.
  { intros r _. split; apply fill_row_other; in_list. }
  assert (method = "Integer clustering" ->
          Forall (fun r => is_whole r "Nunits" = true) (rows t')) as Hwh'.
  { intros E. pose proof (default_Nunits_whole plants (Hwhole E)) as Hd.
    clear -HF2 Hd. induction HF2 as [|r r' l l' [_ Hw] _ IH]; [constructor|].
    apply Forall_cons in Hd as [Hd1 Hd2]. constructor; [by apply Hw|by apply IH]. }
  assert (Forall (fun u => readable method oo (columns t') u.2.1) (units_of rs fps)) as Hunits.
  { apply Forall_forall. intros u Hu. apply units_of_rows in Hu.
    apply list_elem_of_fmap in Hu as (r & -> & Hin).
    rewrite Forall_forall in Hrows. destruct (Hrows r Hin) as [H1 H2].
    destruct (Hfill r Hin) as [HfN HfP].
    unfold readable. split; [by apply fill_row_ready|]. split; [|split].
    - unfold positive, is_pos in *. by rewrite HfN, HfP.
    - intros Hoo. specialize (Hones Hoo). rewrite Forall_forall in Hones.
      rewrite HfN. by apply Hones.
    - intros E. specialize (Hwh' E). rewrite Forall_forall in Hwh'.
      unfold is_whole. rewrite HfN. by apply Hwh'. }
  pose proof (merge_loop_accounted method oo PartLoadMax Pmax (columns t') Hc HN
                (units_of rs fps) cs Hunits Hloop) as Hacc.
  rewrite units_of_rows_eq in Hacc by done.
  destruct Hacc as (_ & Hinst & Hcap & _ & Hwhc).
  pose proof (post_process_sums clean_strings shrink_to_64 method (columns t') cs final
                Hc Hcs Hwhc Hpost) as Hfinal.
  assert (total installed rs = total installed (rows t')) as Hrs_inst.
  { unfold rs. rewrite total_map. apply total_ext. intros r Hin.
    destruct (Hfill r Hin). by apply installed_same. }
  assert (total capacity rs = total capacity (rows t')) as Hrs_cap.
  { unfold rs. rewrite total_map. apply total_ext. intros r Hin.
    destruct (Hfill r Hin). by apply capacity_same. }
  assert (total installed (rows t') = total installed (rows (default_Nunits plants))) as Hprep.
  { apply total_Forall2. eapply Forall2_impl; [exact HF2|]. by intros r r' [? _]. }
  assert (total installed final = total installed (rows (default_Nunits plants))) as Hall.
  { rewrite (total_final installed cs final); [|by apply installed_same|done].
    by rewrite Hinst, Hrs_inst. }
  assert (method <> "Integer clustering" ->
          total capacity final = total capacity (rows t')) as Hcapf.
  { intros Hne. rewrite (total_final capacity cs final); [|by intros; apply capacity_same|done].
    by rewrite (Hcap Hne). }
  eexists _, _, _. split; [exact Hrun|]. cbn [rows].
  split; [done|]. split.
  - intros Hmeth.
    assert (method <> "Integer clustering" /\ method <> "LP clustered") as [Hne1 Hne2].
    { rewrite !elem_of_cons, elem_of_nil in Hmeth.
      destruct Hmeth as [->|[->|[->|[->|[]]]]]; by split. }
    rewrite (Hcapf Hne1), (Hid (or_introl Hne2)). apply default_Nunits_capacity.
  - intros ->. rewrite Hcapf by done.
    rewrite <- (ones_installed (rows t')) by (by apply Hones, HLPoo). done.
Qed.

End Conservation.

Lemma installed_capacity_is_conserved_witness :
  exists log out m,
    clustering logspace_20 keep_string first_64 mixed_counts "Integer clustering"
               default_Nslices default_PartLoadMax default_Pmax
    = (log, Ok (out, m)) /\
    total installed (rows out) = total installed (rows (default_Nunits mixed_counts)) /\
    ("Integer clustering" ∈ ["Standard"; "MILP"; "LP"; "No clustering"] ->
       total capacity (rows out) = total capacity (rows mixed_counts)) /\
    ("Integer clustering" = "LP clustered" ->
       total capacity (rows out) = total installed (rows (default_Nunits mixed_counts))).
Proof.
  apply (installed_capacity_is_conserved logspace_20 keep_string first_64 mixed_counts
           "Integer clustering");
    [vm_compute; reflexivity | vm_compute; reflexivity | vm_compute; reflexivity
    | in_list | intros H; discriminate H | intros _; discriminate
    | intros _; vm_compute; reflexivity].
Defined.

(** The sum of PowerCapacity is not conserved by every method: two plants
    of 10 MW and 20 MW become one row of 15 MW with two units under
    'Integer clustering', and one row with three units of 10 MW becomes a
    row of 30 MW with one unit under 'LP clustered'. *)
Lemma PowerCapacity_sum_is_not_conserved :
  (exists log out m,
     clustering logspace_20 keep_string first_64 two_sizes "Integer clustering"
                default_Nslices default_PartLoadMax default_Pmax
     = (log, Ok (out, m)) /\
     total capacity (rows two_sizes) = qc 30 1 /\
     total capacity (rows out) = qc 15 1) /\
  (exists log out m,
     clustering logspace_20 keep_string first_64 three_units "LP clustered"
                default_Nslices default_PartLoadMax default_Pmax
     = (log, Ok (out, m)) /\
     total capacity (rows three_units) = qc 10 1 /\
     total capacity (rows out) = qc 30 1).
Proof.
  split.
  - eexists _, _, _. split; [vm_compute; reflexivity|].
    split; apply (bool_decide_eq_true_1 _); vm_compute; reflexivity.
  - eexists _, _, _. split; [vm_compute; reflexivity|].
    split; apply (bool_decide_eq_true_1 _); vm_compute; reflexivity.
Qed.

(** ** The method and the required columns *)

Section Checks.

Variable _mylogspace : Qc -> Qc -> nat -> list Qc.
Variable clean_strings : string -> string.
Variable shrink_to_64 : string -> string.

(** X1: on a frame that has every required column, a method that is
    none of the six that [clustering] knows is fatal: the function logs
    that the method is not recognized and ends in [sys.exit(1)]
    (lines 167-187). *)
Theorem unknown_method_is_fatal plants method Nslices PartLoadMax Pmax :
  missing_input plants = None ->
  bool_decide (method ∈ methods) = false ->
  clustering _mylogspace clean_strings shrink_to_64 plants method Nslices PartLoadMax Pmax
  = ([MethodNotRecognized method], Err (SysExit 1)).
Proof.
  intros Hmiss Hm. apply bool_decide_eq_false_1 in Hm.
  unfold clustering, prepare. rewrite Hmiss. unfold check_method.
  unfold methods in Hm. rewrite !elem_of_cons, elem_of_nil in Hm.
  rewrite bool_decide_eq_false_2.
  2:{ rewrite !elem_of_cons, elem_of_nil. intros [->|[->|[]]]; apply Hm; tauto. }
  assert (forall s, s ∈ methods -> (method =? s) = false) as Hne.
  { intros s Hs. apply String.eqb_neq. intros ->. apply Hm.
    unfold methods in Hs. by rewrite !elem_of_cons, elem_of_nil in Hs. }
  rewrite !Hne by (apply (bool_decide_eq_true_1 _); reflexivity). reflexivity.
Qed.

Lemma find_first {A} (p : A -> bool) l x :
  List.find p l = Some x ->
  exists l1 l2, l = l1 ++ x :: l2 /\ p x = true /\ Forall (fun y => p y = false) l1.
Proof.
  induction l as [|a l IH]; [discriminate|]. cbn [List.find].
  destruct (p a) eqn:E.
  - intros H. injection H as <-. exists [], l. split; [done|]. split; [done|]. constructor.
  - intros H. destruct (IH H) as (l1 & l2 & -> & H2 & H3).
    exists (a :: l1), l2. split; [done|]. split; [done|]. by constructor.
Qed.

(** X2: on a frame without one of the required columns, [clustering]
    ends in [sys.exit(1)] whatever the method is, and the error that it
    logs names the first column of [required_inputs] that the frame does
    not have (lines 156-161). *)
Theorem first_missing_column_is_fatal plants method Nslices PartLoadMax Pmax :
  forallb (has_column plants) required_inputs = false ->
  exists input before after,
    clustering _mylogspace clean_strings shrink_to_64 plants method Nslices PartLoadMax Pmax
    = ([MissingColumn input], Err (SysExit 1)) /\
    required_inputs = before ++ input :: after /\
    has_column plants input = false /\
    Forall (fun key => has_column plants key = true) before.
Proof.
  intros H.
  destruct (missing_input plants) as [input|] eqn:E.
  - unfold missing_input in E. pose proof E as E'.
    apply find_first in E as (l1 & l2 & H1 & H2 & H3).
    exists input, l1, l2. unfold clustering, prepare, missing_input. rewrite E'.
    split; [done|]. split; [done|]. split; [by apply negb_true_iff|].
    eapply Forall_impl; [exact H3|]. intros key Hk. by apply negb_false_iff.
  - exfalso. unfold missing_input in E.
    assert (forallb (has_column plants) required_inputs = true) as Hall; [|congruence].
    apply forallb_forall. intros key Hk.
    pose proof (List.find_none _ _ E key Hk) as Hn. by apply negb_false_iff in Hn.
Qed.

End Checks.

Lemma unknown_method_is_fatal_witness :
  clustering logspace_20 keep_string first_64 one_plant "Foo"
             default_Nslices default_PartLoadMax default_Pmax
  = ([MethodNotRecognized "Foo"], Err (SysExit 1)).
Proof. apply unknown_method_is_fatal; reflexivity. Defined.

Lemma first_missing_column_is_fatal_witness :
  exists input before after,
    clustering logspace_20 keep_string first_64 frame_without_two "Standard"
               default_Nslices default_PartLoadMax default_Pmax
    = ([MissingColumn input], Err (SysExit 1)) /\
    required_inputs = before ++ input :: after /\
    has_column frame_without_two input = false /\
    Forall (fun key => has_column frame_without_two key = true) before.
Proof. apply first_missing_column_is_fatal; reflexivity. Defined.

(** ** [_find_nearest] and the fingerprints *)

Lemma argmin_go_spec l i best ibest :
  (ibest < i)%nat ->
  exists m,
    (argmin_go l i best ibest = ibest /\ m = best \/
     (i <= argmin_go l i best ibest)%nat /\ l !! (argmin_go l i best ibest - i)%nat = Some m) /\
    (m ≤ best)%Qc /\
    (argmin_go l i best ibest <> ibest -> (m < best)%Qc) /\
    forall j x, l !! j = Some x ->
      (m ≤ x)%Qc /\ ((i + j < argmin_go l i best ibest)%nat -> (m < x)%Qc).
Proof.
  revert i best ibest. induction l as [|x l IH]; intros i best ibest Hlt.
  - exists best. cbn [argmin_go]. split; [by left|]. split; [apply Qcle_refl|].
    split; [done|]. intros j y Hj. done.
  - cbn [argmin_go]. destruct (decide (x < best)%Qc) as [Hx|Hx].
    + destruct (IH (S i) x i) as (m & Hpos & Hle & Hne & Hall); [lia|].
      remember (argmin_go l (S i) x i) as k eqn:Ek. clear Ek.
      exists m. split; [|split; [|split]].
      * right. destruct Hpos as [[-> ->]|[Hk Hm]].
        -- split; [lia|]. by rewrite Nat.sub_diag.
        -- split; [lia|]. replace (k - i)%nat with (S (k - S i)) by lia. done.
      * apply Qclt_le_weak. by eapply Qcle_lt_trans.
      * intros _. by eapply Qcle_lt_trans.
      * intros [|j] y Hj.
        -- injection Hj as <-. split; [done|]. intros Hk. apply Hne. lia.
        -- destruct (Hall j y Hj) as [H1 H2]. split; [done|]. intros Hk. apply H2. lia.
    + apply Qcnot_lt_le in Hx.
      destruct (IH (S i) best ibest) as (m & Hpos & Hle & Hne & Hall); [lia|].
      remember (argmin_go l (S i) best ibest) as k eqn:Ek. clear Ek.
      exists m. split; [|split; [|split]].
      * destruct Hpos as [[Hk ->]|[Hk Hm]]; [by left|right].
        split; [lia|]. replace (k - i)%nat with (S (k - S i)) by lia. done.
      * done.
      * done.
      * intros [|j] y Hj.
        -- injection Hj as <-. split; [by eapply Qcle_trans|].
           intros Hk. eapply Qclt_le_trans; [|exact Hx]. apply Hne. lia.
        -- destruct (Hall j y Hj) as [H1 H2]. split; [done|]. intros Hk. apply H2. lia.
Qed.

Lemma argmin_spec l :
  l <> [] ->
  exists i m, argmin l = Ok i /\ l !! i = Some m /\
    forall j x, l !! j = Some x -> (m ≤ x)%Qc /\ ((j < i)%nat -> (m < x)%Qc).
Proof.
  destruct l as [|x l]; [done|]. intros _. cbn [argmin].
  destruct (argmin_go_spec l 1 x 0) as (m & Hpos & Hle & Hne & Hall); [lia|].
  remember (argmin_go l 1 x 0) as k eqn:Ek. clear Ek.
  exists k, m. split; [done|]. split.
  - destruct Hpos as [[-> ->]|[Hk Hm]]; [done|].
    replace k with (S (k - 1)) by lia. done.
  - intros [|j] y Hj.
    + injection Hj as <-. split; [done|]. intros Hk. apply Hne. lia.
    + destruct (Hall j y Hj) as [H1 H2]. split; [done|]. intros Hk. apply H2. lia.
Qed.

Lemma find_nearest_lt array value idx :
  _find_nearest array value = Ok idx -> (idx < length array)%nat.
Proof.
  unfold _find_nearest. intros H.
  destruct (decide (array = [])) as [->|Hne]; [discriminate|].
  destruct (argmin_spec (map (fun a => Qcabs (a - value)%Qc) array)) as (i & m & Hi & Hm & _).
  { by destruct array. }
  rewrite Hi in H. injection H as <-. apply lookup_lt_Some in Hm.
  by rewrite length_map in Hm.
Qed.

(** X3: on an array that is not empty, [_find_nearest] returns an index
    of the array at which the distance to [value] is least, and the first
    such index: every element before it is strictly further from [value]
    (lines 380-385). *)
Theorem find_nearest_is_first_nearest array value :
  array <> [] ->
  exists idx a,
    _find_nearest array value = Ok idx /\ array !! idx = Some a /\
    forall j b, array !! j = Some b ->
      (Qcabs (a - value) ≤ Qcabs (b - value))%Qc /\
      ((j < idx)%nat -> (Qcabs (a - value) < Qcabs (b - value))%Qc).
Proof.
  intros Hne. unfold _find_nearest.
  destruct (argmin_spec (map (fun a => Qcabs (a - value)%Qc) array)) as (i & m & Hi & Hm & Hall).
  { by destruct array. }
  change (map (fun a => Qcabs (a - value)%Qc) array)
    with ((fun a => Qcabs (a - value)%Qc) <$> array) in *.
  rewrite list_lookup_fmap in Hm.
  destruct (array !! i) as [a|] eqn:Ha; [|discriminate]. injection Hm as <-.
  exists i, a. split; [done|]. split; [done|].
  intros j b Hj. apply (Hall j). by rewrite list_lookup_fmap, Hj.
Qed.

Lemma find_nearest_is_first_nearest_witness :
  exists idx a,
    _find_nearest (linspace (qc 0 1) (qc 1 1) 5) (qc 3 8) = Ok idx /\
    linspace (qc 0 1) (qc 1 1) 5 !! idx = Some a /\
    forall j b, linspace (qc 0 1) (qc 1 1) 5 !! j = Some b ->
      (Qcabs (a - qc 3 8) ≤ Qcabs (b - qc 3 8))%Qc /\
      ((j < idx)%nat -> (Qcabs (a - qc 3 8) < Qcabs (b - qc 3 8))%Qc).
Proof. apply find_nearest_is_first_nearest. discriminate. Defined.

(** A value halfway between two bounds goes to the lower slice. *)
Example find_nearest_tie :
  _find_nearest (linspace (qc 0 1) (qc 1 1) 5) (qc 3 8) = Ok 1%nat.
Proof. vm_compute. reflexivity. Qed.

Lemma find_nearest_empty value : _find_nearest [] value = Err ValueError.
Proof. reflexivity. Qed.

Section FingerprintShape.

Variable _mylogspace : Qc -> Qc -> nat -> list Qc.

(** X4: when each of the nine arrays of [bounds] has [Nslices]
    elements, the fingerprint of a plant has nine entries, and each of
    them is a slice number below [Nslices] (lines 198-217). *)
Theorem fingerprint_slices Nslices r f :
  bounds_sized _mylogspace Nslices = true ->
  fingerprint _mylogspace Nslices r = Ok f ->
  length f = 9%nat /\ Forall (fun slice => (slice < Nslices)%nat) f.
Proof.
  intros Hb H. unfold fingerprint in H.
  split.
  - by apply mapM_length in H.
  - apply mapM_Forall2 in H. unfold bounds_sized in Hb. rewrite forallb_forall in Hb.
    apply Forall_forall. intros slice Hs.
    apply list_elem_of_lookup in Hs as (k & Hk).
    destruct (Forall2_lookup_r _ _ _ _ _ H Hk) as ([key array] & Hka & Hf).
    apply bind_Ok_inv in Hf as (v & _ & Hf).
    assert ((key, array) ∈ bounds _mylogspace Nslices) as Hin
      by (by eapply list_elem_of_lookup_2).
    pose proof (Hb (key, array) (proj1 (list_elem_of_In _ _) Hin)) as Hsz.
    cbv beta iota in Hsz. apply Nat.eqb_eq in Hsz as Hlen.
    rewrite <- Hlen. by apply (find_nearest_lt array v).
Qed.

End FingerprintShape.

Lemma fingerprint_slices_witness :
  length fingerprint_heavy_A = 9%nat /\
  Forall (fun slice => (slice < default_Nslices)%nat) fingerprint_heavy_A.
Proof.
  apply (fingerprint_slices logspace_20 default_Nslices heavy_A fingerprint_heavy_A);
    vm_compute; reflexivity.
Defined.

(** ** The merging rules, column by column *)

(** A result that is known to be there is the one that the examples
    name. *)
Lemma merges_Some m : merges m = true -> m = Ok (Some (merged_or_empty m)).
Proof. by destruct m as [[r|]|e]. Qed.

Ltac evaluated := apply (bool_decide_eq_true_1 _); vm_compute; reflexivity.
Ltac merged := apply merges_Some; vm_compute; reflexivity.

Lemma foldM_keeps (step : string -> gmap string cell -> result (gmap string cell)) key ks r r' :
  (forall k r0 r1, step k r0 = Ok r1 -> r1 !! key = r0 !! key) ->
  foldM step ks r = Ok r' -> r' !! key = r !! key.
Proof.
  intros Hstep. revert r. induction ks as [|k ks IH]; intros r H.
  - by injection H as ->.
  - cbn [foldM] in H. apply bind_Ok_inv in H as (r1 & H1 & H).
    rewrite (IH r1 H). by apply (Hstep k).
Qed.

Lemma merge_key_keeps z avg P_old P_add ri key k r r' :
  in_keys key avg = false -> in_keys key capacity_keys = false ->
  in_keys key minimum_keys = false -> key <> "RampingCost" -> key <> "Nunits" ->
  merge_key z avg P_old P_add ri k r = Ok r' -> r' !! key = r !! key.
Proof.
  intros H1 H2 H3 H4 H5 H. destruct (decide (k = key)) as [->|Hne].
  - unfold merge_key in H. rewrite H1, H2, H3 in H.
    apply String.eqb_neq in H4, H5. rewrite H4, H5 in H. by injection H as ->.
  - by apply (merge_key_frame z avg P_old P_add ri k r r' H).
Qed.

Lemma merge_key_Integer_keeps ri key k r r' :
  in_keys key average_keys_Integer = false ->
  merge_key_Integer ri k r = Ok r' -> r' !! key = r !! key.
Proof.
  intros H1 H. destruct (decide (k = key)) as [->|Hne].
  - unfold merge_key_Integer in H. rewrite H1 in H. by injection H as ->.
  - by apply (merge_key_Integer_frame ri k r r' H).
Qed.

Lemma not_in_app_keys key (l1 l2 : list string) :
  key ∉ l1 ++ l2 -> in_keys key l1 = false /\ key ∉ l2.
Proof.
  rewrite elem_of_app. intros H. split; [|tauto].
  apply bool_decide_eq_false_2. tauto.
Qed.

(** The weighted merge only writes its average, capacity and minimum
    columns, RampingCost and Nunits. *)
Lemma merge_capacity_weighted_keeps z avg cols rj ri r' key :
  merge_capacity_weighted z avg cols rj ri = Ok r' ->
  key ∉ avg ++ capacity_keys ++ minimum_keys ++ ["RampingCost"; "Nunits"] ->
  r' !! key = rj !! key.
Proof.
  intros Hr' Hkey.
  apply not_in_app_keys in Hkey as [H1 Hkey]. apply not_in_app_keys in Hkey as [H2 Hkey].
  apply not_in_app_keys in Hkey as [H3 Hkey]. rewrite !not_elem_of_cons in Hkey.
  destruct Hkey as (H4 & H5 & _).
  unfold merge_capacity_weighted in Hr'. inv_bind Hr'.
  apply (foldM_keeps _ key) in Hr'; [done|]. intros k r0 r1. by apply merge_key_keeps.
Qed.

(** The merge of 'Integer clustering' only writes its averaged columns
    and Nunits. *)
Lemma merge_Integer_keeps cols rj ri r' key :
  merge_Integer cols rj ri = Ok r' ->
  key ∉ average_keys_Integer ++ ["Nunits"] ->
  r' !! key = rj !! key.
Proof.
  intros Hr' Hkey.
  apply not_in_app_keys in Hkey as [H1 Hkey]. rewrite !not_elem_of_cons in Hkey.
  destruct Hkey as (H5 & _).
  unfold merge_Integer in Hr'. apply bind_Ok_inv in Hr' as (r1 & Hfold & Hr').
  inv_bind Hr'. injection Hr' as <-. rewrite lookup_insert_ne by done.
  apply (foldM_keeps _ key) in Hfold; [done|]. intros k r0 r2.
  by apply merge_key_Integer_keeps.
Qed.

(** X8: a merge only writes the columns that its method names: every
    other column of the cluster row, the unit name and the four
    categories among them, is after the merge what it was before
    (lines 246-265, 273-291, 297-303). *)
Theorem merge_keeps_other_columns method OnlyOnes PartLoadMax Pmax cols ri fi c r' key :
  try_merge method OnlyOnes PartLoadMax Pmax cols ri fi c = Ok (Some r') ->
  key ∉ written_keys method ->
  r' !! key = merged_row c !! key.
Proof.
  intros H Hkey. unfold written_keys in Hkey.
  apply try_merge_Some in H as (ts & _ & [(Hm & _ & Hr')|[(-> & _ & _ & Hr')|(-> & _ & Hr')]]).
  - rewrite (bool_decide_eq_true_2 _ Hm) in Hkey.
    by apply (merge_capacity_weighted_keeps false average_keys_Standard cols _ ri).
  - change (bool_decide ("LP clustered" ∈ ["Standard"; "MILP"])) with false in Hkey.
    cbn [String.eqb Ascii.eqb Bool.eqb] in Hkey. cbv iota in Hkey.
    by apply (merge_capacity_weighted_keeps true average_keys_LP cols _ ri).
  - change (bool_decide ("Integer clustering" ∈ ["Standard"; "MILP"])) with false in Hkey.
    cbn [String.eqb Ascii.eqb Bool.eqb] in Hkey. cbv iota in Hkey.
    by apply (merge_Integer_keeps cols _ ri).
Qed.

(** X5: under 'Standard', 'MILP' and 'LP clustered', a merge leaves in
    a column of the average keys of the method the mean of the value of
    the cluster and the value of the plant, weighted by their capacities
    before the merge: (a * P_old + b * P_add) / (P_old + P_add)
    (lines 247-251 and 274-278). *)
Theorem merge_averages_by_capacity method OnlyOnes PartLoadMax Pmax cols ri fi c r'
    key a b P_old P_add :
  try_merge method OnlyOnes PartLoadMax Pmax cols ri fi c = Ok (Some r') ->
  NoDup cols -> key ∈ cols ->
  (method ∈ ["Standard"; "MILP"] /\ key ∈ average_keys_Standard \/
   method = "LP clustered" /\ key ∈ average_keys_LP) ->
  merged_row c !! "PowerCapacity" = Some (Num P_old) ->
  ri !! "PowerCapacity" = Some (Num P_add) ->
  merged_row c !! key = Some (Num a) ->
  ri !! key = Some (Num b) ->
  r' !! key = Some (Num ((a * P_old + b * P_add) / (P_old + P_add))%Qc).
Proof.
  intros H Hnd Hcols Hcase HPo HPa Ha Hb.
  assert (exists z avg, merge_capacity_weighted z avg cols (merged_row c) ri = Ok r' /\
                        in_keys key avg = true) as (z & avg & Hr' & Hk).
  { apply try_merge_Some in H as (ts & _ & [(Hm & _ & Hr')|[(-> & _ & _ & Hr')|(-> & _ & Hr')]]);
      destruct Hcase as [[Hm' Hk]|[Hm' Hk]].
    - exists false, average_keys_Standard. split; [done|]. by apply bool_decide_eq_true_2.
    - subst. exfalso. revert Hm. apply (bool_decide_eq_false_1 _). reflexivity.
    - exfalso. revert Hm'. apply (bool_decide_eq_false_1 _). reflexivity.
    - exists true, average_keys_LP. split; [done|]. by apply bool_decide_eq_true_2.
    - exfalso. revert Hm'. apply (bool_decide_eq_false_1 _). reflexivity.
    - discriminate. }
  destruct (merge_capacity_weighted_at _ _ _ _ _ _ key Hr' Hnd Hcols)
    as (Po & Pa & r0 & r1 & HPo' & HPa' & Hs & Hk0 & ->).
  rewrite HPo in HPo'. injection HPo' as <-. rewrite HPa in HPa'. injection HPa' as <-.
  unfold merge_key in Hs. rewrite Hk in Hs.
  rewrite <- Hk0 in Ha. apply getn_Ok in Ha, Hb. rewrite Ha, Hb in Hs. cbn [bind] in Hs.
  apply bind_Ok_inv in Hs as (v & Hv & Hs). injection Hs as <-.
  apply div_Ok_inv in Hv as [_ ->]. rewrite lookup_insert_eq.
  by rewrite (Qcplus_comm P_add P_old).
Qed.

Lemma merge_averages_by_capacity_witness :
  merged_or_empty (try_merge "Standard" true default_PartLoadMax default_Pmax
                     sample_columns plant_20 fingerprint_20 cluster_10) !! "NoLoadCost"
  = Some (Num ((qc 5 1 * qc 10 1 + qc 7 1 * qc 20 1) / (qc 10 1 + qc 20 1))%Qc).
Proof.
  refine (merge_averages_by_capacity "Standard" true default_PartLoadMax default_Pmax
            sample_columns plant_20 fingerprint_20 cluster_10 _ "NoLoadCost"
            (qc 5 1) (qc 7 1) (qc 10 1) (qc 20 1) _ _ _ _ _ _ _ _);
    [merged | evaluated..].
Defined.

(** The example of the specification: the merged row has 30 MW and a
    no-load cost of 19/3. *)
Example spec_example_Standard_merge :
  exists r', try_merge "Standard" true default_PartLoadMax default_Pmax
               sample_columns plant_20 fingerprint_20 cluster_10 = Ok (Some r') /\
    r' !! "PowerCapacity" = Some (Num (qc 30 1)) /\
    r' !! "NoLoadCost" = Some (Num (qc 19 3)).
Proof.
  eexists. split; [merged|]. split; evaluated.
Qed.

Lemma merge_keeps_other_columns_witness :
  merged_or_empty (try_merge "Standard" true default_PartLoadMax default_Pmax
                     sample_columns plant_20 fingerprint_20 cluster_10) !! "StartUpCost"
  = merged_row cluster_10 !! "StartUpCost".
Proof.
  refine (merge_keeps_other_columns "Standard" true default_PartLoadMax default_Pmax
            sample_columns plant_20 fingerprint_20 cluster_10 _ "StartUpCost" _ _);
    [merged | evaluated].
Defined.

(** X6: under 'Standard', 'MILP' and 'LP clustered', a merge adds the
    value of the plant to the value of the cluster in each of the columns
    PowerCapacity, STOCapacity, STOMaxChargingPower and InitialPower, and
    it sets Nunits to 1 (lines 252-254, 264-265, 279-281, 290-291). *)
Theorem merge_sums_capacities method OnlyOnes PartLoadMax Pmax cols ri fi c r' :
  try_merge method OnlyOnes PartLoadMax Pmax cols ri fi c = Ok (Some r') ->
  NoDup cols ->
  method ∈ ["Standard"; "MILP"; "LP clustered"] ->
  (forall key a b, key ∈ capacity_keys -> key ∈ cols ->
     merged_row c !! key = Some (Num a) -> ri !! key = Some (Num b) ->
     r' !! key = Some (Num (a + b)%Qc)) /\
  ("Nunits" ∈ cols -> r' !! "Nunits" = Some (Num (Q2Qc 1))).
Proof.
  intros H Hnd Hm.
  assert (exists z avg, (avg = average_keys_Standard \/ avg = average_keys_LP) /\
                        merge_capacity_weighted z avg cols (merged_row c) ri = Ok r')
    as (z & avg & Havg & Hr').
  { apply try_merge_Some in H as (ts & _ & [(_ & _ & Hr')|[(_ & _ & _ & Hr')|(-> & _ & Hr')]]).
    - exists false, average_keys_Standard. split; [by left|done].
    - exists true, average_keys_LP. split; [by right|done].
    - exfalso. revert Hm. apply (bool_decide_eq_false_1 _). reflexivity. }
  split.
  - intros key a b Hkey Hcols Ha Hb.
    destruct (merge_capacity_weighted_at _ _ _ _ _ _ key Hr' Hnd Hcols)
      as (Po & Pa & r0 & r1 & _ & _ & Hs & Hk0 & ->).
    unfold merge_key in Hs.
    replace (in_keys key avg) with false in Hs.
    2:{ symmetry. unfold capacity_keys in Hkey. rewrite !elem_of_cons, elem_of_nil in Hkey.
        destruct Hkey as [->|[->|[->|[->|[]]]]]; by destruct Havg as [->| ->]. }
    rewrite (bool_decide_eq_true_2 _ Hkey : in_keys key capacity_keys = true) in Hs.
    rewrite <- Hk0 in Ha. apply getn_Ok in Ha, Hb. rewrite Ha, Hb in Hs. cbn [bind] in Hs.
    injection Hs as <-. by rewrite lookup_insert_eq.
  - intros HN. by apply (merge_capacity_weighted_Nunits z avg cols (merged_row c) ri).
Qed.

Lemma merge_sums_capacities_witness :
  (forall key a b, key ∈ capacity_keys -> key ∈ sample_columns ->
     merged_row cluster_10 !! key = Some (Num a) -> plant_20 !! key = Some (Num b) ->
     merged_or_empty (try_merge "LP clustered" true default_PartLoadMax default_Pmax
                        sample_columns plant_20 fingerprint_20 cluster_10) !! key
     = Some (Num (a + b)%Qc)) /\
  ("Nunits" ∈ sample_columns ->
   merged_or_empty (try_merge "LP clustered" true default_PartLoadMax default_Pmax
                      sample_columns plant_20 fingerprint_20 cluster_10) !! "Nunits"
   = Some (Num (Q2Qc 1))).
Proof.
  refine (merge_sums_capacities "LP clustered" true default_PartLoadMax default_Pmax
            sample_columns plant_20 fingerprint_20 cluster_10 _ _ _ _);
    [merged | evaluated..].
Defined.

(** X7: under 'Standard', 'MILP' and 'LP clustered', a merge charges
    the start-up of the plant to the ramping cost of the cluster: the new
    RampingCost is (P_old * RampingCost_old + Cost_to_fullload) /
    (P_old + P_add), where Cost_to_fullload is P_add * (1 - PartLoadMin)
    * RampingCost + StartUpCost of the plant (lines 259-263, 285-289). *)
Theorem merge_adds_startup_to_ramping method OnlyOnes PartLoadMax Pmax cols ri fi c r'
    P_old P_add rc_old rc_add partload startup :
  try_merge method OnlyOnes PartLoadMax Pmax cols ri fi c = Ok (Some r') ->
  NoDup cols -> "RampingCost" ∈ cols ->
  method ∈ ["Standard"; "MILP"; "LP clustered"] ->
  merged_row c !! "PowerCapacity" = Some (Num P_old) ->
  ri !! "PowerCapacity" = Some (Num P_add) ->
  merged_row c !! "RampingCost" = Some (Num rc_old) ->
  ri !! "RampingCost" = Some (Num rc_add) ->
  ri !! "PartLoadMin" = Some (Num partload) ->
  ri !! "StartUpCost" = Some (Num startup) ->
  r' !! "RampingCost"
  = Some (Num ((P_old * rc_old + (P_add * (1 - partload) * rc_add + startup))
               / (P_old + P_add))%Qc).
Proof.
  intros H Hnd Hcols Hm HPo HPa Hro Hra Hpl Hsu.
  assert (exists z avg, (avg = average_keys_Standard \/ avg = average_keys_LP) /\
                        merge_capacity_weighted z avg cols (merged_row c) ri = Ok r')
    as (z & avg & Havg & Hr').
  { apply try_merge_Some in H as (ts & _ & [(_ & _ & Hr')|[(_ & _ & _ & Hr')|(-> & _ & Hr')]]).
    - exists false, average_keys_Standard. split; [by left|done].
    - exists true, average_keys_LP. split; [by right|done].
    - exfalso. revert Hm. apply (bool_decide_eq_false_1 _). reflexivity. }
  destruct (merge_capacity_weighted_at _ _ _ _ _ _ "RampingCost" Hr' Hnd Hcols)
    as (Po & Pa & r0 & r1 & HPo' & HPa' & Hs & Hk0 & ->).
  rewrite HPo in HPo'. injection HPo' as <-. rewrite HPa in HPa'. injection HPa' as <-.
  unfold merge_key in Hs.
  replace (in_keys "RampingCost" avg) with false in Hs by (by destruct Havg as [->| ->]).
  change (in_keys "RampingCost" capacity_keys) with false in Hs.
  change (in_keys "RampingCost" minimum_keys) with false in Hs.
  cbn [String.eqb Ascii.eqb Bool.eqb] in Hs. cbv iota in Hs.
  unfold Cost_to_fullload in Hs.
  rewrite <- Hk0 in Hro. apply getn_Ok in Hro, Hra, Hpl, Hsu.
  rewrite Hpl, Hra, Hsu in Hs. cbn [bind] in Hs. rewrite Hro in Hs. cbn [bind] in Hs.
  apply bind_Ok_inv in Hs as (v & Hv & Hs). injection Hs as <-.
  apply div_Ok_inv in Hv as [_ ->]. by rewrite lookup_insert_eq.
Qed.

Lemma merge_adds_startup_to_ramping_witness :
  merged_or_empty (try_merge "LP clustered" true default_PartLoadMax default_Pmax
                     sample_columns plant_20 fingerprint_20 cluster_10) !! "RampingCost"
  = Some (Num ((qc 10 1 * qc 0 1 + (qc 20 1 * (1 - qc 0 1) * qc 0 1 + qc 100 1))
               / (qc 10 1 + qc 20 1))%Qc).
Proof.
  refine (merge_adds_startup_to_ramping "LP clustered" true default_PartLoadMax default_Pmax
            sample_columns plant_20 fingerprint_20 cluster_10 _
            (qc 10 1) (qc 20 1) (qc 0 1) (qc 0 1) (qc 0 1) (qc 100 1) _ _ _ _ _ _ _ _ _ _);
    [merged | evaluated..].
Defined.

(** X9: under 'Integer clustering' a merge adds the counts, Nunits
    becomes nj + ni, and it leaves in each of the seventeen averaged
    columns, PowerCapacity among them, the mean of the two values
    weighted by the counts before the merge: (a * nj + b * ni) /
    (nj + ni) (lines 297-303). *)
Theorem Integer_merge_weighs_by_Nunits OnlyOnes PartLoadMax Pmax cols ri fi c r' nj ni :
  try_merge "Integer clustering" OnlyOnes PartLoadMax Pmax cols ri fi c = Ok (Some r') ->
  NoDup cols ->
  merged_row c !! "Nunits" = Some (Num nj) ->
  ri !! "Nunits" = Some (Num ni) ->
  r' !! "Nunits" = Some (Num (nj + ni)%Qc) /\
  forall key a b, key ∈ average_keys_Integer -> key ∈ cols ->
    merged_row c !! key = Some (Num a) -> ri !! key = Some (Num b) ->
    r' !! key = Some (Num ((a * nj + b * ni) / (nj + ni))%Qc).
Proof.
  intros H Hnd Hnj Hni.
  apply try_merge_Some in H as (ts & _ & [(Hm & _)|[(Hm & _)|(_ & _ & Hr')]]).
  { exfalso. revert Hm. apply (bool_decide_eq_false_1 _). reflexivity. }
  { discriminate. }
  unfold merge_Integer in Hr'. apply bind_Ok_inv in Hr' as (r1 & Hfold & Hr').
  apply bind_Ok_inv in Hr' as (nj' & Hnj' & Hr'). apply bind_Ok_inv in Hr' as (ni' & Hni' & Hr').
  injection Hr' as <-.
  assert (r1 !! "Nunits" = merged_row c !! "Nunits") as HN1.
  { apply (foldM_stable (merge_key_Integer ri) cols (fun k => k = "Nunits")
             (fun key r r' _ => merge_key_Integer_stable ri key r r') cols _ r1); done. }
  apply getn_Ok in Hnj', Hni'. rewrite HN1, Hnj in Hnj'. injection Hnj' as <-.
  rewrite Hni in Hni'. injection Hni' as <-.
  split; [by rewrite lookup_insert_eq|].
  intros key a b Hkey Hcols Ha Hb.
  assert (key <> "Nunits") as Hne.
  { intros ->. revert Hkey. apply (bool_decide_eq_false_1 _). reflexivity. }
  rewrite lookup_insert_ne by done.
  destruct (foldM_at (merge_key_Integer ri) cols (fun k => k = "Nunits")
              (fun key r r' _ => merge_key_Integer_frame ri key r r')
              (fun key r r' _ => merge_key_Integer_stable ri key r r')
              cols (merged_row c) r1 key) as (r0 & r2 & Hs & Hk0 & Hst & ->); try done.
  unfold merge_key_Integer in Hs.
  rewrite (bool_decide_eq_true_2 _ Hkey : in_keys key average_keys_Integer = true) in Hs.
  rewrite <- Hk0 in Ha. rewrite <- (Hst "Nunits" eq_refl) in Hnj.
  apply getn_Ok in Ha, Hnj, Hb, Hni. rewrite Ha, Hnj, Hb, Hni in Hs. cbn [bind] in Hs.
  apply bind_Ok_inv in Hs as (v & Hv & Hs). injection Hs as <-.
  apply div_Ok_inv in Hv as [_ ->]. by rewrite lookup_insert_eq.
Qed.

Lemma Integer_merge_weighs_by_Nunits_witness :
  merged_or_empty (try_merge "Integer clustering" true default_PartLoadMax default_Pmax
                     sample_columns plant_20 fingerprint_20 cluster_10) !! "Nunits"
  = Some (Num (qc 1 1 + qc 1 1)%Qc) /\
  forall key a b, key ∈ average_keys_Integer -> key ∈ sample_columns ->
    merged_row cluster_10 !! key = Some (Num a) -> plant_20 !! key = Some (Num b) ->
    merged_or_empty (try_merge "Integer clustering" true default_PartLoadMax default_Pmax
                       sample_columns plant_20 fingerprint_20 cluster_10) !! key
    = Some (Num ((a * qc 1 1 + b * qc 1 1) / (qc 1 1 + qc 1 1))%Qc).
Proof.
  refine (Integer_merge_weighs_by_Nunits true default_PartLoadMax default_Pmax
            sample_columns plant_20 fingerprint_20 cluster_10 _ (qc 1 1) (qc 1 1) _ _ _ _);
    [merged | evaluated..].
Defined.

(** ** When a plant merges *)

Lemma is_ok_clusters (m : result (list cluster)) : is_ok m = true -> m = Ok (clusters_or_nil m).
Proof. by destruct m. Qed.

(** X10: one pass of the outer loop either merges the plant into the
    first cluster, in the order of their creation, that the merge test
    accepts, appending its index to the members of that cluster and
    leaving the fingerprint of the cluster and all other clusters as they
    are, or, when no cluster accepts it, appends a new cluster with the
    row, the index and the fingerprint of the plant (lines 232-315). *)
Theorem plant_joins_first_cluster_that_takes_it method OnlyOnes PartLoadMax Pmax cols
    i ri fi cs cs' :
  add_plant method OnlyOnes PartLoadMax Pmax cols (i, (ri, fi)) cs = Ok cs' ->
  (cs' = cs ++ [Cluster ri [i] fi] /\
   Forall (fun c => try_merge method OnlyOnes PartLoadMax Pmax cols ri fi c = Ok None) cs) \/
  (exists l1 c l2 r',
     cs = l1 ++ c :: l2 /\
     Forall (fun c0 => try_merge method OnlyOnes PartLoadMax Pmax cols ri fi c0 = Ok None) l1 /\
     try_merge method OnlyOnes PartLoadMax Pmax cols ri fi c = Ok (Some r') /\
     cs' = l1 ++ Cluster r' (former c ++ [i]) (merged_fingerprint c) :: l2).
Proof.
  unfold add_plant. intros H. apply bind_Ok_inv in H as (m & Hm & H).
  destruct m as [cs1|]; injection H as <-.
  - right. by apply scan_Some in Hm.
  - left. split; [done|]. by apply scan_None in Hm.
Qed.

Lemma plant_joins_first_cluster_that_takes_it_witness :
  (clusters_or_nil (add_plant "LP clustered" true default_PartLoadMax default_Pmax
                      sample_columns (2%nat, (plant_20, fingerprint_20)) two_clusters)
   = two_clusters ++ [Cluster plant_20 [2%nat] fingerprint_20] /\
   Forall (fun c => try_merge "LP clustered" true default_PartLoadMax default_Pmax
                      sample_columns plant_20 fingerprint_20 c = Ok None) two_clusters) \/
  (exists l1 c l2 r',
     two_clusters = l1 ++ c :: l2 /\
     Forall (fun c0 => try_merge "LP clustered" true default_PartLoadMax default_Pmax
                         sample_columns plant_20 fingerprint_20 c0 = Ok None) l1 /\
     try_merge "LP clustered" true default_PartLoadMax default_Pmax
       sample_columns plant_20 fingerprint_20 c = Ok (Some r') /\
     clusters_or_nil (add_plant "LP clustered" true default_PartLoadMax default_Pmax
                        sample_columns (2%nat, (plant_20, fingerprint_20)) two_clusters)
     = l1 ++ Cluster r' (former c ++ [2%nat]) (merged_fingerprint c) :: l2).
Proof.
  apply (plant_joins_first_cluster_that_takes_it "LP clustered" true default_PartLoadMax
           default_Pmax sample_columns 2%nat plant_20 fingerprint_20 two_clusters).
  apply is_ok_clusters. vm_compute. reflexivity.
Defined.

Lemma merge_tests_inv PartLoadMax Pmax ri fi c ts :
  merge_tests PartLoadMax Pmax ri fi c = Ok ts ->
  exists st plm pc hf,
    same_type ri (merged_row c) = Ok st /\ ri !! "PartLoadMin" = Some (Num plm) /\
    ri !! "PowerCapacity" = Some (Num pc) /\ highly_flexible ri = Ok hf /\
    ts = Tests st (bool_decide (fi = merged_fingerprint c))
               (bool_decide (plm ≤ PartLoadMax)%Qc) (bool_decide (pc ≤ Pmax)%Qc) hf.
Proof.
  unfold merge_tests. intros H.
  apply bind_Ok_inv in H as (st & Hst & H). apply bind_Ok_inv in H as (plm & Hplm & H).
  apply bind_Ok_inv in H as (pc & Hpc & H). apply bind_Ok_inv in H as (hf & Hhf & H).
  injection H as <-. apply getn_Ok in Hplm, Hpc. by exists st, plm, pc, hf.
Qed.

(** X11: under 'Standard' and 'MILP', a plant merges into a cluster
    exactly when [cluster] of line 242 holds: all counts are 1, the two
    are of the same type, and the plant has the fingerprint of the
    cluster and a low minimum load, or is highly flexible, or is no
    larger than [Pmax].  The test reads the plant only, never the sizes
    of the cluster (lines 235-243). *)
Theorem Standard_merges_exactly_when_eligible method OnlyOnes PartLoadMax Pmax cols ri fi c :
  method ∈ ["Standard"; "MILP"] ->
  usable_columns cols = true -> "Nunits" ∈ cols ->
  ready cols ri = true -> positive ri = true ->
  ready cols (merged_row c) = true -> positive (merged_row c) = true ->
  exists st plm pc hf,
    same_type ri (merged_row c) = Ok st /\ ri !! "PartLoadMin" = Some (Num plm) /\
    ri !! "PowerCapacity" = Some (Num pc) /\ highly_flexible ri = Ok hf /\
    let cluster :=
      OnlyOnes && st &&
      ((bool_decide (fi = merged_fingerprint c) && bool_decide (plm ≤ PartLoadMax)%Qc)
       || hf || bool_decide (pc ≤ Pmax)%Qc) in
    (cluster = true ->
       exists r', try_merge method OnlyOnes PartLoadMax Pmax cols ri fi c = Ok (Some r')) /\
    (cluster = false ->
       try_merge method OnlyOnes PartLoadMax Pmax cols ri fi c = Ok None).
Proof.
  intros Hm Hc HN Hi Hpi Hj Hpj.
  destruct (merge_tests_total cols PartLoadMax Pmax ri fi c Hc Hi Hj) as (ts & Hts).
  destruct (merge_tests_inv _ _ _ _ _ _ Hts) as (st & plm & pc & hf & H1 & H2 & H3 & H4 & ->).
  exists st, plm, pc, hf. repeat (split; [done|]). cbv zeta.
  unfold try_merge. rewrite Hts. cbn [bind].
  rewrite (bool_decide_eq_true_2 _ Hm). unfold eligible.
  cbn [andb t_same_type t_same_fingerprint t_low_pmin t_low_pmax t_highly_flexible].
  split; intros ->.
  - destruct (positive_parts _ Hpi) as [HPi _]. destruct (positive_parts _ Hpj) as [HPj _].
    destruct (merge_capacity_weighted_total false average_keys_Standard cols (merged_row c) ri)
      as (r' & Hr' & _); try done; [by left|].
    unfold merge_Standard. rewrite Hr'. by exists r'.
  - rewrite !elem_of_cons, elem_of_nil in Hm.
    destruct Hm as [->|[->|[]]]; cbn [String.eqb Ascii.eqb Bool.eqb andb]; reflexivity.
Qed.

(** X12: under 'Integer clustering' a plant merges into a cluster
    exactly when the two agree on Zone, Technology, Fuel and CHPType;
    neither the counts, the fingerprints, [PartLoadMax] nor [Pmax] have a
    part in it (line 296). *)
Theorem Integer_clustering_merges_on_same_type OnlyOnes PartLoadMax Pmax cols ri fi c :
  usable_columns cols = true -> "Nunits" ∈ cols ->
  ready cols ri = true -> positive ri = true ->
  ready cols (merged_row c) = true -> positive (merged_row c) = true ->
  exists st, same_type ri (merged_row c) = Ok st /\
    (st = true ->
       exists r', try_merge "Integer clustering" OnlyOnes PartLoadMax Pmax cols ri fi c
                  = Ok (Some r')) /\
    (st = false ->
       try_merge "Integer clustering" OnlyOnes PartLoadMax Pmax cols ri fi c = Ok None).
Proof.
  intros Hc HN Hi Hpi Hj Hpj.
  destruct (merge_tests_total cols PartLoadMax Pmax ri fi c Hc Hi Hj) as (ts & Hts).
  exists (t_same_type ts). split; [by apply (merge_tests_same_type PartLoadMax Pmax ri fi)|].
  unfold try_merge. rewrite Hts. cbn [bind].
  change (bool_decide ("Integer clustering" ∈ ["Standard"; "MILP"])) with false.
  cbn [andb String.eqb Ascii.eqb Bool.eqb].
  split; intros ->; cbn [andb]; [|done].
  destruct (positive_parts _ Hpi) as [_ HNi]. destruct (positive_parts _ Hpj) as [_ HNj].
  destruct (merge_Integer_total cols (merged_row c) ri) as (r' & Hr' & _); try done.
  rewrite Hr'. by exists r'.
Qed.

Lemma Standard_merges_exactly_when_eligible_witness :
  exists st plm pc hf,
    same_type plant_20 (merged_row cluster_10) = Ok st /\
    plant_20 !! "PartLoadMin" = Some (Num plm) /\
    plant_20 !! "PowerCapacity" = Some (Num pc) /\ highly_flexible plant_20 = Ok hf /\
    let cluster :=
      true && st &&
      ((bool_decide (fingerprint_20 = merged_fingerprint cluster_10)
        && bool_decide (plm ≤ default_PartLoadMax)%Qc)
       || hf || bool_decide (pc ≤ default_Pmax)%Qc) in
    (cluster = true ->
       exists r', try_merge "MILP" true default_PartLoadMax default_Pmax sample_columns
                    plant_20 fingerprint_20 cluster_10 = Ok (Some r')) /\
    (cluster = false ->
       try_merge "MILP" true default_PartLoadMax default_Pmax sample_columns
         plant_20 fingerprint_20 cluster_10 = Ok None).
Proof.
  apply (Standard_merges_exactly_when_eligible "MILP" true default_PartLoadMax default_Pmax
           sample_columns plant_20 fingerprint_20 cluster_10);
    try (vm_compute; reflexivity); in_list.
Defined.

Lemma Integer_clustering_merges_on_same_type_witness :
  exists st, same_type plant_20 (merged_row cluster_10) = Ok st /\
    (st = true ->
       exists r', try_merge "Integer clustering" false default_PartLoadMax default_Pmax
                    sample_columns plant_20 fingerprint_20 cluster_10 = Ok (Some r')) /\
    (st = false ->
       try_merge "Integer clustering" false default_PartLoadMax default_Pmax
         sample_columns plant_20 fingerprint_20 cluster_10 = Ok None).
Proof.
  apply (Integer_clustering_merges_on_same_type false default_PartLoadMax default_Pmax
           sample_columns plant_20 fingerprint_20 cluster_10);
    try (vm_compute; reflexivity); in_list.
Defined.

Section Passthrough.

Variable _mylogspace : Qc -> Qc -> nat -> list Qc.
Variable clean_strings : string -> string.
Variable shrink_to_64 : string -> string.

Lemma clustering_never_eq plants method Nslices PartLoadMax Pmax :
  typed_table plants = true ->
  bounds_nonempty _mylogspace Nslices = true ->
  method ∈ ["Standard"; "MILP"; "LP"; "No clustering"] ->
  never_merges method (all_ones (default_Nunits plants)) = true ->
  snd (clustering _mylogspace clean_strings shrink_to_64 plants method Nslices PartLoadMax Pmax)
  = snd (clustering _mylogspace clean_strings shrink_to_64 plants "No clustering"
                    Nslices PartLoadMax Pmax) /\
  fst (clustering _mylogspace clean_strings shrink_to_64 plants method Nslices PartLoadMax Pmax)
  = (if bool_decide (method ∈ ["Standard"; "MILP"]) && negb (all_ones (default_Nunits plants))
     then [NunitsNotAllOne] else []) ++ [DidNotCluster].
Proof.
  intros Ht Hb Hm Hn.
  destruct (default_Nunits_pre_ready plants Ht) as (Hc & HN & Hr).
  destruct (fingerprints_total _mylogspace Nslices (default_Nunits plants) Hb Hc Hr)
    as (fps & Hfps & Hlen).
  unfold clustering, prepare. rewrite missing_input_None by (by apply typed_table_columns).
  rewrite !check_method_plain by (done || in_list).
  rewrite !(cluster_units_never _mylogspace clean_strings shrink_to_64 _ Nslices PartLoadMax
              Pmax _ (default_Nunits plants) fps) by done.
  cbv beta iota. cbn [fst snd rows].
  rewrite !length_map, units_of_length by (by rewrite length_map).
  rewrite length_map, Nat.eqb_refl. done.
Qed.

(** X13: the method 'LP' does what 'No clustering' does: on every typed
    frame the two calls return the same log, the same frame and the same
    mapping (lines 179-184: both branches pass, and no branch of the
    merging loop is for them). *)
Theorem LP_is_No_clustering plants Nslices PartLoadMax Pmax :
  typed_table plants = true ->
  bounds_nonempty _mylogspace Nslices = true ->
  clustering _mylogspace clean_strings shrink_to_64 plants "LP" Nslices PartLoadMax Pmax
  = clustering _mylogspace clean_strings shrink_to_64 plants "No clustering"
               Nslices PartLoadMax Pmax.
Proof.
  intros Ht Hb.
  destruct (clustering_never_eq plants "LP" Nslices PartLoadMax Pmax Ht Hb) as [H1 H2];
    [in_list|reflexivity|].
  destruct (clustering_never_eq plants "No clustering" Nslices PartLoadMax Pmax Ht Hb)
    as [_ H3]; [in_list|reflexivity|].
  destruct (clustering _ _ _ plants "LP" _ _ _) as [l1 r1].
  destruct (clustering _ _ _ plants "No clustering" _ _ _) as [l2 r2].
  cbn [fst snd] in *. by subst.
Qed.

End Passthrough.

Lemma LP_is_No_clustering_witness :
  clustering logspace_20 keep_string first_64 mixed_counts "LP"
             default_Nslices default_PartLoadMax default_Pmax
  = clustering logspace_20 keep_string first_64 mixed_counts "No clustering"
               default_Nslices default_PartLoadMax default_Pmax.
Proof.
  apply (LP_is_No_clustering logspace_20 keep_string first_64 mixed_counts);
    vm_compute; reflexivity.
Defined.

(** ** The new names *)

Lemma rstrip_not_empty_last s :
  rstrip s <> EmptyString -> ends_with_space (rstrip s) = false.
Proof.
  induction s as [|a s IH]; [done|]. cbn [rstrip].
  destruct (rstrip s) as [|b t] eqn:E.
  - destruct (is_space a) eqn:Ha; [done|]. intros _. unfold ends_with_space. cbn. done.
  - intros _. unfold ends_with_space in *. cbn [last_char]. by apply IH.
Qed.

Lemma rstrip_ends s : ends_with_space (rstrip s) = false.
Proof.
  destruct (rstrip s) eqn:E; [done|]. rewrite <- E. apply rstrip_not_empty_last. by rewrite E.
Qed.

Section Names.

Variable _mylogspace : Qc -> Qc -> nat -> list Qc.
Variable clean_strings : string -> string.
Variable shrink_to_64 : string -> string.

Lemma name_of_ends c : ends_with_space (name_of clean_strings shrink_to_64 c) = false.
Proof.
  unfold name_of, NewName.
  destruct (former c) as [|i [|j l]].
  - destruct (foldM _ string_keys ""); [apply rstrip_ends|done].
  - destruct (gets (merged_row c) "Unit"); [apply rstrip_ends|done].
  - destruct (foldM _ string_keys ""); [apply rstrip_ends|done].
Qed.

(** X14: no new unit name ends with white space, whatever
    [clean_strings] and [shrink_to_64] return: this holds for the column
    Unit of the result, for the keys of FormerIndexes and for the values
    of NewIndex (lines 324-326, 334-336: [rstrip] is applied last). *)
Theorem new_names_do_not_end_with_space plants method Nslices PartLoadMax Pmax :
  typed_table plants = true -> positive_table plants = true ->
  bounds_nonempty _mylogspace Nslices = true ->
  method ∈ methods ->
  (method = "LP clustered" -> has_column plants "RampingCost" = true) ->
  (method = "Integer clustering" -> rows plants <> []) ->
  exists log out m,
    clustering _mylogspace clean_strings shrink_to_64 plants method Nslices PartLoadMax Pmax
    = (log, Ok (out, m)) /\
    (forall r, r ∈ rows out ->
       exists name, r !! "Unit" = Some (Str name) /\ ends_with_space name = false) /\
    (forall name l, FormerIndexes m !! name = Some l -> ends_with_space name = false) /\
    (forall i name, NewIndex m !! i = Some name -> ends_with_space name = false).
Proof.
  intros Ht Hp Hb Hm HLP HInt.
  destruct (clustering_stages _mylogspace clean_strings shrink_to_64 plants method
              Nslices PartLoadMax Pmax Ht Hp Hb Hm HLP HInt)
    as (log & t' & oo & fps & cs & final & _ & _ & _ & _ & _ & _ & _ & Hnames & Hrun).
  eexists _, _, _. split; [exact Hrun|]. cbn [rows]. split; [|split].
  - intros r (k & Hk)%list_elem_of_lookup.
    assert (map (fun r => r !! "Unit") final !! k = Some (r !! "Unit")) as Hu.
    { change (map (fun r => r !! "Unit") final) with ((fun r => r !! "Unit") <$> final).
      by rewrite list_lookup_fmap, Hk. }
    rewrite Hnames in Hu.
    change (map (fun c => Some (Str (name_of clean_strings shrink_to_64 c))) cs)
      with ((fun c => Some (Str (name_of clean_strings shrink_to_64 c))) <$> cs) in Hu.
    rewrite list_lookup_fmap in Hu. destruct (cs !! k) as [c|]; [|discriminate].
    injection Hu as Hu. exists (name_of clean_strings shrink_to_64 c).
    split; [done|]. apply name_of_ends.
  - intros name l H. apply FormerIndexes_from in H as (c & _ & <- & _). apply name_of_ends.
  - intros i name H. apply NewIndex_from in H as (c & _ & _ & <-). apply name_of_ends.
Qed.

End Names.

Lemma new_names_do_not_end_with_space_witness :
  exists log out m,
    clustering logspace_20 keep_string first_64 single_units "Standard"
               default_Nslices default_PartLoadMax default_Pmax
    = (log, Ok (out, m)) /\
    (forall r, r ∈ rows out ->
       exists name, r !! "Unit" = Some (Str name) /\ ends_with_space name = false) /\
    (forall name l, FormerIndexes m !! name = Some l -> ends_with_space name = false) /\
    (forall i name, NewIndex m !! i = Some name -> ends_with_space name = false).
Proof.
  apply (new_names_do_not_end_with_space logspace_20 keep_string first_64 single_units
           "Standard");
    [vm_compute; reflexivity | vm_compute; reflexivity | vm_compute; reflexivity
    | in_list | intros H; discriminate H | intros H; discriminate H].
Defined.

(** ** The lists of former indices *)

Lemma StronglySorted_snoc (l : list nat) i :
  StronglySorted lt l -> Forall (fun x => (x < i)%nat) l -> StronglySorted lt (l ++ [i]).
Proof.
  induction 1 as [|x l Hs IH Hx]; intros Hl.
  - cbn. constructor; constructor.
  - apply Forall_cons in Hl as [Hxi Hl]. cbn. constructor; [by apply IH|].
    apply Forall_app. split; [done|]. by apply Forall_singleton.
Qed.

Section Formers.

Variables (method : string) (OnlyOnes : bool) (PartLoadMax Pmax : Qc) (cols : list string).

Lemma ascending_below_mono b b' cs :
  (b <= b')%nat -> ascending_below b cs -> ascending_below b' cs.
Proof.
  intros Hb H. eapply Forall_impl; [exact H|]. intros c (H1 & H2 & H3).
  split; [done|]. split; [|done].
  eapply Forall_impl; [exact H2|]. intros x Hx. cbv beta in *. lia.
Qed.

Lemma add_plant_ascending i ri fi cs cs' :
  ascending_below i cs ->
  add_plant method OnlyOnes PartLoadMax Pmax cols (i, (ri, fi)) cs = Ok cs' ->
  ascending_below (S i) cs'.
Proof.
  intros Hcs H. unfold add_plant in H. apply bind_Ok_inv in H as (m & Hm & H).
  destruct m as [cs1|]; injection H as <-.
  - apply scan_Some in Hm as (l1 & c & l2 & r' & -> & _ & _ & ->).
    unfold ascending_below in *. apply Forall_app in Hcs as [H1 H2].
    apply Forall_cons in H2 as [(Hs & Hb & Hne) H2].
    apply Forall_app. split; [by apply (ascending_below_mono i); [lia|]|].
    constructor; [|by apply (ascending_below_mono i); [lia|]].
    cbn [former]. split; [by apply StronglySorted_snoc|]. split.
    + apply Forall_app. split.
      * eapply Forall_impl; [exact Hb|]. intros x Hx. cbv beta in *. lia.
      * apply Forall_singleton. lia.
    + by destruct (former c).
  - apply Forall_app. split; [by apply (ascending_below_mono i); [lia|]|].
    apply Forall_singleton. cbn [former]. split; [repeat constructor|].
    split; [|done]. apply Forall_singleton. lia.
Qed.

Lemma merge_loop_ascending_go rs fps k cs cs' :
  ascending_below k cs ->
  foldM (add_plant method OnlyOnes PartLoadMax Pmax cols)
        (zip (seq k (length rs)) (zip rs fps)) cs = Ok cs' ->
  ascending_below (k + length rs) cs'.
Proof.
  revert fps k cs. induction rs as [|r rs IH]; intros fps k cs Hcs H.
  - cbn in H. injection H as <-. by rewrite Nat.add_0_r.
  - destruct fps as [|f fps].
    + cbn in H. injection H as <-. apply (ascending_below_mono k); [lia|done].
    + cbn [length seq zip_with foldM] in H. apply bind_Ok_inv in H as (cs1 & H1 & H).
      apply add_plant_ascending in H1; [|done].
      apply IH in H; [|done]. cbn [length]. by replace (k + S (length rs))%nat
        with (S k + length rs)%nat by lia.
Qed.

Lemma merge_loop_ascending rs fps cs :
  merge_loop method OnlyOnes PartLoadMax Pmax cols (units_of rs fps) = Ok cs ->
  ascending_below (length rs) cs.
Proof.
  intros H. apply (merge_loop_ascending_go rs fps 0 [] cs); [constructor|done].
Qed.

End Formers.

Lemma concat_length_le (cs : list cluster) :
  Forall (fun c => former c <> []) cs ->
  (length cs <= length (concat (map former cs)))%nat.
Proof.
  induction 1 as [|c cs Hc _ IH]; [done|]. cbn [map concat length].
  rewrite length_app. destruct (former c); [done|]. cbn [length]. lia.
Qed.

Section Shape.

Variable _mylogspace : Qc -> Qc -> nat -> list Qc.
Variable clean_strings : string -> string.
Variable shrink_to_64 : string -> string.

(** X15: [clustering] returns a frame with the columns of the input
    (and Nunits, when the input had none) and with at most as many rows
    as the input; every list of FormerIndexes is non-empty and strictly
    ascending, since the plants are read in index order
    (lines 220, 232-315, 322-341). *)
Theorem result_shape plants method Nslices PartLoadMax Pmax :
  typed_table plants = true -> positive_table plants = true ->
  bounds_nonempty _mylogspace Nslices = true ->
  method ∈ methods ->
  (method = "LP clustered" -> has_column plants "RampingCost" = true) ->
  (method = "Integer clustering" -> rows plants <> []) ->
  exists log out m,
    clustering _mylogspace clean_strings shrink_to_64 plants method Nslices PartLoadMax Pmax
    = (log, Ok (out, m)) /\
    columns out = columns (default_Nunits plants) /\
    (length (rows out) <= length (rows plants))%nat /\
    (forall name l, FormerIndexes m !! name = Some l ->
       l <> [] /\ StronglySorted lt l).
Proof.
  intros Ht Hp Hb Hm HLP HInt.
  destruct (clustering_stages _mylogspace clean_strings shrink_to_64 plants method
              Nslices PartLoadMax Pmax Ht Hp Hb Hm HLP HInt)
    as (log & t' & oo & fps & cs & final & _ & Hpd & Hlenf & Hloop & _ & _ & Hlenp & _ & Hrun).
  destruct Hpd as (_ & _ & Hcols & Hlen & _).
  pose proof (merge_loop_ascending _ _ _ _ _ _ _ _ Hloop) as Hasc.
  pose proof (merge_loop_former _ _ _ _ _ _ _ Hloop) as Hperm.
  eexists _, _, _. split; [exact Hrun|]. cbn [columns rows]. split; [done|]. split.
  - rewrite Hlenp.
    etransitivity; [apply concat_length_le|].
    + eapply Forall_impl; [exact Hasc|]. by intros c (_ & _ & ?).
    + rewrite Hperm, length_map, units_of_length by (by rewrite length_map).
      by rewrite length_map, Hlen.
  - intros name l H. apply FormerIndexes_from in H as (c & Hc & _ & <-).
    unfold ascending_below in Hasc. rewrite Forall_forall in Hasc.
    by destruct (Hasc c Hc) as (? & _ & ?).
Qed.

End Shape.

Lemma result_shape_witness :
  exists log out m,
    clustering logspace_20 keep_string first_64 single_units "Standard"
               default_Nslices default_PartLoadMax default_Pmax
    = (log, Ok (out, m)) /\
    columns out = columns (default_Nunits single_units) /\
    (length (rows out) <= length (rows single_units))%nat /\
    (forall name l, FormerIndexes m !! name = Some l ->
       l <> [] /\ StronglySorted lt l).
Proof.
  apply (result_shape logspace_20 keep_string first_64 single_units "Standard");
    [vm_compute; reflexivity | vm_compute; reflexivity | vm_compute; reflexivity
    | in_list | intros H; discriminate H | intros H; discriminate H].
Defined.

(** ** The members of a cluster are of one type *)

Lemma same_type_true ri rj :
  same_type ri rj = Ok true ->
  forall key, key ∈ string_keys -> fillna <$> ri !! key = fillna <$> rj !! key.
Proof.
  unfold same_type. intros H. apply bind_Ok_inv in H as (eqs & Heqs & H). injection H as H.
  apply mapM_Forall2 in Heqs. intros key Hk.
  apply list_elem_of_lookup in Hk as (k & Hk).
  destruct (Forall2_lookup_l _ _ _ _ _ Heqs Hk) as (b & Hb & Hkey).
  assert (b = true) as ->.
  { rewrite forallb_forall in H. apply (H b). apply list_elem_of_In.
    by eapply list_elem_of_lookup_2. }
  unfold get_filled in Hkey.
  destruct (ri !! key) as [ci|]; [|discriminate]. cbn [bind] in Hkey.
  destruct (rj !! key) as [cj|]; [|discriminate]. cbn [bind] in Hkey.
  injection Hkey as Hkey. apply bool_decide_eq_true_1 in Hkey. cbn. by rewrite Hkey.
Qed.

Lemma try_merge_same_type method OnlyOnes PartLoadMax Pmax cols ri fi c r' :
  try_merge method OnlyOnes PartLoadMax Pmax cols ri fi c = Ok (Some r') ->
  same_type ri (merged_row c) = Ok true.
Proof.
  intros H. apply try_merge_Some in H as (ts & Hts & H).
  apply merge_tests_same_type in Hts. rewrite Hts. f_equal.
  destruct H as [(_ & He & _)|[(_ & Hs & _)|(_ & Hs & _)]]; try done.
  unfold eligible in He. by destruct OnlyOnes, (t_same_type ts).
Qed.

(** No merge writes a category. *)
Lemma try_merge_keeps_types method OnlyOnes PartLoadMax Pmax cols ri fi c r' key :
  try_merge method OnlyOnes PartLoadMax Pmax cols ri fi c = Ok (Some r') ->
  key ∈ string_keys ->
  r' !! key = merged_row c !! key.
Proof.
  intros H Hk. unfold string_keys in Hk. rewrite !elem_of_cons, elem_of_nil in Hk.
  apply try_merge_Some in H as (ts & _ & [(_ & _ & Hr')|[(_ & _ & _ & Hr')|(_ & _ & Hr')]]).
  - apply (merge_capacity_weighted_keeps false average_keys_Standard cols _ ri _ _ Hr').
    destruct Hk as [->|[->|[->|[->|[]]]]]; apply (bool_decide_eq_true_1 _); reflexivity.
  - apply (merge_capacity_weighted_keeps true average_keys_LP cols _ ri _ _ Hr').
    destruct Hk as [->|[->|[->|[->|[]]]]]; apply (bool_decide_eq_true_1 _); reflexivity.
  - apply (merge_Integer_keeps cols _ ri _ _ Hr').
    destruct Hk as [->|[->|[->|[->|[]]]]]; apply (bool_decide_eq_true_1 _); reflexivity.
Qed.

Section OneType.

Variables (method : string) (OnlyOnes : bool) (PartLoadMax Pmax : Qc) (cols : list string).

Lemma add_plant_of_one_type rs i ri fi cs cs' :
  rs !! i = Some ri ->
  of_one_type rs cs ->
  add_plant method OnlyOnes PartLoadMax Pmax cols (i, (ri, fi)) cs = Ok cs' ->
  of_one_type rs cs'.
Proof.
  intros Hi Hcs H. unfold add_plant in H. apply bind_Ok_inv in H as (m & Hm & H).
  destruct m as [cs1|]; injection H as <-.
  - apply scan_Some in Hm as (l1 & c & l2 & r' & -> & _ & Hmerge & ->).
    unfold of_one_type in *. apply Forall_app in Hcs as [H1 H2].
    apply Forall_cons in H2 as [Hc H2].
    apply Forall_app. split; [done|]. constructor; [|done].
    cbn [former merged_row]. intros j Hj.
    pose proof (try_merge_same_type _ _ _ _ _ _ _ _ _ Hmerge) as Hst.
    apply elem_of_app in Hj as [Hj|Hj].
    + destruct (Hc j Hj) as (r & Hr & Hkeys). exists r. split; [done|].
      intros key Hk. rewrite <- (Hkeys key Hk).
      by rewrite (try_merge_keeps_types _ _ _ _ _ _ _ _ _ key Hmerge Hk).
    + apply list_elem_of_singleton in Hj as ->. exists ri. split; [done|].
      intros key Hk.
      rewrite (try_merge_keeps_types _ _ _ _ _ _ _ _ _ key Hmerge Hk).
      symmetry. by apply same_type_true.
  - unfold of_one_type in *. apply Forall_app. split; [done|]. apply Forall_singleton.
    cbn [former merged_row]. intros j Hj. apply list_elem_of_singleton in Hj as ->.
    by exists ri.
Qed.

Lemma merge_loop_of_one_type_go rs (units : list (nat * (gmap string cell * list nat))) cs cs' :
  Forall (fun u => rs !! u.1 = Some u.2.1) units ->
  of_one_type rs cs ->
  foldM (add_plant method OnlyOnes PartLoadMax Pmax cols) units cs = Ok cs' ->
  of_one_type rs cs'.
Proof.
  intros Hu. revert cs. induction Hu as [|[i [ri fi]] units Hi _ IH]; intros cs Hcs H.
  - by injection H as <-.
  - cbn [foldM] in H. apply bind_Ok_inv in H as (cs1 & H1 & H).
    apply (IH cs1); [|done]. by apply (add_plant_of_one_type rs i ri fi cs).
Qed.

Lemma merge_loop_of_one_type rs fps cs :
  length fps = length rs ->
  merge_loop method OnlyOnes PartLoadMax Pmax cols (units_of rs fps) = Ok cs ->
  of_one_type rs cs.
Proof.
  intros Hlen H. apply (merge_loop_of_one_type_go rs (units_of rs fps) [] cs); [|constructor|done].
  apply Forall_forall. intros [i [r f]] (k & Hk)%list_elem_of_lookup. cbn [fst snd].
  unfold units_of in Hk. rewrite !lookup_zip_with in Hk.
  destruct (seq 0 (length rs) !! k) as [j|] eqn:Hj; [|done]. cbn in Hk.
  destruct (rs !! k) as [r0|] eqn:Hr; [|done]. cbn in Hk.
  destruct (fps !! k) as [f0|]; [|done]. cbn in Hk. injection Hk as -> -> ->.
  apply lookup_seq in Hj as [-> _]. done.
Qed.

End OneType.

Lemma string_keys_other key :
  key ∈ string_keys ->
  key <> "Nunits" /\ key <> "RampingCost" /\ key <> "Unit" /\
  (key ∉ capacity_keys) /\ (key ∉ rescaled_keys).
Proof.
  unfold string_keys. rewrite !elem_of_cons, elem_of_nil.
  intros [->|[->|[->|[->|[]]]]].
  all: split; [done|]; split; [done|]; split; [done|].
  all: split; apply (bool_decide_eq_true_1 _); reflexivity.
Qed.

Lemma expand_step_keeps cols key k r r' :
  key ∉ capacity_keys -> k ∈ capacity_keys ->
  expand_step cols k r = Ok r' -> r' !! key = r !! key.
Proof.
  intros Hkey Hk H. unfold expand_step in H. destruct (in_keys k cols).
  - unfold expand_row in H. inv_bind H. injection H as <-.
    rewrite lookup_insert_ne; [done|]. by intros ->.
  - by injection H as ->.
Qed.

Lemma foldM_keeps_in (step : string -> gmap string cell -> result (gmap string cell))
    key ks r r' :
  (forall k r0 r1, k ∈ ks -> step k r0 = Ok r1 -> r1 !! key = r0 !! key) ->
  foldM step ks r = Ok r' -> r' !! key = r !! key.
Proof.
  revert r. induction ks as [|k ks IH]; intros r Hstep H.
  - by injection H as ->.
  - cbn [foldM] in H. apply bind_Ok_inv in H as (r1 & H1 & H).
    rewrite (IH r1); [|intros k0 r0 r2 Hk0; apply Hstep; by right|done].
    apply (Hstep k); [by left|done].
Qed.

(** Lines 155-187 leave the categories of every row as they are. *)
Lemma prepare_keeps_types method plants log t' OnlyOnes :
  prepare method plants = (log, Ok (t', OnlyOnes)) ->
  Forall2 (fun r r' => forall key, key ∈ string_keys -> r' !! key = r !! key)
          (rows plants) (rows t').
Proof.
  intros H.
  assert (Forall2 (fun r r' => forall key, key ∈ string_keys -> r' !! key = r !! key)
                  (rows plants) (rows (default_Nunits plants))) as Hdef.
  { unfold default_Nunits. destruct (has_column plants "Nunits").
    - apply Forall2_same_length_lookup_2; [done|]. intros i r r' H1 H2 key _. congruence.
    - cbn [assign_column rows]. apply Forall2_fmap_r. apply Forall_Forall2_diag.
      apply Forall_forall. intros r _ key Hk. apply string_keys_other in Hk as (Hk & _).
      by rewrite lookup_insert_ne. }
  unfold prepare in H. destruct (missing_input plants); [discriminate|].
  set (t := default_Nunits plants) in *.
  assert (t' = t \/ pre_expand t = Ok t') as [->|Hexp]; [|done|].
  { unfold check_method in H.
    repeat match type of H with
           | (if ?b then _ else _) = _ => destruct b
           end; try discriminate; try (injection H as _ <- _; by left).
    injection H as _ H. apply bind_Ok_inv in H as (t1 & H1 & H). injection H as <- _.
    by right. }
  set (same := fun r r' : gmap string cell =>
                 forall key, key ∈ string_keys -> r' !! key = r !! key) in *.
  apply (Forall2_chain same same same _ (rows t)); [|exact Hdef|].
  { intros r1 r2 r3 H1 H2 key Hk. by rewrite (H2 key Hk), (H1 key Hk). }
  unfold same.
  unfold pre_expand in Hexp. apply bind_Ok_inv in Hexp as (t1 & H1 & Hexp).
  injection Hexp as <-. apply foldM_expand_column_rows in H1 as [_ H1].
  apply mapM_Forall2 in H1. cbn [assign_column rows]. apply Forall2_fmap_r.
  eapply Forall2_impl; [exact H1|]. cbn beta. intros r r1 Hr key Hk.
  apply string_keys_other in Hk as (HN & _ & _ & Hcap & _).
  rewrite lookup_insert_ne by done.
  apply (foldM_keeps_in _ key) in Hr; [done|]. intros k r0 r2 Hk0.
  by apply expand_step_keeps.
Qed.

(** Lines 343-358 leave the categories of every row as they are. *)
Lemma post_process_keeps_types method cols rs final :
  post_process method cols rs = Ok final ->
  Forall2 (fun r r' => forall key, key ∈ string_keys -> r' !! key = r !! key) rs final.
Proof.
  unfold post_process. intros H.
  destruct (method =? "LP clustered").
  { apply mapM_Forall2 in H. eapply Forall2_impl; [exact H|]. cbn beta.
    intros r r' Hr key Hk. apply string_keys_other in Hk as (_ & HR & _).
    by apply (ramping_from_startup_other r r'). }
  destruct (method =? "Integer clustering").
  2:{ injection H as <-. apply Forall_Forall2_diag. by apply Forall_forall. }
  unfold round_Nunits in H. apply bind_Ok_inv in H as (Ns & _ & H).
  destruct (last Ns) as [N|]; [|discriminate].
  destruct (last rs) as [r|] eqn:Hlast; [|discriminate].
  apply bind_Ok_inv in H as (r' & Hr' & H). injection H as <-.
  apply last_Some in Hlast as (front & ->). rewrite removelast_last.
  apply Forall2_app.
  - apply Forall_Forall2_diag. by apply Forall_forall.
  - constructor; [|constructor]. intros key Hk.
    apply string_keys_other in Hk as (HN & _ & _ & _ & Hres).
    rewrite lookup_insert_ne by done.
    apply (foldM_keeps_in _ key) in Hr'; [done|]. intros k r0 r2 Hk0 Hs.
    apply (rescale_key_frame _ _ _ _ _ Hs). by intros ->.
Qed.

Section OneTypeResult.

Variable _mylogspace : Qc -> Qc -> nat -> list Qc.
Variable clean_strings : string -> string.
Variable shrink_to_64 : string -> string.

(** X16: clusters never mix types.  When the new names are pairwise
    distinct, every original unit [i] has, in Zone, Technology, Fuel and
    CHPType, the value of the row of the result that NewIndex maps it to
    (a missing value counting as the empty string, as [fillna] leaves
    it). *)
Theorem clusters_are_of_one_type plants method Nslices PartLoadMax Pmax :
  typed_table plants = true -> positive_table plants = true ->
  bounds_nonempty _mylogspace Nslices = true ->
  method ∈ methods ->
  (method = "LP clustered" -> has_column plants "RampingCost" = true) ->
  (method = "Integer clustering" -> rows plants <> []) ->
  exists log out m,
    clustering _mylogspace clean_strings shrink_to_64 plants method Nslices PartLoadMax Pmax
    = (log, Ok (out, m)) /\
    (NoDup (unit_names out) ->
     forall j r' name i,
       rows out !! j = Some r' -> r' !! "Unit" = Some (Str name) ->
       NewIndex m !! i = Some name ->
       exists r, rows plants !! i = Some r /\
         forall key, key ∈ string_keys -> r' !! key = fillna <$> r !! key).
Proof.
  intros Ht Hp Hb Hm HLP HInt.
  destruct (clustering_stages _mylogspace clean_strings shrink_to_64 plants method
              Nslices PartLoadMax Pmax Ht Hp Hb Hm HLP HInt)
    as (log & t' & oo & fps & cs & final & Hprep & Hpd & Hlenf & Hloop & Hcs & Hpost & Hlenp
        & Hnames & Hrun).
  eexists _, _, _. split; [exact Hrun|]. cbn [rows]. intros Hdistinct j r' name i Hj Hname Hi.
  assert (NoDup (map (name_of clean_strings shrink_to_64) cs)) as Hdn.
  { unfold unit_names in Hdistinct. cbn [rows] in Hdistinct. rewrite Hnames in Hdistinct.
    apply (NoDup_fmap_1 (fun name => Some (Str name))).
    by rewrite <- list_fmap_compose. }
  apply NewIndex_from in Hi as (c & Hc & Hi & Hnc).
  apply list_elem_of_lookup in Hc as (k & Hk).
  destruct (lookup_lt_is_Some_2 cs j) as (cj & Hcj).
  { rewrite <- Hlenp. by eapply lookup_lt_Some. }
  assert (name_of clean_strings shrink_to_64 cj = name) as Hncj.
  { assert (map (fun r => r !! "Unit") final !! j
            = map (fun c => Some (Str (name_of clean_strings shrink_to_64 c))) cs !! j) as E
      by (by rewrite Hnames).
    rewrite !list_lookup_fmap, Hj, Hcj in E. cbn in E. rewrite Hname in E. by injection E. }
  assert (k = j) as ->.
  { apply (NoDup_lookup _ _ _ name Hdn); rewrite list_lookup_fmap.
    - by rewrite Hk; cbn; rewrite Hnc.
    - by rewrite Hcj; cbn; rewrite Hncj. }
  assert (cj = c) as -> by congruence.
  apply merge_loop_of_one_type in Hloop; [|by rewrite length_map].
  unfold of_one_type in Hloop. rewrite Forall_forall in Hloop.
  destruct (Hloop c (list_elem_of_lookup_2 _ _ _ Hk) i Hi) as (r1 & Hr1 & Htypes).
  rewrite list_lookup_fmap in Hr1.
  destruct (rows t' !! i) as [r0|] eqn:Hr0; [|done]. injection Hr1 as <-.
  pose proof (prepare_keeps_types _ _ _ _ _ Hprep) as Hkeep.
  destruct (Forall2_lookup_r _ _ _ _ _ Hkeep Hr0) as (r & Hr & Hsame).
  exists r. split; [done|]. intros key Hkey.
  pose proof (post_process_keeps_types _ _ _ _ Hpost) as Hpp.
  destruct (Forall2_lookup_r _ _ _ _ _ Hpp Hj) as (rn & Hrn & Hsame').
  rewrite list_lookup_fmap, Hk in Hrn. injection Hrn as <-.
  rewrite (Hsame' key Hkey).
  pose proof (string_keys_other key Hkey) as (_ & _ & HU & _).
  unfold renamed. rewrite lookup_insert_ne by done.
  rewrite Forall_forall in Hcs.
  destruct (Hcs c (list_elem_of_lookup_2 _ _ _ Hk)) as [Hready _].
  destruct (ready_str _ _ key Hready Hkey) as (s & Hs).
  specialize (Htypes key Hkey). rewrite Hs in Htypes. cbn in Htypes.
  rewrite Hs, Htypes, fill_row_lookup, (bool_decide_eq_true_2 _ Hkey), <- (Hsame key Hkey).
  destruct (r0 !! key) as [[| |]|]; reflexivity.
Qed.

End OneTypeResult.

Lemma clusters_are_of_one_type_witness :
  exists log out m,
    clustering logspace_20 keep_string first_64 single_units "LP clustered"
               default_Nslices default_PartLoadMax default_Pmax
    = (log, Ok (out, m)) /\
    (NoDup (unit_names out) ->
     forall j r' name i,
       rows out !! j = Some r' -> r' !! "Unit" = Some (Str name) ->
       NewIndex m !! i = Some name ->
       exists r, rows single_units !! i = Some r /\
         forall key, key ∈ string_keys -> r' !! key = fillna <$> r !! key).
Proof.
  apply (clusters_are_of_one_type logspace_20 keep_string first_64 single_units "LP clustered");
    [vm_compute; reflexivity | vm_compute; reflexivity | vm_compute; reflexivity
    | in_list | intros _; vm_compute; reflexivity | intros H; discriminate H].
Defined.

(** ** Counts *)

Section Counts.

Variables (OnlyOnes : bool) (PartLoadMax Pmax : Qc) (cols : list string).
Hypothesis cols_usable : usable_columns cols = true.
Hypothesis cols_Nunits : "Nunits" ∈ cols.

Lemma add_plant_counts u rs cs cs' :
  accounted "Integer clustering" OnlyOnes cols rs cs ->
  readable "Integer clustering" OnlyOnes cols u.2.1 ->
  total count (map merged_row cs) = total count rs ->
  add_plant "Integer clustering" OnlyOnes PartLoadMax Pmax cols u cs = Ok cs' ->
  total count (map merged_row cs') = total count (rs ++ [u.2.1]).
Proof.
  destruct u as [i [ri fi]]. cbn [fst snd].
  intros (Hinv & _) (Hr & Hp & _) Hsum H.
  unfold add_plant in H. apply bind_Ok_inv in H as (m & Hm & H).
  destruct m as [cs1|]; injection H as <-.
  - apply scan_Some in Hm as (l1 & c & l2 & r' & -> & _ & Hmerge & ->).
    apply Forall_app in Hinv as [_ Hinv2]. apply Forall_cons in Hinv2 as [[Hcr Hcp] _].
    destruct (positive_parts _ Hp) as [HPi HNi]. destruct (positive_parts _ Hcp) as [HPj HNj].
    destruct (is_pos_lookup _ _ HPi) as (b & Hb & _).
    destruct (is_pos_lookup _ _ HPj) as (a & Ha & _).
    destruct (is_pos_lookup _ _ HNi) as (ni & Hni & _).
    destruct (is_pos_lookup _ _ HNj) as (nj & Hnj & _).
    apply try_merge_Some in Hmerge
      as (ts & _ & [(Hm & _)|[(Hm & _)|(_ & _ & Hr')]]); [exfalso..|].
    { revert Hm. apply (bool_decide_eq_false_1 _). reflexivity. }
    { discriminate Hm. }
    destruct (merge_Integer_values cols (merged_row c) ri r' a nj b ni) as (_ & HN' & _);
      try done.
    { by apply usable_columns_NoDup. }
    { apply usable_columns_in; [done|in_list]. }
    rewrite total_clusters, total_app in *. cbn [merged_row total foldr].
    rewrite <- Hsum. unfold count.
    rewrite (cell_num_lookup _ _ _ HN'), (cell_num_lookup _ _ _ Hni), (cell_num_lookup _ _ _ Hnj).
    ring.
  - rewrite map_app, !total_app. cbn [map merged_row]. by rewrite Hsum.
Qed.

Lemma merge_loop_counts_go units rs cs cs' :
  accounted "Integer clustering" OnlyOnes cols rs cs ->
  Forall (fun u => readable "Integer clustering" OnlyOnes cols u.2.1) units ->
  total count (map merged_row cs) = total count rs ->
  foldM (add_plant "Integer clustering" OnlyOnes PartLoadMax Pmax cols) units cs = Ok cs' ->
  total count (map merged_row cs') = total count (rs ++ map (fun u => u.2.1) units).
Proof.
  intros Hacc Hu. revert rs cs Hacc.
  induction Hu as [|u units Hr _ IH]; intros rs cs Hacc Hsum H.
  - injection H as <-. by rewrite app_nil_r.
  - cbn [foldM] in H. apply bind_Ok_inv in H as (cs1 & H1 & H).
    cbn [map]. rewrite (cons_middle _ rs), app_assoc.
    apply (IH _ cs1); [|by apply (add_plant_counts u rs cs cs1)|done].
    by apply (add_plant_accounted "Integer clustering" OnlyOnes PartLoadMax Pmax cols
                cols_usable cols_Nunits u rs cs cs1).
Qed.

End Counts.

Section CountsResult.

Variable _mylogspace : Qc -> Qc -> nat -> list Qc.
Variable clean_strings : string -> string.
Variable shrink_to_64 : string -> string.

Lemma readable_units method oo plants t' fps :
  prepared method plants t' oo ->
  (method = "Integer clustering" -> whole_counts plants = true) ->
  Forall (fun u => readable method oo (columns t') u.2.1)
         (units_of (map fill_row (rows t')) fps).
Proof.
  intros (Hc & HN & Hcols & Hlen & Hrows & HLPoo & Hones & HF2 & Hid) Hwhole.
  assert (method = "Integer clustering" ->
          Forall (fun r => is_whole r "Nunits" = true) (rows t')) as Hwh'.
  { intros E. pose proof (default_Nunits_whole plants (Hwhole E)) as Hd.
    clear -HF2 Hd. induction HF2 as [|r r' l l' [_ Hw] _ IH]; [constructor|].
    apply Forall_cons in Hd as [Hd1 Hd2]. constructor; [by apply Hw|by apply IH]. }
  apply Forall_forall. intros u Hu. apply units_of_rows in Hu.
  apply list_elem_of_fmap in Hu as (r & -> & Hin).
  rewrite Forall_forall in Hrows. destruct (Hrows r Hin) as [H1 H2].
  assert (fill_row r !! "Nunits" = r !! "Nunits") as HfN by (apply fill_row_other; in_list).
  assert (fill_row r !! "PowerCapacity" = r !! "PowerCapacity") as HfP
    by (apply fill_row_other; in_list).
  unfold readable. split; [by apply fill_row_ready|]. split; [|split].
  - unfold positive, is_pos in *. by rewrite HfN, HfP.
  - intros Hoo. specialize (Hones Hoo). rewrite Forall_forall in Hones.
    rewrite HfN. by apply Hones.
  - intros E. specialize (Hwh' E). rewrite Forall_forall in Hwh'.
    unfold is_whole. rewrite HfN. by apply Hwh'.
Qed.

(** X18: 'Integer clustering' conserves the number of units: on a frame
    with whole counts, the sum of Nunits over the rows of the result is
    the sum of Nunits over the rows of the input (lines 303, 352-358). *)
Theorem Integer_clustering_keeps_the_number_of_units plants Nslices PartLoadMax Pmax :
  typed_table plants = true -> positive_table plants = true ->
  bounds_nonempty _mylogspace Nslices = true ->
  rows plants <> [] ->
  whole_counts plants = true ->
  exists log out m,
    clustering _mylogspace clean_strings shrink_to_64 plants "Integer clustering"
               Nslices PartLoadMax Pmax
    = (log, Ok (out, m)) /\
    total count (rows out) = total count (rows (default_Nunits plants)).
Proof.
  intros Ht Hp Hb Hne Hwhole.
  destruct (clustering_stages _mylogspace clean_strings shrink_to_64 plants
              "Integer clustering" Nslices PartLoadMax Pmax Ht Hp Hb)
    as (log & t' & oo & fps & cs & final & _ & Hpd & Hlenf & Hloop & Hcs & Hpost & _ & _ & Hrun);
    [in_list|discriminate|done|].
  pose proof (readable_units _ _ _ _ fps Hpd (fun _ => Hwhole)) as Hunits.
  destruct Hpd as (Hc & HN & Hcols & Hlen & Hrows & HLPoo & Hones & HF2 & Hid).
  set (rs := map fill_row (rows t')) in *.
  assert (length fps = length rs) as Hlenf' by (unfold rs; by rewrite length_map).
  pose proof (merge_loop_accounted "Integer clustering" oo PartLoadMax Pmax (columns t') Hc HN
                (units_of rs fps) cs Hunits Hloop) as (_ & _ & _ & _ & Hwhc).
  pose proof (merge_loop_counts_go oo PartLoadMax Pmax (columns t') Hc HN
                (units_of rs fps) [] [] cs) as Hcount.
  rewrite units_of_rows_eq in Hcount by done. cbn [app] in Hcount.
  specialize (Hcount ltac:(unfold accounted; by repeat split) Hunits eq_refl Hloop).
  pose proof (post_process_sums clean_strings shrink_to_64 "Integer clustering" (columns t')
                cs final Hc Hcs Hwhc Hpost) as Hfinal.
  eexists _, _, _. split; [exact Hrun|]. cbn [rows].
  rewrite (total_final count cs final); [|intros r r' H _; unfold count, cell_num; by rewrite H|done].
  assert (t' = default_Nunits plants) as -> by (apply Hid; by left).
  rewrite Hcount. unfold rs. rewrite total_map. apply total_ext. intros r _.
  unfold count, cell_num. by rewrite fill_row_other by in_list.
Qed.

(** X17: under 'LP clustered', and under 'Standard', 'MILP', 'LP' and
    'No clustering' when every count of the input is 1, every row of the
    result has Nunits = 1: a merged row stands for one unit with the
    summed capacity (lines 173-178, 264-265, 290-291). *)
Theorem merged_rows_are_single_units plants method Nslices PartLoadMax Pmax :
  typed_table plants = true -> positive_table plants = true ->
  bounds_nonempty _mylogspace Nslices = true ->
  method ∈ ["Standard"; "MILP"; "LP clustered"; "LP"; "No clustering"] ->
  (method = "LP clustered" -> has_column plants "RampingCost" = true) ->
  method = "LP clustered" \/ all_ones (default_Nunits plants) = true ->
  exists log out m,
    clustering _mylogspace clean_strings shrink_to_64 plants method Nslices PartLoadMax Pmax
    = (log, Ok (out, m)) /\
    Forall (fun r => r !! "Nunits" = Some (Num (Q2Qc 1))) (rows out).
Proof.
  intros Ht Hp Hb Hm HLP Hcase.
  assert (method <> "Integer clustering") as Hne.
  { intros ->. revert Hm. apply (bool_decide_eq_false_1 _). reflexivity. }
  destruct (clustering_stages _mylogspace clean_strings shrink_to_64 plants
              method Nslices PartLoadMax Pmax Ht Hp Hb)
    as (log & t' & oo & fps & cs & final & Hprep & Hpd & Hlenf & Hloop & Hcs & Hpost & _ & _
        & Hrun); [|done|done|].
  { rewrite !elem_of_cons, elem_of_nil in Hm.
    destruct Hm as [->|[->|[->|[->|[->|[]]]]]]; in_list. }
  assert (oo = true) as ->.
  { destruct Hcase as [->|Hall]; [by destruct Hpd as (_ & _ & _ & _ & _ & -> & _)|].
    destruct (decide (method = "LP clustered")) as [->|Hnlp];
      [by destruct Hpd as (_ & _ & _ & _ & _ & -> & _)|].
    unfold prepare in Hprep. destruct (missing_input plants); [discriminate|].
    rewrite check_method_plain in Hprep.
    - injection Hprep as _ _ <-. done.
    - rewrite !elem_of_cons, elem_of_nil in Hm.
      destruct Hm as [->|[->|[->|[->|[->|[]]]]]]; try done; in_list. }
  pose proof (readable_units _ _ _ _ fps Hpd (fun E => False_ind _ (Hne E))) as Hunits.
  destruct Hpd as (Hc & HN & Hcols & Hlen & Hrows & HLPoo & Hones & HF2 & Hid).
  set (rs := map fill_row (rows t')) in *.
  pose proof (merge_loop_accounted method true PartLoadMax Pmax (columns t') Hc HN
                (units_of rs fps) cs Hunits Hloop) as (_ & _ & _ & Hone & Hwhc).
  pose proof (post_process_sums clean_strings shrink_to_64 method (columns t')
                cs final Hc Hcs Hwhc Hpost) as Hfinal.
  eexists _, _, _. split; [exact Hrun|]. cbn [rows].
  specialize (Hone Hne eq_refl).
  clear -Hfinal Hone. induction Hfinal as [|c r' cs final [H _] _ IH]; [constructor|].
  apply Forall_cons in Hone as [H1 H2]. constructor; [by rewrite H|by apply IH].
Qed.

End CountsResult.

Lemma Integer_clustering_keeps_the_number_of_units_witness :
  exists log out m,
    clustering logspace_20 keep_string first_64 two_fleets "Integer clustering"
               default_Nslices default_PartLoadMax default_Pmax
    = (log, Ok (out, m)) /\
    total count (rows out) = total count (rows (default_Nunits two_fleets)).
Proof.
  apply (Integer_clustering_keeps_the_number_of_units logspace_20 keep_string first_64
           two_fleets);
    [vm_compute; reflexivity | vm_compute; reflexivity | vm_compute; reflexivity
    | intros H; discriminate H | vm_compute; reflexivity].
Defined.

Lemma merged_rows_are_single_units_witness :
  exists log out m,
    clustering logspace_20 keep_string first_64 mixed_counts "LP clustered"
               default_Nslices default_PartLoadMax default_Pmax
    = (log, Ok (out, m)) /\
    Forall (fun r => r !! "Nunits" = Some (Num (Q2Qc 1))) (rows out).
Proof.
  apply (merged_rows_are_single_units logspace_20 keep_string first_64 mixed_counts
           "LP clustered");
    [vm_compute; reflexivity | vm_compute; reflexivity | vm_compute; reflexivity
    | in_list | intros _; vm_compute; reflexivity | by left].
Defined.

(** * The incidence matrix *)

Lemma for_each_app {A S} (body : A -> S -> run S) l1 l2 s s1 :
  for_each body l1 s = ([], inr s1) ->
  for_each body (l1 ++ l2) s = for_each body l2 s1.
Proof.
  revert s. induction l1 as [|x l1 IH]; intros s H.
  - injection H as <-. done.
  - cbn [for_each app] in *. unfold and_then in *.
    destruct (body x s) as [log [e|s2]]; [discriminate|].
    destruct (for_each body l1 s2) as [log' r] eqn:E. injection H as Hlog ->.
    apply app_eq_nil in Hlog as [-> ->].
    rewrite (IH s2 E). by destruct (for_each body l2 s1).
Qed.

Lemma enumerate_snoc {A} (l : list A) x :
  enumerate (l ++ [x]) = enumerate l ++ [(length l, x)].
Proof.
  unfold enumerate. rewrite length_app. cbn [length].
  rewrite seq_app. cbn [seq]. rewrite zip_with_app by (by rewrite length_seq).
  by rewrite Nat.add_0_l.
Qed.

(** The inner loop writes one row, entry by entry. *)
Lemma node_loop line first_country second_country param_used i nodes parameters M row :
  countries line = Some (first_country, second_country) ->
  parameters !! param_used = Some M -> M !! i = Some row ->
  (length nodes <= length row)%nat ->
  exists row',
    for_each (node_step first_country second_country param_used i) (enumerate nodes) parameters
    = ([], inr (<[param_used := <[i := row']> M]> parameters)) /\
    length row' = length row /\
    forall j old, row !! j = Some old ->
      row' !! j = Some (match nodes !! j with Some node => entry line node old | None => old end).
Proof.
  intros Hline HM Hrow. induction nodes as [|node nodes IH] using rev_ind; intros Hlen.
  - exists row. split; [|split; [done|]].
    + rewrite (list_insert_id M i row Hrow), (insert_id parameters param_used M HM). reflexivity.
    + intros j old Hj. by rewrite lookup_nil.
  - rewrite length_app in Hlen. cbn [length] in Hlen.
    destruct IH as (row1 & Hrun & Hlen1 & Hrow1); [lia|].
    rewrite enumerate_snoc, (for_each_app _ _ _ _ _ Hrun). cbn [for_each node_step].
    set (ps1 := <[param_used := <[i := row1]> M]> parameters).
    assert (ps1 !! param_used = Some (<[i := row1]> M)) as Hps1 by apply lookup_insert_eq.
    assert (<[i := row1]> M !! i = Some row1) as HM1.
    { apply list_lookup_insert_eq. by eapply lookup_lt_Some. }
    assert (forall v, exists row',
              assign param_used i (length nodes) v ps1
              = ([], inr (<[param_used := <[i := row']> M]> parameters)) /\
              row' = <[length nodes := v]> row1) as Hassign.
    { intros v. eexists. split; [|reflexivity]. unfold assign. rewrite Hps1, HM1.
      rewrite decide_True by lia. unfold ret, ps1.
      by rewrite insert_insert_eq, list_insert_insert_eq. }
    assert (forall v row', row' = <[length nodes := v]> row1 ->
              (forall old, row !! length nodes = Some old -> v = entry line node old) ->
              length row' = length row /\
              forall j old, row !! j = Some old ->
                row' !! j = Some (match (nodes ++ [node]) !! j with
                                  | Some node0 => entry line node0 old
                                  | None => old
                                  end)) as Hspec.
    { intros v row' -> Hv. split; [by rewrite length_insert|]. intros j old Hj.
      destruct (decide (j = length nodes)) as [->|Hne].
      - rewrite list_lookup_insert_eq by lia.
        rewrite lookup_app_r, Nat.sub_diag by lia. cbn. f_equal. by apply Hv.
      - rewrite list_lookup_insert_ne by done. rewrite (Hrow1 j old Hj).
        destruct (decide (j < length nodes)%nat) as [Hlt|Hge].
        + by rewrite lookup_app_l.
        + rewrite (lookup_ge_None_2 nodes) by lia.
          rewrite (lookup_ge_None_2 (nodes ++ [node])); [done|].
          rewrite length_app. cbn. lia. }
    unfold and_then.
    destruct (first_country =? node) eqn:E1; [|destruct (second_country =? node) eqn:E2].
    + destruct (Hassign (-1)) as (row' & -> & Hrow'). exists row'.
      split; [done|]. apply (Hspec (-1)); [done|]. intros old _.
      unfold entry. by rewrite Hline, E1.
    + destruct (Hassign 1) as (row' & -> & Hrow'). exists row'.
      split; [done|]. apply (Hspec 1); [done|]. intros old _.
      unfold entry. by rewrite Hline, E1, E2.
    + exists row1. split; [done|]. split; [done|]. intros j old Hj.
      rewrite (Hrow1 j old Hj). f_equal.
      destruct (decide (j = length nodes)) as [->|Hne].
      * rewrite (lookup_ge_None_2 nodes) by lia.
        rewrite lookup_app_r, Nat.sub_diag by lia. cbn.
        unfold entry. by rewrite Hline, E1, E2.
      * destruct (decide (j < length nodes)%nat) as [Hlt|Hge].
        -- by rewrite lookup_app_l.
        -- rewrite (lookup_ge_None_2 nodes) by lia.
           rewrite (lookup_ge_None_2 (nodes ++ [node])); [done|].
           rewrite length_app. cbn. lia.
Qed.

Lemma fits_rows lines nodes (M : matrix) :
  fits lines nodes M = true ->
  (length lines <= length M)%nat /\
  forall i row, (i < length lines)%nat -> M !! i = Some row -> (length nodes <= length row)%nat.
Proof.
  unfold fits. intros [H1%bool_decide_eq_true_1 H2]%andb_prop. split; [done|].
  intros i row Hi Hrow. rewrite forallb_forall in H2.
  apply (bool_decide_eq_true_1 _), H2, list_elem_of_In.
  apply (list_elem_of_lookup_2 _ i). by rewrite lookup_take_lt.
Qed.

Lemma fits_app l1 l2 nodes (M : matrix) :
  fits (l1 ++ l2) nodes M = true -> fits l1 nodes M = true.
Proof.
  intros [H1 H2]%fits_rows. rewrite length_app in H1. unfold fits.
  apply andb_true_intro. split; [apply bool_decide_eq_true_2; lia|].
  apply forallb_forall. intros row (i & Hi)%list_elem_of_In%list_elem_of_lookup.
  apply bool_decide_eq_true_2.
  pose proof (lookup_lt_Some _ _ _ Hi) as Hlt. rewrite length_take in Hlt.
  rewrite lookup_take_lt in Hi by lia. apply (H2 i); [|done]. rewrite length_app. lia.
Qed.

(** The outer loop writes the row of every line, and no other row. *)
Lemma line_loop sets param_used lines nodes parameters (M : matrix) :
  sets !! "n" = Some nodes ->
  parameters !! param_used = Some M ->
  forallb well_named lines = true ->
  fits lines nodes M = true ->
  exists M' : matrix,
    for_each (line_step sets param_used) (enumerate lines) parameters
    = ([], inr (<[param_used := M']> parameters)) /\
    length M' = length M /\
    forall i row, M !! i = Some row ->
      exists row', M' !! i = Some row' /\ length row' = length row /\
        forall j old, row !! j = Some old ->
          row' !! j = Some (match lines !! i, nodes !! j with
                            | Some line, Some node => entry line node old
                            | _, _ => old
                            end).
Proof.
  intros Hn HM. induction lines as [|line lines IH] using rev_ind; intros Hnamed Hfits.
  - exists M. split; [|split; [done|]].
    + rewrite (insert_id parameters param_used M HM). reflexivity.
    + intros i row Hrow. exists row. split; [done|]. split; [done|].
      intros j old Hj. by rewrite lookup_nil.
  - rewrite forallb_app in Hnamed. apply andb_prop in Hnamed as [Hnamed Hline].
    cbn [forallb] in Hline. rewrite andb_true_r in Hline.
    destruct (IH Hnamed (fits_app _ _ _ _ Hfits)) as (M1 & Hrun & Hlen1 & HM1).
    destruct (fits_rows _ _ _ Hfits) as [Hlen Hrows].
    rewrite length_app in Hlen. cbn [length] in Hlen.
    destruct (lookup_lt_is_Some_2 M (length lines)) as (row & Hrow); [lia|].
    destruct (HM1 _ _ Hrow) as (row1 & Hrow1 & Hlenr & Hsame).
    assert (row1 = row) as ->.
    { apply (list_eq_same_length _ _ (length row)); [done..|].
      intros j x y Hj Hx Hy. rewrite (Hsame j y Hy) in Hx.
      rewrite (lookup_ge_None_2 lines) in Hx by lia. by injection Hx. }
    rewrite enumerate_snoc, (for_each_app _ _ _ _ _ Hrun). cbn [for_each line_step].
    unfold well_named in Hline.
    destruct (countries line) as [[first_country second_country]|] eqn:Hc; [|discriminate].
    rewrite Hn.
    destruct (node_loop line first_country second_country param_used (length lines) nodes
                (<[param_used := M1]> parameters) M1 row Hc)
      as (row' & Hloop & Hlen' & Hrow'); [apply lookup_insert_eq|done| |].
    { apply (Hrows (length lines)); [|done]. rewrite length_app. cbn. lia. }
    rewrite Hloop. rewrite insert_insert_eq. unfold and_then, ret.
    exists (<[length lines := row']> M1). split; [done|]. split; [by rewrite length_insert|].
    intros i r Hr. destruct (decide (i = length lines)) as [->|Hne].
    + rewrite Hrow in Hr. injection Hr as <-. exists row'.
      split; [apply list_lookup_insert_eq; lia|]. split; [done|].
      intros j old Hj. rewrite (Hrow' j old Hj).
      by rewrite lookup_app_r, Nat.sub_diag by lia.
    + destruct (HM1 _ _ Hr) as (r1 & Hr1 & Hlr & Hs). exists r1.
      split; [by rewrite list_lookup_insert_ne|]. split; [done|].
      intros j old Hj. rewrite (Hs j old Hj). f_equal.
      destruct (decide (i < length lines)%nat) as [Hlt|Hge].
      * by rewrite lookup_app_l.
      * rewrite (lookup_ge_None_2 lines) by lia.
        rewrite (lookup_ge_None_2 (lines ++ [line])); [done|]. rewrite length_app. cbn. lia.
Qed.

(** X19: when every line is well named and the array has a row for
    every line with a column for every node, [incidence_matrix] returns
    the array with, in the row of a line, -1 in the column of the node
    that the line leaves, otherwise 1 in the column of the node that it
    reaches, and every other entry, and every row beyond the lines, as it
    was.  Nothing is logged (lines 24-44). *)
Theorem incidence_matrix_entries sets set_used parameters param_used lines nodes (M : matrix) :
  sets !! set_used = Some lines -> sets !! "n" = Some nodes ->
  parameters !! param_used = Some M ->
  forallb well_named lines = true ->
  fits lines nodes M = true ->
  exists M' : matrix,
    incidence_matrix sets set_used parameters param_used = ([], inr M') /\
    length M' = length M /\
    forall i row, M !! i = Some row ->
      exists row', M' !! i = Some row' /\ length row' = length row /\
        forall j old, row !! j = Some old ->
          row' !! j = Some (match lines !! i, nodes !! j with
                            | Some line, Some node => entry line node old
                            | _, _ => old
                            end).
Proof.
  intros Hl Hn HM Hnamed Hfits.
  destruct (line_loop sets param_used lines nodes parameters M Hn HM Hnamed Hfits)
    as (M' & Hrun & Hlen & Hrows).
  exists M'. split; [|done].
  unfold incidence_matrix. rewrite Hl, Hrun. unfold and_then.
  by rewrite lookup_insert_eq.
Qed.

Lemma incidence_matrix_entries_witness :
  exists M' : matrix,
    incidence_matrix sample_sets "l" sample_parameters "LineNode" = ([], inr M') /\
    length M' = 3%nat /\
    forall i row, [[0; 0]; [0; 0]; [0; 0]] !! i = Some row ->
      exists row', M' !! i = Some row' /\ length row' = length row /\
        forall j old, row !! j = Some old ->
          row' !! j = Some (match ["BE -> FR"; "FR -> RoW"; "RoW -> BE"] !! i, ["BE"; "FR"] !! j with
                            | Some line, Some node => entry line node old
                            | _, _ => old
                            end).
Proof.
  apply (incidence_matrix_entries sample_sets "l" sample_parameters "LineNode"
           ["BE -> FR"; "FR -> RoW"; "RoW -> BE"] ["BE"; "FR"] [[0; 0]; [0; 0]; [0; 0]]);
    vm_compute; reflexivity.
Defined.

(** The example in full: -1 at the node a line leaves, 1 at the node it
    reaches, and nothing for the rest of the world, which is no node. *)
Example incidence_matrix_sample :
  incidence_matrix sample_sets "l" sample_parameters "LineNode"
  = ([], inr [[-1; 1]; [0; -1]; [1; 0]]).
Proof. vm_compute. reflexivity. Qed.

Lemma enumerate_app {A} (l1 l2 : list A) :
  enumerate (l1 ++ l2) = enumerate l1 ++ zip (seq (length l1) (length l2)) l2.
Proof.
  unfold enumerate. rewrite length_app, seq_app.
  by rewrite zip_with_app by (by rewrite length_seq).
Qed.

(** X20: a line whose name has 'RoW' in it, but neither as its first
    three characters nor as the slice [6:9], is fatal: after the lines
    before it, [incidence_matrix] logs that the format is not valid and
    ends in [sys.exit(1)], whatever lines follow (lines 25-36). *)
Theorem misnamed_line_is_fatal sets set_used parameters param_used
    before line after nodes (M : matrix) :
  sets !! set_used = Some (before ++ line :: after) -> sets !! "n" = Some nodes ->
  parameters !! param_used = Some M ->
  forallb well_named before = true ->
  fits before nodes M = true ->
  well_named line = false ->
  incidence_matrix sets set_used parameters param_used
  = ([InvalidInterconnection], inl (Raised (SysExit 1))).
Proof.
  intros Hl Hn HM Hnamed Hfits Hline.
  destruct (line_loop sets param_used before nodes parameters M Hn HM Hnamed Hfits)
    as (M' & Hrun & _).
  unfold incidence_matrix. rewrite Hl, enumerate_app, (for_each_app _ _ _ _ _ Hrun).
  cbn [length seq zip_with for_each line_step]. unfold well_named in Hline.
  destruct (countries line) as [[? ?]|]; [discriminate|]. reflexivity.
Qed.

Lemma misnamed_line_is_fatal_witness :
  incidence_matrix misnamed_sets "l" sample_parameters "LineNode"
  = ([InvalidInterconnection], inl (Raised (SysExit 1))).
Proof.
  apply (misnamed_line_is_fatal misnamed_sets "l" sample_parameters "LineNode"
           ["BE -> FR"] "BE->RoW" [] ["BE"; "FR"] [[0; 0]; [0; 0]; [0; 0]]);
    vm_compute; reflexivity.
Defined.

(** ** The names that [countries] reads *)

Ltac split_chars :=
  repeat match goal with
         | |- context [ascii_dec ?x ?y] => destruct (ascii_dec x y); try done
         | |- context [Ascii.eqb ?x ?y] =>
             let v := eval vm_compute in (Ascii.eqb x y) in
             match v with
             | true => change (Ascii.eqb x y) with true
             | false => change (Ascii.eqb x y) with false
             | _ => destruct (Ascii.eqb x y)
             end
         end.

(** X21: [incidence_matrix] reads the names of lines between two-letter
    zone codes as they are written: 'a -> b' is the line from a to b,
    'RoW -> b' the line from the rest of the world to b, and 'a -> RoW'
    the line from a to the rest of the world (lines 25-33). *)
Theorem countries_of_two_letter_codes a b :
  String.length a = 2%nat -> String.length b = 2%nat ->
  countries (a +:+ " -> " +:+ b) = Some (a, b) /\
  countries ("RoW -> " +:+ b) = Some ("RoW", b) /\
  countries (a +:+ " -> RoW") = Some (a, "RoW").
Proof.
  intros Ha Hb.
  destruct a as [|a0 [|a1 [|? ?]]]; try discriminate Ha.
  destruct b as [|b0 [|b1 [|? ?]]]; try discriminate Hb.
  unfold countries, slice. cbv [String.append].
  cbn -[Ascii.eqb ascii_dec].
  split; [|split].
  - split_chars; reflexivity.
  - reflexivity.
  - split_chars; cbn -[Ascii.eqb ascii_dec]; split_chars; reflexivity.
Qed.

Lemma countries_of_two_letter_codes_witness :
  countries ("BE" +:+ " -> " +:+ "FR") = Some ("BE", "FR") /\
  countries ("RoW -> " +:+ "FR") = Some ("RoW", "FR") /\
  countries ("BE" +:+ " -> RoW") = Some ("BE", "RoW").
Proof. apply (countries_of_two_letter_codes "BE" "FR"); reflexivity. Defined.

(** * The connections of [interconnections] *)

Example split_arrow : split " -> " "BE -> FR" = ["BE"; "FR"].
Proof. reflexivity. Qed.

Example split_two_arrows : split " -> " "BE -> FR -> NL" = ["BE"; "FR"; "NL"].
Proof. reflexivity. Qed.

Example split_no_arrow : split " -> " "BE-FR" = ["BE-FR"].
Proof. reflexivity. Qed.

Section Connections.

Variable Simulation_list : list string.

Local Abbreviation simulated := (fun c : string => bool_decide (c ∈ Simulation_list)).

(** The loop as three filters of the list it runs over. *)
Lemma read_connections_filter l st :
  let st' := foldl (read_connection Simulation_list) st l in
  all_connections st'
  = all_connections st ++
    List.filter (fun c => match split " -> " c with
                          | [c0; c1] => simulated c0 || simulated c1
                          | _ => false
                          end) l /\
  simulation_connections st'
  = simulation_connections st ++
    List.filter (fun c => match split " -> " c with
                          | [c0; c1] => simulated c0 && simulated c1
                          | _ => false
                          end) l /\
  warnings st'
  = warnings st ++
    map NotProperlyNamed
        (List.filter (fun c => match split " -> " c with
                               | [c0; c1] => false
                               | _ => true
                               end) l).
Proof.
  revert st. induction l as [|c l IH]; intros st; cbn [foldl List.filter map].
  - by rewrite !app_nil_r.
  - destruct (IH (read_connection Simulation_list st c)) as (H1 & H2 & H3).
    cbv zeta. rewrite H1, H2, H3. clear. unfold read_connection.
    destruct (split " -> " c) as [|c0 [|c1 [|c2 pieces]]];
      cbn [warnings all_connections simulation_connections map];
      rewrite <- ?app_assoc; try done.
    destruct (bool_decide (c0 ∈ Simulation_list)), (bool_decide (c1 ∈ Simulation_list));
      cbn [warnings all_connections simulation_connections orb andb];
      by rewrite <- ?app_assoc.
Qed.

(** X22: of the columns of the two tables, [interconnections] keeps in
    [all_connections] exactly those named 'c0 -> c1' with c0 or c1 in the
    simulation, in [simulation_connections] exactly those with both c0
    and c1 in the simulation, and it warns exactly about those whose name
    does not split in two at ' -> '; it keeps the connections in the
    order of the columns (lines 76-90). *)
Theorem connections_are_read_by_their_ends Historical_flows NTC_inter :
  let read := read_connections Simulation_list Historical_flows NTC_inter in
  (forall c, c ∈ all_connections read <->
     c ∈ ConList Historical_flows NTC_inter /\
     exists c0 c1, joins c c0 c1 /\ (c0 ∈ Simulation_list \/ c1 ∈ Simulation_list)) /\
  (forall c, c ∈ simulation_connections read <->
     c ∈ ConList Historical_flows NTC_inter /\
     exists c0 c1, joins c c0 c1 /\ c0 ∈ Simulation_list /\ c1 ∈ Simulation_list) /\
  (forall c, NotProperlyNamed c ∈ warnings read <->
     c ∈ ConList Historical_flows NTC_inter /\ ~ exists c0 c1, joins c c0 c1) /\
  simulation_connections read `sublist_of` all_connections read /\
  all_connections read `sublist_of` ConList Historical_flows NTC_inter.
Proof.
  cbv zeta. unfold read_connections.
  destruct (read_connections_filter (ConList Historical_flows NTC_inter) (Connections [] [] []))
    as (H1 & H2 & H3).
  cbn [all_connections simulation_connections warnings app] in H1, H2, H3.
  rewrite H1, H2, H3. clear H1 H2 H3.
  set (l := ConList Historical_flows NTC_inter). clearbody l. unfold joins.
  split; [|split; [|split; [|split]]].
  - intros c. rewrite list_elem_of_In, filter_In, <- list_elem_of_In.
    split; intros [Hin H]; (split; [done|]).
    + destruct (split " -> " c) as [|c0 [|c1 [|c2 pieces]]]; try discriminate.
      exists c0, c1. split; [done|].
      apply orb_prop in H as [H|H]; apply bool_decide_eq_true_1 in H; tauto.
    + destruct H as (c0 & c1 & -> & H). apply orb_true_intro.
      destruct H as [H|H]; [left|right]; by apply bool_decide_eq_true_2.
  - intros c. rewrite list_elem_of_In, filter_In, <- list_elem_of_In.
    split; intros [Hin H]; (split; [done|]).
    + destruct (split " -> " c) as [|c0 [|c1 [|c2 pieces]]]; try discriminate.
      exists c0, c1. split; [done|].
      apply andb_prop in H as [H H']; apply bool_decide_eq_true_1 in H, H'; tauto.
    + destruct H as (c0 & c1 & -> & H & H'). apply andb_true_intro.
      split; by apply bool_decide_eq_true_2.
  - intros c. change (map NotProperlyNamed ?x) with (NotProperlyNamed <$> x).
    rewrite list_elem_of_fmap. split.
    + intros (c' & [= <-] & H). rewrite list_elem_of_In, filter_In, <- list_elem_of_In in H.
      destruct H as [Hin H]. split; [done|]. intros (c0 & c1 & E). by rewrite E in H.
    + intros [Hin H]. exists c. split; [done|].
      rewrite list_elem_of_In, filter_In, <- list_elem_of_In. split; [done|].
      destruct (split " -> " c) as [|c0 [|c1 [|c2 pieces]]]; try done.
      exfalso. apply H. by exists c0, c1.
  - induction l as [|c l IH]; [done|]. cbn [List.filter].
    destruct (split " -> " c) as [|c0 [|c1 [|c2 pieces]]]; try done.
    destruct (bool_decide (c0 ∈ Simulation_list)), (bool_decide (c1 ∈ Simulation_list));
      cbn [orb andb]; try done; first [by apply sublist_skip|by apply sublist_cons].
  - induction l as [|c l IH]; [done|]. cbn [List.filter].
    destruct (match split " -> " c with [c0; c1] => _ | _ => false end);
      [by apply sublist_skip|by apply sublist_cons].
Qed.

End Connections.

(** X23: when no table has a column name twice, the list of connections
    that [interconnections] reads has every column of the historical
    flows and of the NTCs, and each once (line 79). *)
Theorem ConList_has_every_column_once Historical_flows NTC_inter :
  NoDup Historical_flows -> NoDup NTC_inter ->
  NoDup (ConList Historical_flows NTC_inter) /\
  forall c, c ∈ ConList Historical_flows NTC_inter <-> c ∈ Historical_flows \/ c ∈ NTC_inter.
Proof.
  intros HH HN. unfold ConList. split.
  - apply NoDup_app. split; [done|]. split.
    + intros c Hc Hf. rewrite list_elem_of_In, filter_In in Hf. destruct Hf as [_ Hf].
      apply negb_true_iff, bool_decide_eq_false_1 in Hf. done.
    + clear HH. induction HN as [|c l Hc HN IH]; cbn [List.filter]; [constructor|].
      destruct (negb (bool_decide (c ∈ Historical_flows))); [|done].
      constructor; [|done]. intros Hf. apply Hc.
      rewrite list_elem_of_In, filter_In, <- list_elem_of_In in Hf. tauto.
  - intros c. rewrite elem_of_app. split.
    + intros [H|H]; [by left|right].
      rewrite list_elem_of_In, filter_In, <- list_elem_of_In in H. tauto.
    + intros [H|H]; [by left|].
      destruct (decide (c ∈ Historical_flows)) as [Hc|Hc]; [by left|right].
      rewrite list_elem_of_In, filter_In, <- list_elem_of_In. split; [done|].
      by rewrite (bool_decide_eq_false_2 _ Hc).
Qed.

Lemma ConList_has_every_column_once_witness :
  NoDup (ConList ["BE -> FR"; "FR -> DE"] ["BE -> FR"; "BE -> NL"]) /\
  forall c, c ∈ ConList ["BE -> FR"; "FR -> DE"] ["BE -> FR"; "BE -> NL"] <->
            c ∈ ["BE -> FR"; "FR -> DE"] \/ c ∈ ["BE -> FR"; "BE -> NL"].
Proof.
  apply (ConList_has_every_column_once ["BE -> FR"; "FR -> DE"] ["BE -> FR"; "BE -> NL"]);
    apply (bool_decide_eq_true_1 _); reflexivity.
Defined.

(** * The mapping is a partition *)

Lemma NoDup_clusters (cs : list cluster) :
  NoDup (concat (map former cs)) -> Forall (fun c => former c <> []) cs -> NoDup cs.
Proof.
  induction cs as [|c cs IH]; intros Hnd Hne; [constructor|].
  cbn [map concat] in Hnd. apply NoDup_app in Hnd as (_ & Hdisj & Hnd).
  apply Forall_cons in Hne as [Hc Hne]. constructor; [|by apply IH].
  intros Hin. destruct (former c) as [|i l] eqn:E; [done|].
  apply (Hdisj i); [by left|].
  apply elem_of_concat. exists (former c). split; [rewrite E; by left|].
  apply list_elem_of_fmap. by exists c.
Qed.

Section Partition.

Variable _mylogspace : Qc -> Qc -> nat -> list Qc.
Variable clean_strings : string -> string.
Variable shrink_to_64 : string -> string.

Local Abbreviation name1 := (name_of clean_strings shrink_to_64).
Local Abbreviation add1 := (add_mapping clean_strings shrink_to_64).

(** Every new name is written from the list of the members. *)
Lemma NewName_shape c name :
  NewName clean_strings shrink_to_64 c = Ok name ->
  exists t, name = sanitize clean_strings shrink_to_64 (str_list (former c) +:+ t).
Proof.
  unfold NewName. intros H.
  destruct (former c) as [|i [|j l]]; apply bind_Ok_inv in H as (x & _ & H);
    injection H as <-; by eexists.
Qed.

(** The clusters of a run have different names when the helpers keep
    names apart: their lists of members are disjoint and none is empty,
    so two of them begin with different indices. *)
Lemma clusters_names_distinct n (cs : list cluster) :
  names_stay_apart clean_strings shrink_to_64 n ->
  NoDup (concat (map former cs)) ->
  Forall (fun c => former c <> [] /\ Forall (fun i => (i < n)%nat) (former c)) cs ->
  (forall c, c ∈ cs -> exists name, NewName clean_strings shrink_to_64 c = Ok name) ->
  NoDup (map name1 cs).
Proof.
  intros Hapart Hnd Hcs Hnames.
  apply (NoDup_fmap_2_strong name1).
  - intros c1 c2 H1 H2 E.
    destruct (Hnames c1 H1) as (n1 & Hn1). destruct (Hnames c2 H2) as (n2 & Hn2).
    unfold name_of in E. rewrite Hn1, Hn2 in E. subst n2.
    apply NewName_shape in Hn1 as (t1 & E1). apply NewName_shape in Hn2 as (t2 & E2).
    rewrite Forall_forall in Hcs.
    destruct (Hcs c1 H1) as [Hne1 Hb1]. destruct (Hcs c2 H2) as [Hne2 Hb2].
    destruct (former c1) as [|i1 l1] eqn:F1; [done|].
    destruct (former c2) as [|i2 l2] eqn:F2; [done|].
    apply Forall_cons in Hb1 as [Hi1 _]. apply Forall_cons in Hb2 as [Hi2 _].
    destruct (decide (i1 = i2)) as [->|Hne].
    + apply (NoDup_concat_unique cs c1 c2 i2 Hnd H1 H2); [rewrite F1|rewrite F2]; by left.
    + exfalso. apply (Hapart i1 i2 l1 l2 t1 t2 Hi1 Hi2 Hne). by rewrite <- E1, <- E2.
  - apply NoDup_clusters; [done|]. eapply Forall_impl; [exact Hcs|]. by intros c [? _].
Qed.

(** C3: on a typed frame with positive capacities and counts, under
    every method, and with helpers that keep the names of the clusters
    apart, [clustering] returns a mapping in which the lists of
    FormerIndexes are pairwise disjoint and without repetition, together
    they hold exactly the original indices, NewIndex has an entry exactly
    for the original indices, and NewIndex[i] = name exactly when [i] is in
    FormerIndexes[name]. *)
Theorem mapping_is_a_partition plants method Nslices PartLoadMax Pmax :
  typed_table plants = true -> positive_table plants = true ->
  bounds_nonempty _mylogspace Nslices = true ->
  method ∈ methods ->
  (method = "LP clustered" -> has_column plants "RampingCost" = true) ->
  (method = "Integer clustering" -> rows plants <> []) ->
  names_stay_apart clean_strings shrink_to_64 (length (rows plants)) ->
  exists log out m,
    clustering _mylogspace clean_strings shrink_to_64 plants method Nslices PartLoadMax Pmax
    = (log, Ok (out, m)) /\
    (forall n1 n2 l1 l2, n1 <> n2 ->
       FormerIndexes m !! n1 = Some l1 -> FormerIndexes m !! n2 = Some l2 ->
       forall i, i ∈ l1 -> i ∉ l2) /\
    (forall n l, FormerIndexes m !! n = Some l -> NoDup l) /\
    (forall i, (exists n l, FormerIndexes m !! n = Some l /\ i ∈ l)
               <-> (i < length (rows plants))%nat) /\
    (forall i, is_Some (NewIndex m !! i) <-> (i < length (rows plants))%nat) /\
    (forall i n, NewIndex m !! i = Some n
                 <-> exists l, FormerIndexes m !! n = Some l /\ i ∈ l).
Proof.
  intros Ht Hp Hb Hm HLP HInt Hapart.
  destruct (clustering_stages _mylogspace clean_strings shrink_to_64 plants method
              Nslices PartLoadMax Pmax Ht Hp Hb Hm HLP HInt)
    as (log & t' & oo & fps & cs & final & _ & Hpd & Hlenf & Hloop & Hcs & _ & _ & Hnames & Hrun).
  destruct Hpd as (_ & _ & _ & Hlen & _).
  pose proof (merge_loop_ascending _ _ _ _ _ _ _ _ Hloop) as Hasc.
  apply merge_loop_former in Hloop.
  rewrite units_of_indices in Hloop by (by rewrite length_map).
  rewrite length_map, Hlen in Hloop, Hasc.
  set (n := length (rows plants)) in *.
  assert (NoDup (concat (map former cs))) as Hnd by (rewrite Hloop; apply NoDup_seq).
  assert (NoDup (map name1 cs)) as Hdn.
  { apply (clusters_names_distinct n); [done|done| |].
    - eapply Forall_impl; [exact Hasc|]. by intros c (_ & ? & ?).
    - intros c Hc. apply (NewName_total _ _ (columns t')).
      rewrite Forall_forall in Hcs. by destruct (Hcs c Hc). }
  assert (forall i, (exists c, c ∈ cs /\ i ∈ former c) <-> (i < n)%nat) as Hcover.
  { intros i. split.
    - intros (c & Hc & Hi).
      assert (i ∈ concat (map former cs)) as H.
      { apply elem_of_concat. exists (former c). split; [done|].
        apply list_elem_of_fmap. by exists c. }
      rewrite Hloop in H. apply elem_of_seq in H. lia.
    - intros H. assert (i ∈ concat (map former cs)) as H'.
      { rewrite Hloop. apply elem_of_seq. lia. }
      apply elem_of_concat in H' as (l & Hi & (c & -> & Hc)%list_elem_of_fmap).
      by exists c. }
  eexists _, _, _. split; [exact Hrun|].
  split; [|split; [|split; [|split]]].
  - intros n1 n2 l1 l2 Hne H1 H2 i Hi1 Hi2.
    apply FormerIndexes_from in H1 as (c1 & Hc1 & <- & <-).
    apply FormerIndexes_from in H2 as (c2 & Hc2 & <- & <-).
    apply Hne. by rewrite (NoDup_concat_unique cs c1 c2 i).
  - intros name l H. apply FormerIndexes_from in H as (c & Hc & _ & <-).
    by apply (NoDup_concat_each cs).
  - intros i. rewrite <- Hcover. split.
    + intros (name & l & H & Hi). apply FormerIndexes_from in H as (c & Hc & _ & <-).
      by exists c.
    + intros (c & Hc & Hi). exists (name1 c), (former c). split; [|done].
      by apply FormerIndexes_of.
  - intros i. rewrite <- Hcover. split.
    + intros [name H]. apply NewIndex_from in H as (c & Hc & Hi & _). by exists c.
    + intros (c & Hc & Hi). exists (name1 c). by apply NewIndex_of.
  - intros i name. split.
    + intros H. apply NewIndex_from in H as (c & Hc & Hi & <-).
      exists (former c). split; [|done]. by apply FormerIndexes_of.
    + intros (l & H & Hi). apply FormerIndexes_from in H as (c & Hc & <- & <-).
      by apply NewIndex_of.
Qed.

End Partition.

Lemma mapping_is_a_partition_witness :
  exists log out m,
    clustering logspace_20 keep_string first_64 single_units "LP clustered"
               default_Nslices default_PartLoadMax default_Pmax
    = (log, Ok (out, m)) /\
    (forall n1 n2 l1 l2, n1 <> n2 ->
       FormerIndexes m !! n1 = Some l1 -> FormerIndexes m !! n2 = Some l2 ->
       forall i, i ∈ l1 -> i ∉ l2) /\
    (forall n l, FormerIndexes m !! n = Some l -> NoDup l) /\
    (forall i, (exists n l, FormerIndexes m !! n = Some l /\ i ∈ l)
               <-> (i < length (rows single_units))%nat) /\
    (forall i, is_Some (NewIndex m !! i) <-> (i < length (rows single_units))%nat) /\
    (forall i n, NewIndex m !! i = Some n
                 <-> exists l, FormerIndexes m !! n = Some l /\ i ∈ l).
Proof.
  apply (mapping_is_a_partition logspace_20 keep_string first_64 single_units "LP clustered");
    [vm_compute; reflexivity | vm_compute; reflexivity | vm_compute; reflexivity
    | in_list | intros _; vm_compute; reflexivity | intros H; discriminate H
    | apply first_64_keeps_names_apart; vm_compute; lia].
Defined.
